(** * Order fulfilment ledger of the dry-cleaning shop backend

    A shallow embedding of the Django models, serializers, views and the
    notification service that keep order totals, the loyalty ledger and
    the notification records, together with the properties the
    specification states about them.

    Conventions of the embedding.
    - Money ([DecimalField] with two decimal places) is an integer number
      of cents in [Z]; column widths ([max_digits]) are not modelled.
    - A table with a primary key is a [gmap] from the key to the row; a
      table that is only appended to, filtered or summed is a list of
      rows in insertion order.
    - A model instance is a record; a method that mutates [self] returns
      the new instance next to the new database.
    - An exception is the [Raise] case of [result]; the database keeps
      whatever was written before the exception (autocommit). *)

From Stdlib Require Import ZArith String List Bool Lia.
From stdpp Require Import base option list gmap strings pretty.

Local Open Scope string_scope.
Local Open Scope Z_scope.

(** ** Exceptions and results *)

Inductive exn : Type :=
| IntegrityError   (* a unique constraint of the database is violated *)
| DoesNotExist     (* [Model.objects.get] found no row *)
| ValueError       (* an unsaved instance is used as a relation *)
| DatabaseError.   (* any other failure of the storage layer *)

Inductive result (A : Type) : Type :=
| Ok (a : A)
| Raise (e : exn).

Arguments Ok {A} a.
Arguments Raise {A} e.

(** Code that reads and writes the database and may raise: a state and
    exception monad over the database type [S]. *)
Definition M (S A : Type) : Type := S → result A * S.

#[global] Instance M_ret {S} : MRet (M S) := λ A a s, (Ok a, s).
#[global] Instance M_bind {S} : MBind (M S) := λ A B f m s,
  match m s with
  | (Ok a, s') => f a s'
  | (Raise e, s') => (Raise e, s')
  end.

Definition raise {S A} (e : exn) : M S A := λ s, (Raise e, s).
Definition get {S} : M S S := λ s, (Ok s, s).
Definition modify {S} (f : S → S) : M S unit := λ s, (Ok tt, f s).

Definition is_ok {A} (r : result A) : bool :=
  match r with Ok _ => true | Raise _ => false end.

(** Python's [s[-n:]]: the last [n] characters, the whole string when it is
    shorter. *)
Definition last_chars (n : nat) (s : string) : string :=
  substring (String.length s - n) n s.

(** Python's [x in xs] on a list of strings. *)
Definition str_in (x : string) (xs : list string) : bool :=
  existsb (String.eqb x) xs.

(** [sum(...)] over decimals, starting from 0. *)
Definition sum_Z (l : list Z) : Z := fold_right Z.add 0 l.

(** ** orders/models.py, orders/serializers.py, orders/views.py *)

Module Orders.

(** What the code reads from its environment during one call:
    [int(time.time() * 1000000)] and [random.randint(10, 99)] in
    [Order.save], [timezone.now()] in the status serializer. *)
Record Env : Type := {
  time_us : Z;
  randint : Z;
  now : Z
}.

Record ServicePrice : Type := {
  sp_shop : nat;
  price : Z
}.

Record Order : Type := {
  pk : option nat;
  customer : nat;
  shop : nat;
  order_number : string;
  status : string;
  estimated_completion : option Z;
  confirmed_at : option Z;
  completed_at : option Z;
  subtotal : Z;
  total_amount : Z
}.

Record OrderItem : Type := {
  item_pk : option nat;
  item_order : nat;
  service_price : nat;
  quantity : Z;
  unit_price : option Z;
  total_price : Z;
  notes : string
}.

Record OrderStatusHistory : Type := {
  h_order : option nat;
  h_status : string;
  changed_by : nat;
  changed_at : Z;
  h_notes : string
}.

Record DB : Type := {
  orders : gmap nat Order;
  next_order_id : nat;
  order_items : list OrderItem;
  next_item_id : nat;
  status_history : list OrderStatusHistory;
  service_prices : gmap nat ServicePrice
}.

Definition STATUS_CHOICES : list string :=
  ["pending"; "confirmed"; "in_progress"; "ready"; "completed"; "cancelled"].

(** Field updates. *)

Definition set_order_number (v : string) (o : Order) : Order :=
  {| pk := pk o; customer := customer o; shop := shop o; order_number := v;
     status := status o; estimated_completion := estimated_completion o;
     confirmed_at := confirmed_at o; completed_at := completed_at o;
     subtotal := subtotal o; total_amount := total_amount o |}.

Definition set_pk (v : option nat) (o : Order) : Order :=
  {| pk := v; customer := customer o; shop := shop o;
     order_number := order_number o;
     status := status o; estimated_completion := estimated_completion o;
     confirmed_at := confirmed_at o; completed_at := completed_at o;
     subtotal := subtotal o; total_amount := total_amount o |}.

Definition set_status (v : string) (o : Order) : Order :=
  {| pk := pk o; customer := customer o; shop := shop o;
     order_number := order_number o;
     status := v; estimated_completion := estimated_completion o;
     confirmed_at := confirmed_at o; completed_at := completed_at o;
     subtotal := subtotal o; total_amount := total_amount o |}.

Definition set_estimated_completion (v : option Z) (o : Order) : Order :=
  {| pk := pk o; customer := customer o; shop := shop o;
     order_number := order_number o;
     status := status o; estimated_completion := v;
     confirmed_at := confirmed_at o; completed_at := completed_at o;
     subtotal := subtotal o; total_amount := total_amount o |}.

Definition set_confirmed_at (v : option Z) (o : Order) : Order :=
  {| pk := pk o; customer := customer o; shop := shop o;
     order_number := order_number o;
     status := status o; estimated_completion := estimated_completion o;
     confirmed_at := v; completed_at := completed_at o;
     subtotal := subtotal o; total_amount := total_amount o |}.

Definition set_completed_at (v : option Z) (o : Order) : Order :=
  {| pk := pk o; customer := customer o; shop := shop o;
     order_number := order_number o;
     status := status o; estimated_completion := estimated_completion o;
     confirmed_at := confirmed_at o; completed_at := v;
     subtotal := subtotal o; total_amount := total_amount o |}.

Definition set_totals (sub tot : Z) (o : Order) : Order :=
  {| pk := pk o; customer := customer o; shop := shop o;
     order_number := order_number o;
     status := status o; estimated_completion := estimated_completion o;
     confirmed_at := confirmed_at o; completed_at := completed_at o;
     subtotal := sub; total_amount := tot |}.

Definition set_orders (tbl : gmap nat Order) (next : nat) (db : DB) : DB :=
  {| orders := tbl; next_order_id := next;
     order_items := order_items db; next_item_id := next_item_id db;
     status_history := status_history db;
     service_prices := service_prices db |}.

Definition set_order_items (rows : list OrderItem) (next : nat) (db : DB) : DB :=
  {| orders := orders db; next_order_id := next_order_id db;
     order_items := rows; next_item_id := next;
     status_history := status_history db;
     service_prices := service_prices db |}.

Definition set_status_history (rows : list OrderStatusHistory) (db : DB) : DB :=
  {| orders := orders db; next_order_id := next_order_id db;
     order_items := order_items db; next_item_id := next_item_id db;
     status_history := rows;
     service_prices := service_prices db |}.

Definition set_service_prices (tbl : gmap nat ServicePrice) (db : DB) : DB :=
  {| orders := orders db; next_order_id := next_order_id db;
     order_items := order_items db; next_item_id := next_item_id db;
     status_history := status_history db;
     service_prices := tbl |}.

(** *** Order.save *)

(** [f"{self.shop.id}{timestamp}{random_suffix}"] with
    [timestamp = str(int(time.time() * 1000000))[-10:]]. *)
Definition generate_order_number (env : Env) (shop_id : nat) : string :=
  pretty shop_id ++ last_chars 10 (pretty (time_us env)) ++ pretty (randint env).

(** [order_number] is declared [unique=True]: the database refuses a row
    whose number is held by a row with another primary key. *)
Definition number_taken (n : string) (self_pk : option nat)
    (tbl : gmap nat Order) : bool :=
  existsb (λ kv, negb (bool_decide (self_pk = Some (fst kv)))
                 && String.eqb (order_number (snd kv)) n)
          (map_to_list tbl).

(** [super().save()]: INSERT under a fresh key when the instance has no
    primary key, otherwise write the whole instance to its row. *)
Definition Model_save (self : Order) : M DB Order := λ db,
  if number_taken (order_number self) (pk self) (orders db)
  then (Raise IntegrityError, db)
  else match pk self with
       | None =>
           let k := next_order_id db in
           let self := set_pk (Some k) self in
           (Ok self, set_orders (<[k := self]> (orders db)) (S k) db)
       | Some k =>
           (Ok self,
            set_orders (<[k := self]> (orders db)) (next_order_id db) db)
       end.

Definition Order_save (env : Env) (self : Order) : M DB Order :=
  let self :=
    if String.eqb (order_number self) ""
    then set_order_number (generate_order_number env (shop self)) self
    else self in
  Model_save self.

(** [Order.objects.create(customer=..., shop=..., **validated_data)]: field
    defaults, then [save]. *)
Definition new_order (customer_id shop_id : nat) (number : string) : Order :=
  {| pk := None; customer := customer_id; shop := shop_id;
     order_number := number; status := "pending";
     estimated_completion := None; confirmed_at := None;
     completed_at := None; subtotal := 0; total_amount := 0 |}.

Definition Order_objects_create (env : Env) (customer_id shop_id : nat)
    : M DB Order :=
  Order_save env (new_order customer_id shop_id "").

Definition empty_db : DB :=
  {| orders := ∅; next_order_id := 1; order_items := []; next_item_id := 1;
     status_history := []; service_prices := ∅ |}.

(** *** Order.calculate_total *)

(** [self.items.all()]: the rows of the item table whose foreign key is
    this order. *)
Definition Order_items (self : Order) (db : DB) : list OrderItem :=
  filter (λ it, pk self = Some (item_order it)) (order_items db).

Definition Order_calculate_total (env : Env) (self : Order) : M DB Order :=
  db ← get;
  let sub := sum_Z (total_price <$> Order_items self db) in
  let self := set_totals sub sub self in
  Order_save env self.

(** *** OrderItem.save *)

(** Python truth value of an optional decimal: [None] and zero are false. *)
Definition truthy (d : option Z) : bool :=
  match d with
  | None => false
  | Some z => negb (z =? 0)%Z
  end.

Definition set_prices (u : option Z) (t : Z) (it : OrderItem) : OrderItem :=
  {| item_pk := item_pk it; item_order := item_order it;
     service_price := service_price it; quantity := quantity it;
     unit_price := u; total_price := t; notes := notes it |}.

Definition set_item_pk (k : option nat) (it : OrderItem) : OrderItem :=
  {| item_pk := k; item_order := item_order it;
     service_price := service_price it; quantity := quantity it;
     unit_price := unit_price it; total_price := total_price it;
     notes := notes it |}.

Definition has_pk (k : nat) (it : OrderItem) : bool :=
  bool_decide (item_pk it = Some k).

(** [super().save()] of an item: INSERT under a fresh key, or overwrite the
    row with the instance's key (INSERT when there is none). *)
Definition Item_model_save (self : OrderItem) : M DB OrderItem := λ db,
  match item_pk self with
  | None =>
      let k := next_item_id db in
      let self := set_item_pk (Some k) self in
      (Ok self, set_order_items (order_items db ++ [self]) (S k) db)
  | Some k =>
      if existsb (has_pk k) (order_items db)
      then (Ok self,
            set_order_items
              ((λ r, if has_pk k r then self else r) <$> order_items db)
              (next_item_id db) db)
      else (Ok self,
            set_order_items (order_items db ++ [self]) (next_item_id db) db)
  end.

(** [self.service_price.price]: follows the foreign key. *)
Definition service_price_price (self : OrderItem) : M DB Z := λ db,
  match service_prices db !! service_price self with
  | Some sp => (Ok (price sp), db)
  | None => (Raise DoesNotExist, db)
  end.

(** [order] is the instance cached behind [self.order]; [save] recomputes
    its totals, so the caller gets the mutated instance back. *)
Definition OrderItem_save (env : Env) (self : OrderItem) (order : Order)
    : M DB (OrderItem * Order) :=
  u ← (if truthy (unit_price self)
       then mret (default 0 (unit_price self))
       else service_price_price self);
  let self := set_prices (Some u) (u * quantity self) self in
  self ← Item_model_save self;
  order ← Order_calculate_total env order;
  mret (self, order).

(** [OrderItem.objects.create(order=order, service_price=..., quantity=...,
    notes=...)], with [unit_price] as the caller passes it ([None] when it
    is left out, as both serializers do). *)
Definition OrderItem_objects_create (env : Env) (order : Order)
    (sp_id : nat) (qty : Z) (u : option Z) (note : string)
    : M DB (OrderItem * Order) :=
  match pk order with
  | None => raise ValueError   (* unsaved related object *)
  | Some oid =>
      OrderItem_save env
        {| item_pk := None; item_order := oid; service_price := sp_id;
           quantity := qty; unit_price := u; total_price := 0;
           notes := note |}
        order
  end.

(** [item.delete()] *)
Definition OrderItem_delete (self : OrderItem) : M DB unit :=
  modify (λ db,
    set_order_items
      (filter (λ r, item_pk r ≠ item_pk self) (order_items db))
      (next_item_id db) db).

(** *** The item endpoints of orders/views.py *)

Record User : Type := {
  user_id : nat;
  role : string;
  user_shop : option nat;      (* [user.shop], when [hasattr(user, 'shop')] *)
  staff_shop : option nat      (* [user.staff_profile.shop] *)
}.

Inductive Response : Type :=
| HTTP_201_CREATED (item : OrderItem)
| HTTP_204_NO_CONTENT
| HTTP_400_BAD_REQUEST (error : string)
| HTTP_404_NOT_FOUND
| HTTP_500 (e : exn).

(** The three-way lookup both item views start with. *)
Definition get_order_or_404 (user : User) (order_id : nat) (db : DB)
    : option Order :=
  o ← orders db !! order_id;
  match String.eqb (role user) "shop_owner", user_shop user,
        String.eqb (role user) "staff", staff_shop user with
  | true, Some s, _, _ => if bool_decide (shop o = s) then Some o else None
  | _, _, true, Some s => if bool_decide (shop o = s) then Some o else None
  | _, _, _, _ => if bool_decide (customer o = user_id user) then Some o else None
  end.

Record ItemData : Type := {
  d_service_price_id : nat;
  d_quantity : Z;
  d_notes : string
}.

(** [OrderItemSerializer.is_valid]: [validate_service_price_id], and the
    lower bound a [PositiveIntegerField] puts on [quantity]. *)
Definition OrderItemSerializer_is_valid (user : User) (data : ItemData)
    (db : DB) : bool :=
  match service_prices db !! d_service_price_id data with
  | None => false
  | Some sp =>
      match user_shop user with
      | Some s => bool_decide (sp_shop sp = s)
      | None => true
      end && (0 <=? d_quantity data)%Z
  end.

Definition cannot_add : string :=
  "Cannot add items to orders that are in progress or completed".
Definition cannot_remove : string :=
  "Cannot remove items from orders that are in progress or completed".

(** A view answers every request: an exception that leaves the view body
    becomes a 500 response. *)
Definition respond (body : M DB Response) (db : DB) : Response * DB :=
  match body db with
  | (Ok r, db') => (r, db')
  | (Raise e, db') => (HTTP_500 e, db')
  end.

(** [serializer.save(order=order); order.calculate_total()]: the item is
    created with the keys of the validated data, [unit_price] not among
    them. *)
Definition add_item (env : Env) (order : Order) (sp_id : nat) (qty : Z)
    (u : option Z) (note : string) : M DB Response :=
  '(item, order) ← OrderItem_objects_create env order sp_id qty u note;
  _ ← Order_calculate_total env order;
  mret (HTTP_201_CREATED item).

Definition add_order_item (env : Env) (user : User) (order_id : nat)
    (data : ItemData) (db : DB) : Response * DB :=
  match get_order_or_404 user order_id db with
  | None => (HTTP_404_NOT_FOUND, db)
  | Some order =>
      if negb (str_in (status order) ["received"])
      then (HTTP_400_BAD_REQUEST cannot_add, db)
      else if OrderItemSerializer_is_valid user data db then
        respond (add_item env order (d_service_price_id data)
                   (d_quantity data) None (d_notes data)) db
      else (HTTP_400_BAD_REQUEST "serializer.errors", db)
  end.

Definition get_item_or_404 (order : Order) (item_id : nat) (db : DB)
    : option OrderItem :=
  find (has_pk item_id) (Order_items order db).

(** [item.delete(); order.calculate_total()] *)
Definition remove_item (env : Env) (order : Order) (item : OrderItem)
    : M DB Response :=
  _ ← OrderItem_delete item;
  _ ← Order_calculate_total env order;
  mret HTTP_204_NO_CONTENT.

Definition remove_order_item (env : Env) (user : User)
    (order_id item_id : nat) (db : DB) : Response * DB :=
  match get_order_or_404 user order_id db with
  | None => (HTTP_404_NOT_FOUND, db)
  | Some order =>
      if negb (str_in (status order) ["received"])
      then (HTTP_400_BAD_REQUEST cannot_remove, db)
      else match get_item_or_404 order item_id db with
           | None => (HTTP_404_NOT_FOUND, db)
           | Some item => respond (remove_item env order item) db
           end
  end.

(** *** OrderStatusUpdateSerializer.update *)

Record ValidatedData : Type := {
  vd_status : option string;
  vd_notes : option string;
  vd_estimated_completion : option Z
}.

(** [for attr, value in validated_data.items(): setattr(instance, attr,
    value)], [notes] having been popped. *)
Definition with_validated (vd : ValidatedData) (instance : Order) : Order :=
  let instance :=
    match vd_status vd with
    | Some s => set_status s instance
    | None => instance
    end in
  match vd_estimated_completion vd with
  | Some t => set_estimated_completion (Some t) instance
  | None => instance
  end.

(** [ModelSerializer.update]: the attributes are set, then
    [instance.save()]. *)
Definition ModelSerializer_update (env : Env) (instance : Order)
    (vd : ValidatedData) : M DB Order :=
  Order_save env (with_validated vd instance).

Definition OrderStatusHistory_objects_create (env : Env) (order : Order)
    (new_status : string) (user : nat) (note : string) : M DB unit :=
  modify (λ db,
    set_status_history
      (status_history db ++
         [{| h_order := pk order; h_status := new_status;
             changed_by := user; changed_at := now env; h_notes := note |}])
      db).

Definition update (env : Env) (request_user : nat) (instance : Order)
    (validated_data : ValidatedData) : M DB Order :=
  let note := default "" (vd_notes validated_data) in
  let old_status := status instance in
  let new_status := default old_status (vd_status validated_data) in
  instance ← ModelSerializer_update env instance validated_data;
  if negb (String.eqb old_status new_status) then
    _ ← OrderStatusHistory_objects_create env instance new_status
          request_user note;
    let instance :=
      if String.eqb new_status "confirmed"
      then set_confirmed_at (Some (now env)) instance
      else if String.eqb new_status "completed"
      then set_completed_at (Some (now env)) instance
      else instance in
    Order_save env instance
  else mret instance.

(** *** Sequences of item operations

    An item enters an order through the POST view or through
    [OrderItem.objects.create] on a loaded order (what
    [OrderCreateSerializer.create] does for each item of a new order), and
    leaves it through the DELETE view or its body. *)

Inductive ItemOp : Type :=
| PostItem (user : User) (order_id : nat) (data : ItemData)
| DeleteItemView (user : User) (order_id item_id : nat)
| AddItem (order_id sp_id : nat) (qty : Z) (u : option Z) (note : string)
| RemoveItem (order_id item_id : nat).

Definition step (c : Env * ItemOp) (db : DB) : DB :=
  match c.2 with
  | PostItem user oid data => (add_order_item c.1 user oid data db).2
  | DeleteItemView user oid iid => (remove_order_item c.1 user oid iid db).2
  | AddItem oid sp qty u note =>
      match orders db !! oid with
      | Some order => (add_item c.1 order sp qty u note db).2
      | None => db
      end
  | RemoveItem oid iid =>
      match orders db !! oid with
      | Some order =>
          match get_item_or_404 order iid db with
          | Some item => (remove_item c.1 order item db).2
          | None => db
          end
      | None => db
      end
  end.

Definition run (ops : list (Env * ItemOp)) (db : DB) : DB :=
  fold_left (λ db c, step c db) ops db.

(** [ServicePrice.price] of row [sp_id] is changed to [p]. *)
Definition change_price (sp_id : nat) (p : Z) (db : DB) : DB :=
  set_service_prices
    (alter (λ sp, {| sp_shop := sp_shop sp; price := p |}) sp_id
       (service_prices db))
    db.

(** core/validators.py, [validate_price]: the value is positive (in cents
    it cannot have more than two decimal places). *)
Definition validate_price (value : Z) : bool := negb (value <=? 0)%Z.

(** *** Integrity constraints of the tables

    What the database itself guarantees: the primary key column agrees
    with the row's key, [order_number] is unique and (since every [save]
    fills it) not blank, item keys are unique and below the sequence. *)

Definition orders_wf (tbl : gmap nat Order) : Prop :=
  (∀ k o, tbl !! k = Some o → pk o = Some k ∧ order_number o ≠ "") ∧
  (∀ k1 k2 o1 o2, tbl !! k1 = Some o1 → tbl !! k2 = Some o2 →
     order_number o1 = order_number o2 → k1 = k2).

Definition items_wf (rows : list OrderItem) (next : nat) : Prop :=
  NoDup (item_pk <$> rows) ∧
  ∀ r, r ∈ rows → ∃ k, item_pk r = Some k ∧ (k < next)%nat.

Definition db_wf (db : DB) : Prop :=
  orders_wf (orders db) ∧ items_wf (order_items db) (next_item_id db).

(** *** The total invariant *)

Definition order_consistent (db : DB) (o : Order) : Prop :=
  subtotal o = sum_Z (total_price <$> Order_items o db) ∧
  total_amount o = subtotal o.

Definition totals_consistent (db : DB) : Prop :=
  ∀ k o, orders db !! k = Some o → order_consistent db o.

(** The state between an item write and the recomputation that follows
    it: every order but the one being changed is consistent. *)
Definition consistent_except (k : nat) (db : DB) : Prop :=
  ∀ k' o, k' ≠ k → orders db !! k' = Some o → order_consistent db o.

(** Executable forms of the constraints and of the invariant, to check
    them on a concrete database. *)

Definition orders_wf_b (tbl : gmap nat Order) : bool :=
  forallb (λ kv, bool_decide (pk kv.2 = Some kv.1)
                 && negb (String.eqb (order_number kv.2) ""))
          (map_to_list tbl)
  && bool_decide (NoDup ((λ kv, order_number kv.2) <$> map_to_list tbl)).

Definition items_wf_b (rows : list OrderItem) (next : nat) : bool :=
  bool_decide (NoDup (item_pk <$> rows))
  && forallb (λ r, match item_pk r with
                   | Some k => (k <? next)%nat
                   | None => false
                   end) rows.

Definition db_wf_b (db : DB) : bool :=
  orders_wf_b (orders db) && items_wf_b (order_items db) (next_item_id db).

Definition totals_consistent_b (db : DB) : bool :=
  forallb (λ kv, (subtotal kv.2 =? sum_Z (total_price <$> Order_items kv.2 db))
                 && (total_amount kv.2 =? subtotal kv.2))
          (map_to_list (orders db)).

(** *** The transition table of the specification

    Written from the words of section 4.2, to state the claim about it:
    [pending → confirmed → in_progress → ready → completed], with
    [cancelled] reachable from any non-terminal state. The serializer has
    no such table. *)
Definition spec_reachable (old new : string) : bool :=
  (String.eqb old "pending" && String.eqb new "confirmed")
  || (String.eqb old "confirmed" && String.eqb new "in_progress")
  || (String.eqb old "in_progress" && String.eqb new "ready")
  || (String.eqb old "ready" && String.eqb new "completed")
  || (String.eqb new "cancelled"
      && negb (String.eqb old "completed" || String.eqb old "cancelled")).

(** *** OrderCreateSerializer.create *)

(** [ServicePrice.objects.get(id=service_price_id)] *)
Definition ServicePrice_objects_get (sp_id : nat) : M DB ServicePrice := λ db,
  match service_prices db !! sp_id with
  | Some sp => (Ok sp, db)
  | None => (Raise DoesNotExist, db)
  end.

(** The [for item_data in items_data] loop. Every item is created on the
    same [order] instance, which each [OrderItem.save] updates. *)
Fixpoint create_items (env : Env) (order : Order) (items_data : list ItemData)
    : M DB Order :=
  match items_data with
  | [] => mret order
  | item_data :: rest =>
      _ ← ServicePrice_objects_get (d_service_price_id item_data);
      '(_, order) ← OrderItem_objects_create env order
                      (d_service_price_id item_data) (d_quantity item_data)
                      None (d_notes item_data);
      create_items env order rest
  end.

(** [shop=user.shop if hasattr(user, 'shop') else None]: with no shop,
    [Order.save] fails on [self.shop.id] before anything is written. *)
Definition OrderCreateSerializer_create (env : Env) (user : User)
    (items_data : list ItemData) : M DB Order :=
  match user_shop user with
  | None => raise DoesNotExist
  | Some s =>
      order ← Order_objects_create env (user_id user) s;
      create_items env order items_data
  end.

(** The value of a list of requested items at the stored prices. *)
Definition items_value (db : DB) (items_data : list ItemData) : Z :=
  sum_Z ((λ d, match service_prices db !! d_service_price_id d with
               | Some sp => price sp * d_quantity d
               | None => 0
               end) <$> items_data).

Definition prices_exist (db : DB) (items_data : list ItemData) : bool :=
  forallb (λ d, bool_decide (is_Some (service_prices db !! d_service_price_id d)))
          items_data.

(** The sequences hand out keys no row holds and no item refers to. *)
Definition order_key_fresh (db : DB) : Prop :=
  (∀ k o, orders db !! k = Some o → k ≠ next_order_id db) ∧
  (∀ r, r ∈ order_items db → item_order r ≠ next_order_id db).

Definition order_key_fresh_b (db : DB) : bool :=
  forallb (λ kv, negb (kv.1 =? next_order_id db)%nat) (map_to_list (orders db))
  && forallb (λ r, negb (item_order r =? next_order_id db)%nat) (order_items db).

(** *** Sequences of status updates

    A request names the order; the serializer works on the instance loaded
    from the table. *)

Record StatusRequest : Type := {
  sr_env : Env;
  sr_user : nat;
  sr_order : nat;
  sr_data : ValidatedData
}.

Definition apply_update (r : StatusRequest) (db : DB) : DB :=
  match orders db !! sr_order r with
  | Some instance => (update (sr_env r) (sr_user r) instance (sr_data r) db).2
  | None => db
  end.

Definition run_updates (rs : list StatusRequest) (db : DB) : DB :=
  fold_left (λ db r, apply_update r db) rs db.

(** The columns a status update has no business with. *)
Definition ledger_part (o : Order) : option nat * nat * nat * string * Z * Z :=
  (pk o, customer o, shop o, order_number o, subtotal o, total_amount o).

(** *** What item operations leave alone

    An order without its two totals: every column an item operation has no
    business with. *)
Definition header (o : Order) : Order := set_totals 0 0 o.

Definition headers_kept (db db' : DB) : Prop :=
  header <$> orders db' = header <$> orders db ∧
  next_order_id db' = next_order_id db ∧
  status_history db' = status_history db ∧
  service_prices db' = service_prices db.

(** Every stored item carries a unit price, and its total is that price
    times its quantity. *)
Definition items_priced (db : DB) : Prop :=
  ∀ r, r ∈ order_items db →
    ∃ u, unit_price r = Some u ∧ total_price r = u * quantity r.

Definition items_priced_b (db : DB) : bool :=
  forallb (λ r, match unit_price r with
                | Some u => total_price r =? u * quantity r
                | None => false
                end) (order_items db).

End Orders.

(** ** customers/models.py, customers/serializers.py, customers/views.py *)

Module Customers.

Record CustomerProfile : Type := {
  user : nat;
  loyalty_points : Z;
  membership_tier : string;
  total_spent : Z;
  total_orders : Z
}.

Record LoyaltyTransaction : Type := {
  lt_customer : nat;
  lt_type : string;
  points : Z;
  description : string
}.

(** [CustomerProfile] is one-to-one with the user, so the table is keyed by
    the user's id; the ledger is a list of rows, oldest first. *)
Record DB : Type := {
  profiles : gmap nat CustomerProfile;
  loyalty_transactions : list LoyaltyTransaction
}.

Definition set_loyalty_points (v : Z) (p : CustomerProfile) : CustomerProfile :=
  {| user := user p; loyalty_points := v;
     membership_tier := membership_tier p; total_spent := total_spent p;
     total_orders := total_orders p |}.

Definition set_membership_tier (v : string) (p : CustomerProfile)
    : CustomerProfile :=
  {| user := user p; loyalty_points := loyalty_points p;
     membership_tier := v; total_spent := total_spent p;
     total_orders := total_orders p |}.

(** [self.save(update_fields=[...])]: one column of the stored row is
    overwritten with the instance's value; Django raises when no row is
    affected. *)
Definition save_update_fields (column : CustomerProfile → CustomerProfile)
    (self : CustomerProfile) : M DB unit := λ db,
  match profiles db !! user self with
  | Some row =>
      (Ok tt, {| profiles := <[user self := column row]> (profiles db);
                 loyalty_transactions := loyalty_transactions db |})
  | None => (Raise DatabaseError, db)
  end.

Definition LoyaltyTransaction_objects_create (t : LoyaltyTransaction)
    : M DB unit :=
  modify (λ db, {| profiles := profiles db;
                   loyalty_transactions := loyalty_transactions db ++ [t] |}).

(** Thresholds are in currency units in the source; here in cents. *)
Definition update_membership_tier (self : CustomerProfile)
    : M DB CustomerProfile :=
  let tier :=
    if (100000 <=? total_spent self)%Z then "platinum"
    else if (50000 <=? total_spent self)%Z then "gold"
    else if (20000 <=? total_spent self)%Z then "silver"
    else "bronze" in
  let self := set_membership_tier tier self in
  _ ← save_update_fields (set_membership_tier (membership_tier self)) self;
  mret self.

Definition add_loyalty_points (self : CustomerProfile) (pts : Z)
    (descr : string) : M DB CustomerProfile :=
  let self := set_loyalty_points (loyalty_points self + pts) self in
  _ ← save_update_fields (set_loyalty_points (loyalty_points self)) self;
  _ ← LoyaltyTransaction_objects_create
        {| lt_customer := user self; lt_type := "earned"; points := pts;
           description := descr |};
  mret self.

Definition redeem_loyalty_points (self : CustomerProfile) (pts : Z)
    (descr : string) : M DB (bool * CustomerProfile) :=
  if (pts <=? loyalty_points self)%Z then
    let self := set_loyalty_points (loyalty_points self - pts) self in
    _ ← save_update_fields (set_loyalty_points (loyalty_points self)) self;
    _ ← LoyaltyTransaction_objects_create
          {| lt_customer := user self; lt_type := "redeemed"; points := - pts;
             description := descr |};
    mret (true, self)
  else mret (false, self).

(** *** The redemption endpoint *)

Inductive Response : Type :=
| HTTP_200_OK (remaining_points : Z)
| HTTP_400_BAD_REQUEST (error : string)
| HTTP_404_NOT_FOUND
| HTTP_500 (e : exn).

(** [LoyaltyRedemptionSerializer]: [points] is an integer of at least 1;
    [validate_points] refuses more points than the profile holds (and
    accepts when the user has no profile). The checks on the description
    text are not modelled. *)
Definition LoyaltyRedemptionSerializer_is_valid (uid : nat) (pts : Z)
    (db : DB) : bool :=
  (1 <=? pts)%Z &&
  match profiles db !! uid with
  | Some profile => negb (loyalty_points profile <? pts)%Z
  | None => true
  end.

Definition redeem_view (uid : nat) (pts : Z) (descr : string) (db : DB)
    : Response * DB :=
  if LoyaltyRedemptionSerializer_is_valid uid pts db then
    match profiles db !! uid with
    | None => (HTTP_404_NOT_FOUND, db)
    | Some profile =>
        match redeem_loyalty_points profile pts descr db with
        | (Ok (true, profile), db') =>
            (HTTP_200_OK (loyalty_points profile), db')
        | (Ok (false, _), db') =>
            (HTTP_400_BAD_REQUEST "Insufficient points", db')
        | (Raise e, db') => (HTTP_500 e, db')
        end
    end
  else (HTTP_400_BAD_REQUEST "serializer.errors", db).

(** *** Sequences of ledger calls

    Each call is made on the profile as it is loaded from the table. *)

Inductive LedgerOp : Type :=
| Earn (uid : nat) (pts : Z) (descr : string)
| Redeem (uid : nat) (pts : Z) (descr : string).

Definition step (op : LedgerOp) (db : DB) : DB :=
  match op with
  | Earn uid pts descr =>
      match profiles db !! uid with
      | Some profile => (add_loyalty_points profile pts descr db).2
      | None => db
      end
  | Redeem uid pts descr =>
      match profiles db !! uid with
      | Some profile => (redeem_loyalty_points profile pts descr db).2
      | None => db
      end
  end.

Definition run (ops : list LedgerOp) (db : DB) : DB :=
  fold_left (λ db op, step op db) ops db.

(** A redeem call with a positive amount. *)
Definition is_redeem (op : LedgerOp) : bool :=
  match op with Redeem _ pts _ => (0 <? pts)%Z | Earn _ _ _ => false end.

Definition earned (uid : nat) (pts : Z) (descr : string) : LoyaltyTransaction :=
  {| lt_customer := uid; lt_type := "earned"; points := pts;
     description := descr |}.

Definition redeemed (uid : nat) (pts : Z) (descr : string) : LoyaltyTransaction :=
  {| lt_customer := uid; lt_type := "redeemed"; points := - pts;
     description := descr |}.

(** The sum of the signed points of a customer's ledger rows. *)
Definition ledger_sum (uid : nat) (db : DB) : Z :=
  sum_Z (points <$>
           filter (λ t, lt_customer t = uid) (loyalty_transactions db)).

Definition ledger_consistent (db : DB) : Prop :=
  ∀ uid p, profiles db !! uid = Some p → loyalty_points p = ledger_sum uid db.

(** The one-to-one column agrees with the key of the row. *)
Definition profiles_wf (db : DB) : Prop :=
  ∀ uid p, profiles db !! uid = Some p → user p = uid.

Definition balances_nonneg (db : DB) : Prop :=
  ∀ uid p, profiles db !! uid = Some p → 0 ≤ loyalty_points p.

(** Executable forms, to check a concrete database. *)

Definition profiles_wf_b (db : DB) : bool :=
  forallb (λ kv, bool_decide (user kv.2 = kv.1)) (map_to_list (profiles db)).

Definition ledger_consistent_b (db : DB) : bool :=
  forallb (λ kv, loyalty_points kv.2 =? ledger_sum kv.1 db)
          (map_to_list (profiles db)).

Definition balances_nonneg_b (db : DB) : bool :=
  forallb (λ kv, 0 <=? loyalty_points kv.2) (map_to_list (profiles db)).


(** A profile without its balance: every column a ledger call has no
    business with. *)
Definition profile_rest (p : CustomerProfile) : CustomerProfile :=
  set_loyalty_points 0 p.

(** The place of a tier in [TIER_CHOICES]. *)
Definition tier_rank (tier : string) : nat :=
  if String.eqb tier "platinum" then 3
  else if String.eqb tier "gold" then 2
  else if String.eqb tier "silver" then 1
  else 0.

(** *** CustomerAddress.save *)

Record CustomerAddress : Type := {
  a_pk : option nat;
  a_customer : nat;
  label : string;
  is_default : bool;
  is_active : bool
}.

Record AddressDB : Type := {
  addresses : gmap nat CustomerAddress;
  next_address_id : nat
}.

Definition set_a_pk (k : option nat) (a : CustomerAddress) : CustomerAddress :=
  {| a_pk := k; a_customer := a_customer a; label := label a;
     is_default := is_default a; is_active := is_active a |}.

Definition set_is_default (v : bool) (a : CustomerAddress) : CustomerAddress :=
  {| a_pk := a_pk a; a_customer := a_customer a; label := label a;
     is_default := v; is_active := is_active a |}.

Definition set_is_active (v : bool) (a : CustomerAddress) : CustomerAddress :=
  {| a_pk := a_pk a; a_customer := a_customer a; label := label a;
     is_default := is_default a; is_active := v |}.

(** [CustomerAddress.objects.filter(customer=self.customer,
    is_default=True).exclude(pk=self.pk).update(is_default=False)]; with
    [self.pk] being [None] the exclusion removes no row. *)
Definition clear_other_defaults (self : CustomerAddress)
    (tbl : gmap nat CustomerAddress) : gmap nat CustomerAddress :=
  map_imap (λ k row,
    Some (if bool_decide (a_customer row = a_customer self)
             && is_default row
             && negb (bool_decide (a_pk self = Some k))
          then set_is_default false row else row)) tbl.

(** [unique_together = ['customer', 'label']] *)
Definition label_taken (self : CustomerAddress)
    (tbl : gmap nat CustomerAddress) : bool :=
  existsb (λ kv, negb (bool_decide (a_pk self = Some kv.1))
                 && bool_decide (a_customer kv.2 = a_customer self)
                 && String.eqb (label kv.2) (label self))
          (map_to_list tbl).

Definition Address_model_save (self : CustomerAddress)
    : M AddressDB CustomerAddress := λ db,
  if label_taken self (addresses db) then (Raise IntegrityError, db)
  else match a_pk self with
       | None =>
           let k := next_address_id db in
           let self := set_a_pk (Some k) self in
           (Ok self, {| addresses := <[k := self]> (addresses db);
                        next_address_id := S k |})
       | Some k =>
           (Ok self, {| addresses := <[k := self]> (addresses db);
                        next_address_id := next_address_id db |})
       end.

Definition CustomerAddress_save (self : CustomerAddress)
    : M AddressDB CustomerAddress :=
  _ ← (if is_default self
       then modify (λ db,
              {| addresses := clear_other_defaults self (addresses db);
                 next_address_id := next_address_id db |})
       else mret tt);
  Address_model_save self.

(** [CustomerAddressDetailView.perform_destroy]: a soft delete. *)
Definition perform_destroy (instance : CustomerAddress)
    : M AddressDB CustomerAddress :=
  CustomerAddress_save (set_is_active false instance).

(** At most one default address per customer. *)
Definition one_default (db : AddressDB) : Prop :=
  ∀ k1 k2 a1 a2,
    addresses db !! k1 = Some a1 → addresses db !! k2 = Some a2 →
    a_customer a1 = a_customer a2 →
    is_default a1 = true → is_default a2 = true → k1 = k2.

Definition one_default_b (db : AddressDB) : bool :=
  forallb (λ kv1,
    forallb (λ kv2,
      negb (bool_decide (a_customer kv1.2 = a_customer kv2.2)
            && is_default kv1.2 && is_default kv2.2)
      || bool_decide (kv1.1 = kv2.1))
      (map_to_list (addresses db)))
    (map_to_list (addresses db)).

End Customers.

(** ** notifications/models.py, notifications/services.py *)

Module Notifications.

(** [context_data], a flat dictionary. *)
Definition Context : Type := list (string * string).

Record NotificationTemplate : Type := {
  name : string;
  type : string;
  title_template : string;
  message_template : string;
  priority : string;
  is_active : bool
}.

Record NotificationPreference : Type := {
  order_notifications : bool;
  loyalty_notifications : bool;
  promotion_notifications : bool;
  reminder_notifications : bool;
  system_notifications : bool;
  daily_digest : bool;
  immediate_notifications : bool
}.

Record Notification : Type := {
  n_id : nat;
  recipient : nat;
  title : string;
  message : string;
  n_priority : string;
  status : string;
  order : option nat;
  shop : option nat;
  template : option string;
  data : Context;
  expires_at : option Z
}.

Record NotificationBatch : Type := {
  b_id : nat;
  b_template : string;
  b_title : string;
  b_message : string;
  target_users : list nat;
  target_shop : option nat;
  is_sent : bool;
  sent_count : Z;
  failed_count : Z;
  created_by : nat;
  sent_at : option Z
}.

(** Templates are keyed by their unique name, preferences by the user they
    belong to, batches by primary key. *)
Record DB : Type := {
  templates : gmap string NotificationTemplate;
  preferences : gmap nat NotificationPreference;
  notifications : list Notification;
  next_notification_id : nat;
  batches : gmap nat NotificationBatch;
  next_batch_id : nat
}.

Definition set_preferences (tbl : gmap nat NotificationPreference) (db : DB)
    : DB :=
  {| templates := templates db; preferences := tbl;
     notifications := notifications db;
     next_notification_id := next_notification_id db;
     batches := batches db; next_batch_id := next_batch_id db |}.

Definition set_notifications (rows : list Notification) (next : nat) (db : DB)
    : DB :=
  {| templates := templates db; preferences := preferences db;
     notifications := rows; next_notification_id := next;
     batches := batches db; next_batch_id := next_batch_id db |}.

Definition set_batches (tbl : gmap nat NotificationBatch) (next : nat)
    (db : DB) : DB :=
  {| templates := templates db; preferences := preferences db;
     notifications := notifications db;
     next_notification_id := next_notification_id db;
     batches := tbl; next_batch_id := next |}.

(** The [defaults] of [get_or_create] in [get_user_preferences]. *)
Definition default_preferences : NotificationPreference :=
  {| order_notifications := true; loyalty_notifications := true;
     promotion_notifications := true; reminder_notifications := true;
     system_notifications := true; daily_digest := false;
     immediate_notifications := true |}.

(** [type_mapping.get(notification_type, True)] *)
Definition _should_send_notification (prefs : NotificationPreference)
    (notification_type : string) : bool :=
  if String.eqb notification_type "order_status" then order_notifications prefs
  else if String.eqb notification_type "loyalty_points"
  then loyalty_notifications prefs
  else if String.eqb notification_type "promotion"
  then promotion_notifications prefs
  else if String.eqb notification_type "reminder"
  then reminder_notifications prefs
  else if String.eqb notification_type "system" then system_notifications prefs
  else if String.eqb notification_type "welcome" then true
  else true.

(** [try: body except Exception as e: handler(e)] *)
Definition try_except {A} (body : M DB A) (handler : exn → M DB A) : M DB A :=
  λ db, match body db with
        | (Ok a, db') => (Ok a, db')
        | (Raise e, db') => handler e db'
        end.

Section Service.

(** Django's [strip_tags] and template engine are taken as they are. *)
Variable strip_tags : string → string.
Variable render : string → Context → string.

(** Whether the storage layer raises on a preference lookup for a user, and
    on the INSERT of a notification row (a value the column cannot take, a
    broken reference, the connection): [None] when it does not. *)
Variable lookup_raises : nat → option exn.
Variable insert_raises : Notification → option exn.

Definition get_user_preferences (user : nat) : M DB NotificationPreference :=
  λ db,
  match lookup_raises user with
  | Some e => (Raise e, db)
  | None =>
      match preferences db !! user with
      | Some prefs => (Ok prefs, db)
      | None =>
          (Ok default_preferences,
           set_preferences (<[user := default_preferences]> (preferences db)) db)
      end
  end.

Definition Notification_objects_create (row : Notification)
    : M DB Notification := λ db,
  let row :=
    {| n_id := next_notification_id db; recipient := recipient row;
       title := title row; message := message row;
       n_priority := n_priority row; status := status row;
       order := order row; shop := shop row; template := template row;
       data := data row; expires_at := expires_at row |} in
  match insert_raises row with
  | Some e => (Raise e, db)
  | None =>
      (Ok row,
       set_notifications (notifications db ++ [row])
         (S (next_notification_id db)) db)
  end.

(** The [try] block of [create_notification]. *)
Definition create_notification_body (recipient_ : nat) (title_ message_ : string)
    (priority_ : string) (order_ shop_ : option nat)
    (template_ : option NotificationTemplate) (data_ : option Context)
    (expires_at_ : option Z) : M DB (option Notification) :=
  prefs ← get_user_preferences recipient_;
  if match template_ with
     | Some t => negb (_should_send_notification prefs (type t))
     | None => false
     end
  then mret None
  else
    notification ← Notification_objects_create
      {| n_id := 0%nat; recipient := recipient_;
         title := substring 0 200 (strip_tags title_);
         message := strip_tags message_;
         n_priority := priority_; status := "unread";
         order := order_; shop := shop_;
         template := name <$> template_;
         data := default [] data_; expires_at := expires_at_ |};
    mret (Some notification).

Definition create_notification (recipient_ : nat) (title_ message_ : string)
    (priority_ : string) (order_ shop_ : option nat)
    (template_ : option NotificationTemplate) (data_ : option Context)
    (expires_at_ : option Z) : M DB (option Notification) :=
  try_except
    (create_notification_body recipient_ title_ message_ priority_ order_
       shop_ template_ data_ expires_at_)
    (λ e, mret None).

(** [NotificationTemplate.objects.get(name=template_name, is_active=True)] *)
Definition get_active_template (template_name : string) (db : DB)
    : option NotificationTemplate :=
  t ← templates db !! template_name;
  if is_active t then Some t else None.

Definition create_from_template (template_name : string) (recipient_ : nat)
    (context_data : Context) (order_ shop_ : option nat)
    (expires_at_ : option Z) : M DB (option Notification) :=
  db ← get;
  match get_active_template template_name db with
  | None => mret None
  | Some t =>
      let rendered_title := render (title_template t) context_data in
      let rendered_message := render (message_template t) context_data in
      create_notification recipient_ rendered_title rendered_message
        (priority t) order_ shop_ (Some t) (Some context_data) expires_at_
  end.

(** The [for recipient in recipients] loop of
    [create_batch_notifications], with its two counters. *)
Fixpoint send_to (t : NotificationTemplate)
    (rendered_title rendered_message : string) (shop_ : option nat)
    (context_data : Context) (recipients : list nat)
    (sent failed : Z) : M DB (Z * Z) :=
  match recipients with
  | [] => mret (sent, failed)
  | r :: rest =>
      notification ← create_notification r rendered_title rendered_message
                       (priority t) None shop_ (Some t) (Some context_data)
                       None;
      match notification with
      | Some _ =>
          send_to t rendered_title rendered_message shop_ context_data rest
            (sent + 1) failed
      | None =>
          send_to t rendered_title rendered_message shop_ context_data rest
            sent (failed + 1)
      end
  end.

Definition NotificationBatch_save (batch : NotificationBatch) : M DB unit :=
  modify (λ db, set_batches (<[b_id batch := batch]> (batches db))
                  (next_batch_id db) db).

Definition NotificationBatch_objects_create (t : NotificationTemplate)
    (title_ message_ : string) (shop_ : option nat) (creator : nat)
    : M DB NotificationBatch := λ db,
  let batch :=
    {| b_id := next_batch_id db; b_template := name t; b_title := title_;
       b_message := message_; target_users := []; target_shop := shop_;
       is_sent := false; sent_count := 0; failed_count := 0;
       created_by := creator; sent_at := None |} in
  (Ok batch,
   set_batches (<[b_id batch := batch]> (batches db)) (S (next_batch_id db)) db).

Definition set_target_users (users : list nat) (b : NotificationBatch)
    : NotificationBatch :=
  {| b_id := b_id b; b_template := b_template b; b_title := b_title b;
     b_message := b_message b; target_users := users;
     target_shop := target_shop b; is_sent := is_sent b;
     sent_count := sent_count b; failed_count := failed_count b;
     created_by := created_by b; sent_at := sent_at b |}.

Definition mark_sent (sent failed : Z) (at_ : Z) (b : NotificationBatch)
    : NotificationBatch :=
  {| b_id := b_id b; b_template := b_template b; b_title := b_title b;
     b_message := b_message b; target_users := target_users b;
     target_shop := target_shop b; is_sent := true;
     sent_count := sent; failed_count := failed;
     created_by := created_by b; sent_at := Some at_ |}.

(** [now] is the reading of [timezone.now()] when the batch is stamped.
    The function returns [None] when the template is missing. *)
Definition create_batch_notifications (now : Z) (template_name : string)
    (recipients : list nat) (context_data : Context) (creator : nat)
    (shop_ : option nat) : M DB (option NotificationBatch) :=
  db ← get;
  match get_active_template template_name db with
  | None => mret None
  | Some t =>
      let rendered_title := render (title_template t) context_data in
      let rendered_message := render (message_template t) context_data in
      batch ← NotificationBatch_objects_create t rendered_title
                rendered_message shop_ creator;
      let batch := set_target_users recipients batch in
      _ ← NotificationBatch_save batch;
      '(sent, failed) ← send_to t rendered_title rendered_message shop_
                          context_data recipients 0 0;
      let batch := mark_sent sent failed now batch in
      _ ← NotificationBatch_save batch;
      mret (Some batch)
  end.

(** The value [create_notification] hands back for each recipient of the
    loop, in order. *)
Fixpoint returns_of (t : NotificationTemplate)
    (rendered_title rendered_message : string) (shop_ : option nat)
    (context_data : Context) (recipients : list nat) (db : DB)
    : list (option Notification) :=
  match recipients with
  | [] => []
  | r :: rest =>
      match create_notification r rendered_title rendered_message
              (priority t) None shop_ (Some t) (Some context_data) None db with
      | (Ok n, db') =>
          n :: returns_of t rendered_title rendered_message shop_
                 context_data rest db'
      | (Raise _, _) => []
      end
  end.

End Service.

(** A storage layer that does not fail. *)
Definition never_raises {A} : A → option exn := λ _, None.

(** The row [create_batch_notifications] asks for, for each recipient. *)
Definition batch_row (strip_tags : string → string) (t : NotificationTemplate)
    (ti me : string) (sh : option nat) (ctx : Context) (n : Notification)
    : Prop :=
  title n = substring 0 200 (strip_tags ti) ∧ message n = strip_tags me ∧
  n_priority n = priority t ∧ status n = "unread" ∧ order n = None ∧
  shop n = sh ∧ template n = Some (name t) ∧ data n = ctx ∧
  expires_at n = None.

(** Whether the preferences a user has stored, or the defaults
    [get_or_create] would store, let a template's type through. *)
Definition lets_through (t : NotificationTemplate) (db : DB) (user : nat)
    : bool :=
  _should_send_notification
    (default default_preferences (preferences db !! user)) (type t).

Definition count_none (l : list (option Notification)) : Z :=
  Z.of_nat (length (filter (λ n, n = None) l)).

Definition count_some (l : list (option Notification)) : Z :=
  Z.of_nat (length (filter (λ n, n ≠ None) l)).

End Notifications.

(** ** The inbox: notifications/models.py, services.py, views.py *)

Module Inbox.
Import Notifications.

(** A stored notification with its two time columns; times are in
    microseconds. *)
Record Row : Type := {
  base : Notification;
  created_at : Z;
  read_at : option Z
}.

Definition set_status (s : string) (n : Notification) : Notification :=
  {| n_id := n_id n; recipient := recipient n; title := title n;
     message := message n; n_priority := n_priority n; status := s;
     order := order n; shop := shop n; template := template n;
     data := data n; expires_at := expires_at n |}.

Definition with_status (s : string) (r : Row) : Row :=
  {| base := set_status s (base r); created_at := created_at r;
     read_at := read_at r |}.

Definition with_read (s : string) (at_ : Z) (r : Row) : Row :=
  {| base := set_status s (base r); created_at := created_at r;
     read_at := Some at_ |}.

Definition row_id (r : Row) : nat := n_id (base r).

(** [Q(expires_at__isnull=True) | Q(expires_at__gt=now)] *)
Definition not_expired (now : Z) (r : Row) : bool :=
  match expires_at (base r) with
  | None => true
  | Some t => (now <? t)%Z
  end.

(** [user.notifications.filter(status='unread')] *)
Definition unread_of (user : nat) (r : Row) : bool :=
  bool_decide (recipient (base r) = user)
  && String.eqb (status (base r)) "unread".

Definition get_unread_count (now : Z) (user : nat) (tbl : list Row) : nat :=
  length (filter (λ r, unread_of user r && not_expired now r = true) tbl).

(** The UPDATE returns the number of rows it matched. *)
Definition mark_all_as_read (now : Z) (user : nat) (tbl : list Row)
    : nat * list Row :=
  (length (filter (λ r, unread_of user r = true) tbl),
   (λ r, if unread_of user r then with_read "read" now r else r) <$> tbl).

Definition timedelta_days (d : Z) : Z := d * 86400000000.

(** [expired_filter | old_filter]; [now0] is the reading of
    [timezone.now()] for the cutoff, [now] the one for the expiry. *)
Definition to_clean (now0 now days_old : Z) (r : Row) : bool :=
  match expires_at (base r) with
  | Some t => (t <? now)%Z
  | None => false
  end
  || ((created_at r <? now0 - timedelta_days days_old)%Z
      && str_in (status (base r)) ["read"; "archived"]).

Definition cleanup_expired_notifications (now0 now days_old : Z)
    (tbl : list Row) : nat * list Row :=
  (length (filter (λ r, to_clean now0 now days_old r = true) tbl),
   filter (λ r, to_clean now0 now days_old r = false) tbl).

(** [self.save(update_fields=[...])]: the listed columns of the row with
    the instance's key take the instance's values; Django raises when no
    row is affected. *)
Definition save_update_fields (column : Row → Row → Row) (self : Row)
    : M (list Row) unit := λ tbl,
  if existsb (λ r, (row_id r =? row_id self)%nat) tbl
  then (Ok tt,
        (λ r, if (row_id r =? row_id self)%nat then column self r else r)
          <$> tbl)
  else (Raise DatabaseError, tbl).

Definition mark_as_read (now : Z) (self : Row) : M (list Row) Row :=
  if String.eqb (status (base self)) "unread" then
    let self := with_read "read" now self in
    _ ← save_update_fields
          (λ self r, {| base := set_status (status (base self)) (base r);
                        created_at := created_at r;
                        read_at := read_at self |}) self;
    mret self
  else mret self.

Definition mark_as_archived (self : Row) : M (list Row) Row :=
  let self := with_status "archived" self in
  _ ← save_update_fields (λ self r, with_status (status (base self)) r) self;
  mret self.

Inductive Response : Type :=
| HTTP_200_OK
| HTTP_400_BAD_REQUEST
| HTTP_404_NOT_FOUND
| HTTP_500 (e : exn).

(** [NotificationUpdateView]: [get_object] in the user's notifications,
    [validate_status], then [perform_update], which loads the object and
    calls one of the two model methods; the serializer is never saved. A
    PATCH may leave [status] out. *)
Definition NotificationUpdateView_patch (now : Z) (user pk : nat)
    (new_status : option string) (tbl : list Row) : Response * list Row :=
  match find (λ r, (row_id r =? pk)%nat
                   && bool_decide (recipient (base r) = user)) tbl with
  | None => (HTTP_404_NOT_FOUND, tbl)
  | Some notification =>
      match new_status with
      | Some s =>
          if negb (str_in s ["read"; "archived"])
          then (HTTP_400_BAD_REQUEST, tbl)
          else
            match (if String.eqb s "read" then mark_as_read now notification
                   else if String.eqb s "archived"
                   then mark_as_archived notification
                   else mret notification) tbl with
            | (Ok _, tbl') => (HTTP_200_OK, tbl')
            | (Raise e, tbl') => (HTTP_500 e, tbl')
            end
      | None => (HTTP_200_OK, tbl)
      end
  end.

(** *** Sequences of inbox requests *)

Inductive InboxOp : Type :=
| PatchStatus (now : Z) (user pk : nat) (new_status : option string)
| MarkAllRead (now : Z) (user : nat)
| Cleanup (now0 now days_old : Z).

Definition step (op : InboxOp) (tbl : list Row) : list Row :=
  match op with
  | PatchStatus now user pk s => (NotificationUpdateView_patch now user pk s tbl).2
  | MarkAllRead now user => (mark_all_as_read now user tbl).2
  | Cleanup now0 now days_old =>
      (cleanup_expired_notifications now0 now days_old tbl).2
  end.

Definition run (ops : list InboxOp) (tbl : list Row) : list Row :=
  fold_left (λ tbl op, step op tbl) ops tbl.

(** What a request may make of a stored row: the same notification with
    another status; the creation time is kept, and a row that is no
    longer unread stays so and keeps its [read_at]. *)
Definition evolves (r r' : Row) : Prop :=
  base r' = set_status (status (base r')) (base r) ∧
  created_at r' = created_at r ∧
  (status (base r) ≠ "unread" →
   status (base r') ≠ "unread" ∧ read_at r' = read_at r).

End Inbox.

(** ** The status endpoint over both applications

    [OrderStatusUpdateView] runs inside a process that holds the order
    tables and the customer tables; the world pairs them so that the effect
    of a status change on the loyalty side can be stated. *)

Module Api.

Record World : Type := {
  orders_db : Orders.DB;
  customers_db : Customers.DB
}.

Inductive Response : Type :=
| HTTP_200_OK (order : Orders.Order)
| HTTP_400_BAD_REQUEST
| HTTP_404_NOT_FOUND
| HTTP_500 (e : exn).

(** [OrderStatusUpdateView.get_queryset] followed by [get_object]. *)
Definition get_object (user : Orders.User) (order_id : nat) (db : Orders.DB)
    : option Orders.Order :=
  o ← Orders.orders db !! order_id;
  match String.eqb (Orders.role user) "shop_owner", Orders.user_shop user,
        String.eqb (Orders.role user) "staff", Orders.staff_shop user with
  | true, Some s, _, _ =>
      if bool_decide (Orders.shop o = s) then Some o else None
  | _, _, true, Some s =>
      if bool_decide (Orders.shop o = s) then Some o else None
  | _, _, _, _ => None
  end.

(** The [status] field of the model serializer is a choice field. *)
Definition OrderStatusUpdateSerializer_is_valid (vd : Orders.ValidatedData)
    : bool :=
  match Orders.vd_status vd with
  | Some s => str_in s Orders.STATUS_CHOICES
  | None => true
  end.

Definition OrderStatusUpdateView (env : Orders.Env) (user : Orders.User)
    (order_id : nat) (vd : Orders.ValidatedData) (w : World)
    : Response * World :=
  match get_object user order_id (orders_db w) with
  | None => (HTTP_404_NOT_FOUND, w)
  | Some instance =>
      if OrderStatusUpdateSerializer_is_valid vd then
        match Orders.update env (Orders.user_id user) instance vd
                (orders_db w) with
        | (Ok o, db') =>
            (HTTP_200_OK o,
             {| orders_db := db'; customers_db := customers_db w |})
        | (Raise e, db') =>
            (HTTP_500 e,
             {| orders_db := db'; customers_db := customers_db w |})
        end
      else (HTTP_400_BAD_REQUEST, w)
  end.

(** The loyalty balance of a customer, as the profile table has it. *)
Definition balance_of (uid : nat) (w : World) : option Z :=
  Customers.loyalty_points <$> Customers.profiles (customers_db w) !! uid.

End Api.

(** ** core/permissions.py and the order endpoints behind it *)

Module Access.
Import Orders.

(** The request user as the permission classes see it: the account, the
    two Django flags, and the switches of its staff profile (read only
    when [hasattr(user, 'staff_profile')]). *)
Record Principal : Type := {
  account : User;
  is_authenticated : bool;
  is_staff : bool;
  staff_active : bool;
  can_take_orders : bool;
  can_update_orders : bool;
  can_register_customers : bool
}.

Definition owns_shop (p : Principal) : bool :=
  String.eqb (role (account p)) "shop_owner"
  && bool_decide (is_Some (user_shop (account p))).

Definition has_staff_profile (p : Principal) : bool :=
  String.eqb (role (account p)) "staff"
  && bool_decide (is_Some (staff_shop (account p))).

Definition IsShopOwner (p : Principal) : bool :=
  is_authenticated p && owns_shop p.

Definition IsShopOwnerOrCustomer (p : Principal) : bool :=
  is_authenticated p.

(** [IsShopOwnerOrCustomer.has_object_permission] on an order. *)
Definition IsShopOwnerOrCustomer_object (u : User) (obj : Order) : bool :=
  match String.eqb (role u) "shop_owner", user_shop u,
        String.eqb (role u) "staff", staff_shop u with
  | true, Some s, _, _ => bool_decide (shop obj = s)
  | _, _, true, Some s => bool_decide (shop obj = s)
  | _, _, _, _ => bool_decide (customer obj = user_id u)
  end.

Definition IsStaffOrOwner (p : Principal) : bool :=
  is_authenticated p
  && (is_staff p
      || str_in (role (account p)) ["admin"; "shop_owner"]
      || has_staff_profile p).

Definition IsAdminUser (p : Principal) : bool :=
  is_authenticated p && (is_staff p || String.eqb (role (account p)) "admin").

Definition IsShopOwnerOrStaff (p : Principal) : bool :=
  is_authenticated p && (owns_shop p || (has_staff_profile p && staff_active p)).

Definition CanTakeOrders (p : Principal) : bool :=
  if negb (is_authenticated p) then false
  else if owns_shop p then true
  else if has_staff_profile p && staff_active p && can_take_orders p then true
  else false.

Definition CanUpdateOrders (p : Principal) : bool :=
  if negb (is_authenticated p) then false
  else if owns_shop p then true
  else if has_staff_profile p && staff_active p && can_update_orders p then true
  else false.

Definition CanRegisterCustomers (p : Principal) : bool :=
  if negb (is_authenticated p) then false
  else if owns_shop p then true
  else if has_staff_profile p && staff_active p && can_register_customers p
  then true
  else false.

(** A view behind [permission_classes]: refused, or the view's answer. *)
Inductive Guarded (R : Type) : Type :=
| Denied
| Allowed (r : R).

Arguments Denied {R}.
Arguments Allowed {R} r.

(** *** The querysets of orders/views.py

    The rows a queryset selects, as a sub-table; their order
    ([-created_at]) is not modelled. *)

(** [get_queryset] of [OrderListCreateView] and [OrderDetailView]. *)
Definition visible_orders (u : User) (db : DB) : gmap nat Order :=
  match String.eqb (role u) "shop_owner", user_shop u,
        String.eqb (role u) "staff", staff_shop u with
  | true, Some s, _, _ => filter (λ kv, shop kv.2 = s) (orders db)
  | _, _, true, Some s => filter (λ kv, shop kv.2 = s) (orders db)
  | _, _, _, _ => filter (λ kv, customer kv.2 = user_id u) (orders db)
  end.

(** [customer_order_history] *)
Definition customer_order_history (u : User) (db : DB) : gmap nat Order :=
  filter (λ kv, customer kv.2 = user_id u) (orders db).

Inductive ListResponse : Type :=
| Listed (rows : gmap nat Order)
| List_400_BAD_REQUEST
| List_403_FORBIDDEN.

Definition valid_statuses : list string :=
  ["received"; "in_progress"; "ready_for_pickup"; "completed"; "cancelled"].

(** The body of [shop_orders_by_status]. *)
Definition shop_orders_by_status_body (u : User) (status_filter : string)
    (db : DB) : ListResponse :=
  match match String.eqb (role u) "shop_owner", user_shop u,
              String.eqb (role u) "staff", staff_shop u with
        | true, Some s, _, _ => Some s
        | _, _, true, Some s => Some s
        | _, _, _, _ => None
        end with
  | None => List_403_FORBIDDEN
  | Some s =>
      if negb (str_in status_filter valid_statuses) then List_400_BAD_REQUEST
      else Listed (filter (λ kv, shop kv.2 = s ∧ status kv.2 = status_filter)
                     (orders db))
  end.

Definition shop_orders_by_status (p : Principal) (status_filter : string)
    (db : DB) : Guarded ListResponse :=
  if IsShopOwnerOrStaff p
  then Allowed (shop_orders_by_status_body (account p) status_filter db)
  else Denied.

(** *** POST /orders/ *)

Inductive CreateResponse : Type :=
| Create_201_CREATED (order : Order)
| Create_400_BAD_REQUEST
| Create_500 (e : exn).

(** The nested [OrderItemSerializer] validates every entry; the other
    fields of the request (pickup type, customer name, address) are not
    modelled. *)
Definition OrderCreateSerializer_is_valid (u : User)
    (items_data : list ItemData) (db : DB) : bool :=
  forallb (λ d, OrderItemSerializer_is_valid u d db) items_data.

Definition OrderListCreateView_post (env : Env) (p : Principal)
    (items_data : list ItemData) (db : DB) : Guarded CreateResponse * DB :=
  if CanTakeOrders p then
    if OrderCreateSerializer_is_valid (account p) items_data db then
      match OrderCreateSerializer_create env (account p) items_data db with
      | (Ok order, db') => (Allowed (Create_201_CREATED order), db')
      | (Raise e, db') => (Allowed (Create_500 e), db')
      end
    else (Allowed Create_400_BAD_REQUEST, db)
  else (Denied, db).

(** *** PATCH /orders/{id}/status/ *)

Definition OrderStatusUpdateView_patch (env : Env) (p : Principal)
    (order_id : nat) (vd : ValidatedData) (w : Api.World)
    : Guarded Api.Response * Api.World :=
  if CanUpdateOrders p
  then let '(r, w') := Api.OrderStatusUpdateView env (account p) order_id vd w in
       (Allowed r, w')
  else (Denied, w).

End Access.

(** ** Concrete data

    The databases and requests the examples below are evaluated on. *)

Module Examples.
Import Orders.

Definition env0 : Env :=
  {| time_us := 1234567890123456; randint := 42; now := 1700000000 |}.

(** Ten thousand seconds later, the same random draw. *)
Definition env1 : Env :=
  {| time_us := 1234567890123456 + 10000000000; randint := 42;
     now := 1700010000 |}.

(** Shop 7 prices two services at 15.99 and 25.50. *)
Definition priced_db : DB :=
  set_service_prices
    (<[1%nat := {| sp_shop := 7; price := 1599 |}]>
       (<[2%nat := {| sp_shop := 7; price := 2550 |}]> ∅))
    empty_db.

(** Customer 3 places an order with shop 7: order 1, [pending]. *)
Definition shop_db : DB := (Order_objects_create env0 3 7 priced_db).2.

Definition customer3 : User :=
  {| user_id := 3; role := "customer"; user_shop := None; staff_shop := None |}.

Definition owner7 : User :=
  {| user_id := 9; role := "shop_owner"; user_shop := Some 7%nat;
     staff_shop := None |}.

Definition two_shirts : ItemData :=
  {| d_service_price_id := 1; d_quantity := 2; d_notes := "" |}.

(** Two items at 15.99, one at 25.50, then the first item is removed. *)
Definition item_ops : list (Env * ItemOp) :=
  [(env0, AddItem 1 1 2 None ""); (env0, AddItem 1 2 1 None "");
   (env0, RemoveItem 1 1)].

(** The same shop, had it stored a price of 0.00 past its validator. *)
Definition zero_priced_db : DB :=
  set_service_prices {[1%nat := {| sp_shop := 7; price := 0 |}]} shop_db.

Definition to_completed : ValidatedData :=
  {| vd_status := Some "completed"; vd_notes := None;
     vd_estimated_completion := None |}.

(** The stored order 1 of [shop_db]. *)
Definition pending_order : Order :=
  {| pk := Some 1%nat; customer := 3; shop := 7;
     order_number := "7789012345642"; status := "pending";
     estimated_completion := None; confirmed_at := None;
     completed_at := None; subtotal := 0; total_amount := 0 |}.

(** An order of 100.00 that is being worked on, and its customer's
    profile with no points yet. *)
Definition in_progress_order : Order :=
  {| pk := Some 1%nat; customer := 3; shop := 7;
     order_number := "7789012345642"; status := "in_progress";
     estimated_completion := None; confirmed_at := Some 1699990000;
     completed_at := None; subtotal := 10000; total_amount := 10000 |}.

Definition profile3 : Customers.CustomerProfile :=
  {| Customers.user := 3; Customers.loyalty_points := 0;
     Customers.membership_tier := "bronze"; Customers.total_spent := 0;
     Customers.total_orders := 0 |}.

Definition world0 : Api.World :=
  {| Api.orders_db :=
       set_order_items
         [{| item_pk := Some 1%nat; item_order := 1; service_price := 1;
             quantity := 1; unit_price := Some 10000; total_price := 10000;
             notes := "" |}] 2
         (set_orders {[1%nat := in_progress_order]} 2 priced_db);
     Api.customers_db :=
       {| Customers.profiles := {[3%nat := profile3]};
          Customers.loyalty_transactions := [] |} |}.

(** A customer with 50 points, earned in one transaction. *)
Definition ledger50 : Customers.DB :=
  {| Customers.profiles :=
       {[3%nat := {| Customers.user := 3; Customers.loyalty_points := 50;
                     Customers.membership_tier := "bronze";
                     Customers.total_spent := 0;
                     Customers.total_orders := 0 |}]};
     Customers.loyalty_transactions :=
       [{| Customers.lt_customer := 3; Customers.lt_type := "earned";
           Customers.points := 50; Customers.description := "Points earned" |}] |}.

(** Notifications: a promotion and a welcome template; user 3 has switched
    every type off, user 4 has no preference row yet, and the storage
    layer refuses rows for user 5. *)
Definition promo : Notifications.NotificationTemplate :=
  {| Notifications.name := "spring_sale"; Notifications.type := "promotion";
     Notifications.title_template := "Sale";
     Notifications.message_template := "20% off this week";
     Notifications.priority := "low"; Notifications.is_active := true |}.

Definition welcome : Notifications.NotificationTemplate :=
  {| Notifications.name := "welcome"; Notifications.type := "welcome";
     Notifications.title_template := "Welcome";
     Notifications.message_template := "Thank you for joining";
     Notifications.priority := "normal"; Notifications.is_active := true |}.

Definition all_off : Notifications.NotificationPreference :=
  {| Notifications.order_notifications := false;
     Notifications.loyalty_notifications := false;
     Notifications.promotion_notifications := false;
     Notifications.reminder_notifications := false;
     Notifications.system_notifications := false;
     Notifications.daily_digest := false;
     Notifications.immediate_notifications := false |}.

Definition notif_db : Notifications.DB :=
  {| Notifications.templates :=
       <["spring_sale" := promo]> (<["welcome" := welcome]> ∅);
     Notifications.preferences := {[3%nat := all_off]};
     Notifications.notifications := [];
     Notifications.next_notification_id := 1;
     Notifications.batches := ∅;
     Notifications.next_batch_id := 1 |}.

Definition plain_text (s : string) : string := s.
Definition no_substitution (s : string) (c : Notifications.Context) : string := s.
Definition no_fault {A} (x : A) : option exn := None.
Definition refuses_user5 (row : Notifications.Notification) : option exn :=
  if bool_decide (Notifications.recipient row = 5%nat)
  then Some IntegrityError else None.

(** One coat at 25.50, and the two entries of a new order. *)
Definition one_coat : ItemData :=
  {| d_service_price_id := 2; d_quantity := 1; d_notes := "" |}.

Definition shirts_and_coat : list ItemData := [two_shirts; one_coat].


(** The owner of shop 7 and an active clerk of the same shop who may take
    and update orders, as the permission classes see them. *)
Definition owner7_principal : Access.Principal :=
  {| Access.account := owner7; Access.is_authenticated := true;
     Access.is_staff := false; Access.staff_active := false;
     Access.can_take_orders := false; Access.can_update_orders := false;
     Access.can_register_customers := false |}.

Definition clerk7 : Access.Principal :=
  {| Access.account :=
       {| user_id := 11; role := "staff"; user_shop := None;
          staff_shop := Some 7%nat |};
     Access.is_authenticated := true; Access.is_staff := false;
     Access.staff_active := true; Access.can_take_orders := true;
     Access.can_update_orders := true;
     Access.can_register_customers := false |}.


(** Customer 3 with a default home address and a work address. *)
Definition address_db : Customers.AddressDB :=
  {| Customers.addresses :=
       <[1%nat := {| Customers.a_pk := Some 1%nat; Customers.a_customer := 3;
                     Customers.label := "Home"; Customers.is_default := true;
                     Customers.is_active := true |}]>
       (<[2%nat := {| Customers.a_pk := Some 2%nat; Customers.a_customer := 3;
                      Customers.label := "Work"; Customers.is_default := false;
                      Customers.is_active := true |}]> ∅);
     Customers.next_address_id := 3 |}.

Definition new_default_address : Customers.CustomerAddress :=
  {| Customers.a_pk := None; Customers.a_customer := 3;
     Customers.label := "Studio"; Customers.is_default := true;
     Customers.is_active := true |}.


(** An inbox: user 3 has an unread and an old read notification, user 4
    an unread one that expires. *)
Definition inbox : list Inbox.Row :=
  let row (k u : nat) (st : string) (ex : option Z) :=
    {| Notifications.n_id := k; Notifications.recipient := u;
       Notifications.title := "Order update"; Notifications.message := "";
       Notifications.n_priority := "normal"; Notifications.status := st;
       Notifications.order := None; Notifications.shop := None;
       Notifications.template := None; Notifications.data := [];
       Notifications.expires_at := ex |} in
  [ {| Inbox.base := row 1%nat 3%nat "unread" None;
       Inbox.created_at := 1000; Inbox.read_at := None |};
    {| Inbox.base := row 2%nat 3%nat "read" None;
       Inbox.created_at := 10; Inbox.read_at := Some 20 |};
    {| Inbox.base := row 3%nat 4%nat "unread" (Some 5000);
       Inbox.created_at := 1000; Inbox.read_at := None |} ].

Definition inbox_ops : list Inbox.InboxOp :=
  [Inbox.PatchStatus 2000 3 1 (Some "read"); Inbox.MarkAllRead 3000 4;
   Inbox.Cleanup 6000 6000 0; Inbox.PatchStatus 7000 3 1 (Some "archived")].

End Examples.

(** * Properties *)

Lemma sum_Z_cons (x : Z) (l : list Z) : sum_Z (x :: l) = x + sum_Z l.
Proof. reflexivity. Qed.

Lemma sum_Z_app (l1 l2 : list Z) : sum_Z (l1 ++ l2) = sum_Z l1 + sum_Z l2.
Proof.
  induction l1 as [|x l1 IH]; simpl; [reflexivity|].
  rewrite IH. lia.
Qed.

Lemma filter_filter_same {A} (P Q : A → Prop)
    `{∀ x, Decision (P x)} `{∀ x, Decision (Q x)} (l : list A) :
  (∀ x, x ∈ l → P x → Q x) → filter P (filter Q l) = filter P l.
Proof.
  induction l as [|a l IH]; intros Hall; [reflexivity|].
  assert (Hl : ∀ x, x ∈ l → P x → Q x).
  { intros x Hx. apply Hall. right. exact Hx. }
  destruct (decide (Q a)) as [Hq|Hq].
  - rewrite (filter_cons_True Q a l Hq).
    destruct (decide (P a)) as [Hp|Hp].
    + rewrite !(filter_cons_True P) by exact Hp. f_equal. auto.
    + rewrite !(filter_cons_False P) by exact Hp. auto.
  - rewrite (filter_cons_False Q a l Hq).
    rewrite (filter_cons_False P a l); [auto|].
    intros Hp. apply Hq. apply Hall; [left|exact Hp].
Qed.

Lemma filter_none {A} (P : A → Prop) `{∀ x, Decision (P x)} (l : list A) :
  (∀ x, x ∈ l → ¬ P x) → filter P l = [].
Proof.
  induction l as [|a l IH]; intros Hall; [reflexivity|].
  rewrite filter_cons_False by (apply Hall; left).
  apply IH. intros x Hx. apply Hall. right. exact Hx.
Qed.

Lemma filter_all {A} (P : A → Prop) `{∀ x, Decision (P x)} (l : list A) :
  (∀ x, x ∈ l → P x) → filter P l = l.
Proof.
  induction l as [|a l IH]; intros Hall; [reflexivity|].
  rewrite filter_cons_True by (apply Hall; left).
  f_equal. apply IH. intros x Hx. apply Hall. right. exact Hx.
Qed.

Lemma find_app_last {A} (f : A → bool) (l : list A) (y : A) :
  (∀ x, x ∈ l → f x = false) → f y = true → find f (l ++ [y]) = Some y.
Proof.
  induction l as [|a l IH]; intros Hall Hy; simpl.
  - rewrite Hy. reflexivity.
  - rewrite (Hall a) by left. apply IH; [|exact Hy].
    intros x Hx. apply Hall. right. exact Hx.
Qed.

Lemma NoDup_fmap_elem_eq {A B} (f : A → B) (l : list A) x y :
  NoDup (f <$> l) → x ∈ l → y ∈ l → f x = f y → x = y.
Proof.
  induction l as [|a l IH]; intros Hnd Hx Hy Hf.
  - inversion Hx.
  - rewrite fmap_cons in Hnd. apply NoDup_cons in Hnd as [Hnotin Hnd].
    apply elem_of_cons in Hx as [->|Hx]; apply elem_of_cons in Hy as [->|Hy].
    + reflexivity.
    + exfalso. apply Hnotin. rewrite Hf. apply list_elem_of_fmap_2. exact Hy.
    + exfalso. apply Hnotin. rewrite <- Hf. apply list_elem_of_fmap_2. exact Hx.
    + auto.
Qed.

Ltac unfold_monad :=
  unfold mbind, M_bind, mret, M_ret, get, modify, raise in *.

Module OrderFacts.
Import Orders.

Section Save.

Variable env : Env.

(** A row of a well-formed table never collides with another row. *)
Lemma number_taken_own (tbl : gmap nat Order) k o :
  orders_wf tbl → tbl !! k = Some o →
  number_taken (order_number o) (Some k) tbl = false.
Proof.
  intros [_ Huniq] Hk. unfold number_taken.
  apply not_true_is_false. intros Hex.
  apply existsb_exists in Hex as [[k' o'] [Hin Hc]].
  apply andb_true_iff in Hc as [Hne Heq]. simpl in *.
  apply list_elem_of_In, elem_of_map_to_list in Hin.
  apply String.eqb_eq in Heq.
  apply negb_true_iff, bool_decide_eq_false in Hne.
  apply Hne. f_equal. symmetry. eapply Huniq; eauto.
Qed.

Lemma orders_wf_insert (tbl : gmap nat Order) k o o' :
  orders_wf tbl → tbl !! k = Some o →
  pk o' = Some k → order_number o' = order_number o →
  orders_wf (<[k := o']> tbl).
Proof.
  intros [Hrow Huniq] Hk Hpk Hnum. split.
  - intros k1 o1 H1. destruct (decide (k = k1)) as [->|Hne].
    + rewrite lookup_insert_eq in H1. injection H1 as <-.
      split; [exact Hpk|]. rewrite Hnum. exact (proj2 (Hrow _ _ Hk)).
    + rewrite lookup_insert_ne in H1 by exact Hne. eauto.
  - intros k1 k2 o1 o2 H1 H2 Heq.
    destruct (decide (k = k1)) as [->|Hne1];
      destruct (decide (k1 = k2)) as [->|Hne2]; try reflexivity.
    + rewrite lookup_insert_eq in H1. injection H1 as <-.
      rewrite lookup_insert_ne in H2 by exact Hne2.
      rewrite Hnum in Heq. eauto.
    + destruct (decide (k = k2)) as [->|Hne3].
      * rewrite lookup_insert_eq in H2. injection H2 as <-.
        rewrite lookup_insert_ne in H1 by exact Hne1.
        rewrite Hnum in Heq. eauto.
      * rewrite lookup_insert_ne in H1 by exact Hne1.
        rewrite lookup_insert_ne in H2 by exact Hne3. eauto.
Qed.

(** Saving an instance of a stored order whose number is the stored one
    writes the row and cannot raise. *)
Lemma Order_save_stored db k o o' :
  orders_wf (orders db) → orders db !! k = Some o →
  pk o' = Some k → order_number o' = order_number o →
  Order_save env o' db =
    (Ok o', set_orders (<[k := o']> (orders db)) (next_order_id db) db).
Proof.
  intros Hwf Hk Hpk Hnum. unfold Order_save.
  destruct (String.eqb_spec (order_number o') "") as [He|_].
  { exfalso. destruct Hwf as [Hrow _]. apply (proj2 (Hrow _ _ Hk)).
    congruence. }
  unfold Model_save. rewrite Hpk, Hnum.
  rewrite (number_taken_own _ _ _ Hwf Hk). reflexivity.
Qed.

Lemma Order_calculate_total_stored db k o o' :
  orders_wf (orders db) → orders db !! k = Some o →
  pk o' = Some k → order_number o' = order_number o →
  let s := sum_Z (total_price <$> Order_items o' db) in
  Order_calculate_total env o' db =
    (Ok (set_totals s s o'),
     set_orders (<[k := set_totals s s o']> (orders db)) (next_order_id db) db).
Proof.
  intros Hwf Hk Hpk Hnum s. unfold Order_calculate_total. unfold_monad.
  simpl. fold s. apply Order_save_stored with (o := o); auto.
Qed.

Lemma Order_items_pk o1 o2 db1 db2 :
  pk o1 = pk o2 → order_items db1 = order_items db2 →
  Order_items o1 db1 = Order_items o2 db2.
Proof. unfold Order_items. intros -> ->. reflexivity. Qed.

Lemma order_consistent_ext db1 db2 o :
  order_items db1 = order_items db2 →
  order_consistent db1 o → order_consistent db2 o.
Proof.
  unfold order_consistent. intros Hrows.
  rewrite (Order_items_pk o o db1 db2 eq_refl Hrows). tauto.
Qed.

(** Recomputing the totals of order [k] makes the whole database
    consistent when every other order already is. *)
Lemma recompute_restores db k o o' :
  db_wf db → orders db !! k = Some o →
  pk o' = Some k → order_number o' = order_number o →
  consistent_except k db →
  ∃ o'' db', Order_calculate_total env o' db = (Ok o'', db') ∧
    db_wf db' ∧ totals_consistent db' ∧
    orders db' !! k = Some o'' ∧ order_items db' = order_items db ∧
    next_item_id db' = next_item_id db ∧
    service_prices db' = service_prices db.
Proof.
  intros [Hwo Hwi] Hk Hpk Hnum Hothers.
  eexists _, _. split.
  { apply Order_calculate_total_stored with (k := k) (o := o); assumption. }
  split_and!; try reflexivity.
  - split; simpl; [eapply orders_wf_insert; eauto | exact Hwi].
  - intros k1 o1 H1. simpl in H1.
    destruct (decide (k = k1)) as [->|Hne].
    + rewrite lookup_insert_eq in H1. injection H1 as <-.
      split; simpl; reflexivity.
    + rewrite lookup_insert_ne in H1 by exact Hne.
      eapply order_consistent_ext; [|eapply Hothers; eauto]. reflexivity.
  - simpl. apply lookup_insert_eq.
Qed.

Lemma totals_consistent_except k db :
  totals_consistent db → consistent_except k db.
Proof. intros H k' o _ Hk'. eapply H; eauto. Qed.


(** An INSERT into the item table leaves the items of the other orders as
    they were. *)
Lemma Item_insert_keeps_others db k it :
  db_wf db → consistent_except k db →
  item_pk it = None → item_order it = k →
  ∃ it' db1, Item_model_save it db = (Ok it', db1) ∧
    db_wf db1 ∧ consistent_except k db1 ∧ orders db1 = orders db ∧
    service_prices db1 = service_prices db.
Proof.
  intros [Hwo [Hnd Hlt]] Hothers Hpk Hord.
  unfold Item_model_save. rewrite Hpk. eexists _, _. split; [reflexivity|].
  split_and!; try reflexivity.
  - split; [exact Hwo|]. split; simpl.
    + rewrite fmap_app. apply NoDup_app. split_and!.
      * exact Hnd.
      * intros x Hx Hx'. apply list_elem_of_fmap in Hx as [r [-> Hr]].
        apply list_elem_of_singleton in Hx'. simpl in Hx'.
        destruct (Hlt r Hr) as [j [Hj Hjn]]. rewrite Hj in Hx'.
        injection Hx' as ->. lia.
      * simpl. apply NoDup_singleton.
    + intros r Hr. apply elem_of_app in Hr as [Hr|Hr].
      * destruct (Hlt r Hr) as [j [Hj Hjn]]. exists j. split; [exact Hj|lia].
      * apply list_elem_of_singleton in Hr as ->. simpl.
        eexists. split; [reflexivity|lia].
  - intros k' o Hne Hk'. simpl in Hk'.
    destruct (Hothers k' o Hne Hk') as [Hsub Htot].
    split; [|exact Htot]. rewrite Hsub. f_equal. f_equal.
    unfold Order_items. simpl. rewrite filter_app.
    rewrite (filter_cons_False _ _ []).
    + rewrite filter_nil, app_nil_r. reflexivity.
    + simpl. destruct Hwo as [Hrow _].
      rewrite (proj1 (Hrow _ _ Hk')). intros [= Heq]. congruence.
Qed.

(** Deleting an item of order [k] leaves the items of the other orders as
    they were. *)
Lemma OrderItem_delete_keeps_others db k item :
  db_wf db → consistent_except k db →
  item ∈ order_items db → item_order item = k →
  ∃ db1, OrderItem_delete item db = (Ok tt, db1) ∧
    db_wf db1 ∧ consistent_except k db1 ∧ orders db1 = orders db ∧
    service_prices db1 = service_prices db.
Proof.
  intros [Hwo [Hnd Hlt]] Hothers Hin Hord.
  eexists. split; [reflexivity|].
  split_and!; try reflexivity.
  - split; [exact Hwo|]. split; simpl.
    + refine (sublist_NoDup _ _ Hnd _).
      apply fmap_sublist, sublist_filter.
    + intros r Hr. apply list_elem_of_filter in Hr as [_ Hr]. auto.
  - intros k' o Hne Hk'. simpl in Hk'.
    destruct (Hothers k' o Hne Hk') as [Hsub Htot].
    split; [|exact Htot]. rewrite Hsub. f_equal. f_equal.
    unfold Order_items. simpl. symmetry. apply filter_filter_same.
    intros r Hr Hpkr Heq.
    assert (r = item) as -> by (eapply NoDup_fmap_elem_eq; eauto).
    destruct Hwo as [Hrow _]. rewrite (proj1 (Hrow _ _ Hk')) in Hpkr.
    injection Hpkr as Hpkr. congruence.
Qed.


(** The price lookup of [OrderItem.save] does not write. *)
Lemma price_lookup_pure (self : OrderItem) db :
  ∃ r, (if truthy (unit_price self)
        then mret (default 0 (unit_price self))
        else service_price_price self) db = (r, db).
Proof.
  destruct (truthy (unit_price self)); unfold_monad.
  - eexists. reflexivity.
  - unfold service_price_price.
    destruct (service_prices db !! service_price self); eexists; reflexivity.
Qed.

(** Saving a new item of a stored order either raises before any write
    (the price reference is missing) or leaves a consistent database. *)
Lemma OrderItem_save_new db k order it :
  db_wf db → totals_consistent db → orders db !! k = Some order →
  item_pk it = None → item_order it = k →
  match OrderItem_save env it order db with
  | (Ok (it', order'), db') =>
      db_wf db' ∧ totals_consistent db' ∧ orders db' !! k = Some order'
  | (Raise e, db') => db' = db
  end.
Proof.
  intros Hwf Hcons Hk Hpk Hord.
  destruct (price_lookup_pure it db) as [[u|e] Hu];
    unfold OrderItem_save; unfold_monad; rewrite Hu; [|reflexivity].
  destruct (Item_insert_keeps_others db k
              (set_prices (Some u) (u * quantity it) it) Hwf
              (totals_consistent_except k db Hcons) Hpk Hord)
    as (it' & db1 & -> & Hwf1 & Hc1 & Ho1 & _).
  pose proof (proj1 (proj1 (proj1 Hwf) _ _ Hk)) as Hpko.
  rewrite <- Ho1 in Hk.
  destruct (recompute_restores db1 k order order Hwf1 Hk Hpko eq_refl Hc1)
    as (o2 & db2 & -> & Hwf2 & Hc2 & Hk2 & _).
  split_and!; assumption.
Qed.

Lemma add_item_preserves db k order sp qty u note :
  db_wf db → totals_consistent db → orders db !! k = Some order →
  db_wf (add_item env order sp qty u note db).2 ∧
  totals_consistent (add_item env order sp qty u note db).2.
Proof.
  intros Hwf Hcons Hk. unfold add_item, OrderItem_objects_create.
  destruct Hwf as [Hwo Hwi]. pose proof (proj1 (proj1 Hwo _ _ Hk)) as Hpk.
  rewrite Hpk. unfold_monad.
  match goal with
  | |- context [OrderItem_save env ?i order db] =>
      pose proof (OrderItem_save_new db k order i (conj Hwo Hwi) Hcons Hk
                    eq_refl eq_refl) as Hsave;
      destruct (OrderItem_save env i order db) as [[[it' order']|e] db1]
  end.
  - destruct Hsave as (Hwf1 & Hc1 & Hk1).
    pose proof (proj1 (proj1 (proj1 Hwf1) _ _ Hk1)) as Hpk1.
    destruct (recompute_restores db1 k order' order' Hwf1 Hk1 Hpk1 eq_refl
                (totals_consistent_except k db1 Hc1))
      as (o2 & db2 & -> & Hwf2 & Hc2 & _).
    simpl. split; assumption.
  - subst db1. simpl. split; [split|]; assumption.
Qed.

Lemma remove_item_preserves db k order iid item :
  db_wf db → totals_consistent db → orders db !! k = Some order →
  get_item_or_404 order iid db = Some item →
  db_wf (remove_item env order item db).2 ∧
  totals_consistent (remove_item env order item db).2.
Proof.
  intros Hwf Hcons Hk Hget. unfold remove_item. unfold_monad.
  apply find_some in Hget as [Hin _].
  apply list_elem_of_In, list_elem_of_filter in Hin as [Hord Hin].
  pose proof (proj1 (proj1 (proj1 Hwf) _ _ Hk)) as Hpk.
  rewrite Hpk in Hord. injection Hord as Hord.
  destruct (OrderItem_delete_keeps_others db k item Hwf
              (totals_consistent_except k db Hcons) Hin (eq_sym Hord))
    as (db1 & -> & Hwf1 & Hc1 & Ho1 & _).
  rewrite <- Ho1 in Hk.
  destruct (recompute_restores db1 k order order Hwf1 Hk Hpk eq_refl Hc1)
    as (o2 & db2 & -> & Hwf2 & Hc2 & _).
  split; assumption.
Qed.


Lemma get_order_or_404_Some user oid db o :
  get_order_or_404 user oid db = Some o → orders db !! oid = Some o.
Proof.
  unfold get_order_or_404. destruct (orders db !! oid) as [o'|]; simpl;
    [|discriminate].
  intros H. f_equal.
  repeat match type of H with
         | context [match ?c with _ => _ end] => destruct c
         end; congruence.
Qed.

Lemma respond_snd (body : M DB Response) db : (respond body db).2 = (body db).2.
Proof. unfold respond. destruct (body db) as [[r|e] db']; reflexivity. Qed.

End Save.

Lemma step_preserves c db :
  db_wf db → totals_consistent db →
  db_wf (step c db) ∧ totals_consistent (step c db).
Proof.
  intros Hwf Hcons. destruct c as [env op]. unfold step. simpl.
  destruct op as [user oid data|user oid iid|oid sp qty u note|oid iid].
  - unfold add_order_item.
    destruct (get_order_or_404 user oid db) as [order|] eqn:Hget; [|auto].
    apply get_order_or_404_Some in Hget.
    destruct (negb _); [auto|].
    destruct (OrderItemSerializer_is_valid user data db); [|auto].
    rewrite respond_snd. eapply add_item_preserves; eauto.
  - unfold remove_order_item.
    destruct (get_order_or_404 user oid db) as [order|] eqn:Hget; [|auto].
    apply get_order_or_404_Some in Hget.
    destruct (negb _); [auto|].
    destruct (get_item_or_404 order iid db) as [item|] eqn:Hitem; [|auto].
    rewrite respond_snd. eapply remove_item_preserves; eauto.
  - destruct (orders db !! oid) as [order|] eqn:Hget; [|auto].
    eapply add_item_preserves; eauto.
  - destruct (orders db !! oid) as [order|] eqn:Hget; [|auto].
    destruct (get_item_or_404 order iid db) as [item|] eqn:Hitem; [|auto].
    eapply remove_item_preserves; eauto.
Qed.

Lemma run_preserves ops db :
  db_wf db → totals_consistent db →
  db_wf (run ops db) ∧ totals_consistent (run ops db).
Proof.
  revert db. induction ops as [|c ops IH]; intros db Hwf Hcons.
  - split; assumption.
  - simpl. destruct (step_preserves c db Hwf Hcons) as [Hwf' Hcons'].
    apply IH; assumption.
Qed.

(** The boolean checks are sound. *)
Lemma orders_wf_b_sound tbl : orders_wf_b tbl = true → orders_wf tbl.
Proof.
  unfold orders_wf_b. intros H.
  apply andb_true_iff in H as [Hall Hnd].
  apply bool_decide_eq_true in Hnd.
  rewrite forallb_forall in Hall. split.
  - intros k o Hk.
    assert (Hin : In (k, o) (map_to_list tbl))
      by (apply list_elem_of_In, elem_of_map_to_list; exact Hk).
    apply Hall in Hin. simpl in Hin.
    apply andb_true_iff in Hin as [Hpk Hnum].
    apply bool_decide_eq_true in Hpk. split; [exact Hpk|].
    apply negb_true_iff in Hnum. intros He. rewrite He in Hnum. discriminate.
  - intros k1 k2 o1 o2 H1 H2 Heq.
    apply elem_of_map_to_list in H1, H2.
    assert ((k1, o1) = (k2, o2)) as [= -> _]; [|reflexivity].
    eapply (NoDup_fmap_elem_eq (λ kv : nat * Order, order_number kv.2));
      eauto.
Qed.

Lemma items_wf_b_sound rows next : items_wf_b rows next = true → items_wf rows next.
Proof.
  unfold items_wf_b. intros [Hnd Hall]%andb_true_iff.
  apply bool_decide_eq_true in Hnd. rewrite forallb_forall in Hall.
  split; [exact Hnd|]. intros r Hr. apply list_elem_of_In in Hr.
  specialize (Hall r Hr). destruct (item_pk r) as [k|]; [|discriminate].
  exists k. split; [reflexivity|]. apply Nat.ltb_lt. exact Hall.
Qed.

Lemma db_wf_b_sound db : db_wf_b db = true → db_wf db.
Proof.
  unfold db_wf_b. intros [H1 H2]%andb_true_iff.
  split; [apply orders_wf_b_sound|apply items_wf_b_sound]; assumption.
Qed.

Lemma totals_consistent_b_sound db :
  totals_consistent_b db = true → totals_consistent db.
Proof.
  unfold totals_consistent_b. rewrite forallb_forall. intros Hall k o Hk.
  assert (Hin : In (k, o) (map_to_list (orders db)))
    by (apply list_elem_of_In, elem_of_map_to_list; exact Hk).
  apply Hall in Hin. simpl in Hin.
  apply andb_true_iff in Hin as [H1 H2].
  split; apply Z.eqb_eq; assumption.
Qed.


(** *** A new order *)

Lemma pretty_N_go_length x s :
  (String.length s ≤ String.length (pretty_N_go x s))%nat.
Proof.
  revert s. induction (N.lt_wf_0 x) as [x _ IH]; intros s.
  destruct (decide (x = 0%N)) as [->|Hx].
  - rewrite pretty_N_go_0. lia.
  - rewrite pretty_N_go_step by lia.
    etrans; [|apply IH, N.div_lt; lia]. simpl. lia.
Qed.

Lemma pretty_nat_nonempty (n : nat) : pretty n ≠ "".
Proof.
  unfold pretty, pretty_nat, pretty, pretty_N.
  destruct (decide (N.of_nat n = 0%N)) as [_|Hn]; [discriminate|].
  rewrite pretty_N_go_step by lia. intros He.
  pose proof (pretty_N_go_length (N.of_nat n `div` 10)
    (String (pretty_N_char (N.of_nat n `mod` 10)) "")) as Hlen.
  rewrite He in Hlen. simpl in Hlen. lia.
Qed.

Lemma generate_order_number_nonempty env s : generate_order_number env s ≠ "".
Proof.
  unfold generate_order_number. pose proof (pretty_nat_nonempty s) as Hs.
  destruct (pretty s) as [|c rest]; [congruence|]. discriminate.
Qed.

(** [Order.objects.create] in a consistent database: the new order is
    stored with zero totals and the database stays consistent, or the
    number is taken and nothing is written. *)
Lemma created_order_consistent env c s db :
  db_wf db → totals_consistent db →
  (∀ k o, orders db !! k = Some o → k ≠ next_order_id db) →
  (∀ r, r ∈ order_items db → item_order r ≠ next_order_id db) →
  match Order_objects_create env c s db with
  | (Ok o, db') =>
      db_wf db' ∧ totals_consistent db' ∧
      orders db' !! next_order_id db = Some o ∧
      status o = "pending" ∧ subtotal o = 0 ∧ total_amount o = 0
  | (Raise e, db') => db' = db
  end.
Proof.
  intros [[Hrow Huniq] Hwi] Hcons Hfresh Hfk.
  unfold Order_objects_create, Order_save, Model_save. simpl.
  set (n := generate_order_number env s).
  destruct (number_taken n None (orders db)) eqn:Htaken; [reflexivity|].
  assert (Hfree : ∀ k o, orders db !! k = Some o → order_number o ≠ n).
  { intros k o Hk Hn.
    assert (number_taken n None (orders db) = true) as Ht; [|congruence].
    unfold number_taken. apply existsb_exists. exists (k, o). split.
    - apply list_elem_of_In, elem_of_map_to_list. exact Hk.
    - apply andb_true_iff. split.
      + apply negb_true_iff, bool_decide_eq_false. discriminate.
      + apply String.eqb_eq. exact Hn. }
  simpl. split_and!; try reflexivity.
  - split; [|exact Hwi]. simpl. split.
    + intros k o Hk. destruct (decide (next_order_id db = k)) as [<-|Hne].
      * rewrite lookup_insert_eq in Hk. injection Hk as <-. simpl.
        split; [reflexivity|apply generate_order_number_nonempty].
      * rewrite lookup_insert_ne in Hk by exact Hne. eauto.
    + intros k1 k2 o1 o2 H1 H2 Heq.
      destruct (decide (next_order_id db = k1)) as [<-|Hne1];
        destruct (decide (next_order_id db = k2)) as [<-|Hne2];
        try reflexivity.
      * rewrite lookup_insert_eq in H1. injection H1 as <-.
        rewrite lookup_insert_ne in H2 by exact Hne2.
        exfalso. eapply Hfree; eauto.
      * rewrite lookup_insert_eq in H2. injection H2 as <-.
        rewrite lookup_insert_ne in H1 by exact Hne1.
        exfalso. eapply Hfree; eauto.
      * rewrite lookup_insert_ne in H1 by exact Hne1.
        rewrite lookup_insert_ne in H2 by exact Hne2. eauto.
  - intros k o Hk. simpl in Hk.
    destruct (decide (next_order_id db = k)) as [<-|Hne].
    + rewrite lookup_insert_eq in Hk. injection Hk as <-.
      split; [|reflexivity]. simpl. unfold Order_items. simpl.
      rewrite filter_none; [reflexivity|].
      intros r Hr [= Heq]. eapply Hfk; eauto.
    + rewrite lookup_insert_ne in Hk by exact Hne.
      eapply order_consistent_ext; [|eapply Hcons; eauto]. reflexivity.
  - simpl. apply lookup_insert_eq.
Qed.

Section Claims.
Import Examples.

Example shop_db_order : orders shop_db !! 1%nat = Some pending_order.
Proof. vm_compute. reflexivity. Qed.

(** The scenario of the specification: two items give 57.48, and 25.50
    is left when the first is removed. *)
Example item_ops_totals :
  (subtotal <$> orders (run (take 2 item_ops) shop_db) !! 1%nat = Some 5748) ∧
  (total_amount <$> orders (run item_ops shop_db) !! 1%nat = Some 2550).
Proof. split; vm_compute; reflexivity. Qed.



(** *** Order numbers *)

Lemma number_taken_spec n (tbl : gmap nat Order) :
  number_taken n None tbl = true ↔ ∃ k o, tbl !! k = Some o ∧ order_number o = n.
Proof.
  unfold number_taken. rewrite existsb_exists. split.
  - intros [[k o] [Hin Hc]].
    apply andb_true_iff in Hc as [_ Heq]. apply String.eqb_eq in Heq.
    apply list_elem_of_In, elem_of_map_to_list in Hin. eauto.
  - intros (k & o & Hk & Hn). exists (k, o). split.
    + apply list_elem_of_In, elem_of_map_to_list. exact Hk.
    + apply andb_true_iff. split.
      * apply negb_true_iff, bool_decide_eq_false. discriminate.
      * apply String.eqb_eq. exact Hn.
Qed.

(** The generated number of the repository's own test. *)
Example generated_number : generate_order_number env0 7 = "7789012345642".
Proof. vm_compute. reflexivity. Qed.

(** Against C7 as stated. Two clock readings that differ by ten thousand
    seconds give the same number: the second order is refused and the
    caller gets the [IntegrityError]. *)
Lemma order_number_conflict_surfaces :
  time_us env1 ≠ time_us env0 ∧
  Order_objects_create env1 4 7 shop_db = (Raise IntegrityError, shop_db).
Proof. split; [discriminate|]. vm_compute. reflexivity. Qed.

(** C7, as amended. [Order.save] draws the number of a new order once, from
    the shop id, the last ten digits of the microsecond clock and the
    random suffix; the row is inserted when no stored order holds that
    number, and otherwise the [IntegrityError] of the database reaches the
    caller, nothing being written and nothing being retried. *)
Theorem order_number_generated_once env c s db :
  let n := generate_order_number env s in
  let o := set_pk (Some (next_order_id db)) (new_order c s n) in
  Order_objects_create env c s db =
    (if number_taken n None (orders db)
     then (Raise IntegrityError, db)
     else (Ok o, set_orders (<[next_order_id db := o]> (orders db))
                   (S (next_order_id db)) db))
  ∧ (number_taken n None (orders db) = true ↔
     ∃ k o', orders db !! k = Some o' ∧ order_number o' = n).
Proof.
  intros n o. split; [|apply number_taken_spec].
  unfold Order_objects_create, Order_save, Model_save. simpl. fold n.
  destruct (number_taken n None (orders db)); reflexivity.
Qed.

(** *** The guard of the item endpoints *)

Lemma choice_not_received st :
  str_in st STATUS_CHOICES = true → str_in st ["received"] = false.
Proof.
  intros H. unfold str_in in *. simpl in *.
  destruct (String.eqb_spec st "received") as [->|_]; [|reflexivity].
  vm_compute in H. discriminate.
Qed.

(** The guard lets exactly the status [received] through. *)
Lemma add_order_item_guard env user oid data db order :
  get_order_or_404 user oid db = Some order →
  (add_order_item env user oid data db = (HTTP_400_BAD_REQUEST cannot_add, db)
   ↔ status order ≠ "received").
Proof.
  intros Hget. unfold add_order_item. rewrite Hget.
  unfold str_in. simpl. rewrite orb_false_r.
  destruct (String.eqb_spec (status order) "received") as [Heq|Hne]; simpl.
  - split; [|congruence]. intros H. exfalso.
    destruct (OrderItemSerializer_is_valid user data db).
    + unfold respond in H.
      destruct (add_item env order _ _ _ _ db) as [[r|e] db'] eqn:Hadd;
        [|discriminate].
      unfold add_item in Hadd. unfold_monad.
      destruct (OrderItem_objects_create env order _ _ _ _ db)
        as [[[it o1]|e] db1]; [|discriminate].
      destruct (Order_calculate_total env o1 db1) as [[o2|e] db2];
        [|discriminate].
      injection Hadd as <- _. discriminate.
    + discriminate.
  - split; [intros _; exact Hne|reflexivity].
Qed.

(** C6, on the code. For an order in any status the model can hold
    ([pending] among them), both item endpoints answer 400 and leave the
    database as it was: the guard compares with [received] only. *)
Theorem item_views_reject_every_choice env user oid iid data db order :
  get_order_or_404 user oid db = Some order →
  str_in (status order) STATUS_CHOICES = true →
  add_order_item env user oid data db =
    (HTTP_400_BAD_REQUEST cannot_add, db) ∧
  remove_order_item env user oid iid db =
    (HTTP_400_BAD_REQUEST cannot_remove, db).
Proof.
  intros Hget Hchoice. apply choice_not_received in Hchoice.
  unfold add_order_item, remove_order_item. rewrite Hget, Hchoice.
  split; reflexivity.
Qed.

(** C6 on the pending order 1, asked for by its customer. *)
Lemma item_views_reject_every_choice_witness :
  get_order_or_404 customer3 1 shop_db = Some pending_order ∧
  str_in (status pending_order) STATUS_CHOICES = true ∧
  add_order_item env0 customer3 1 two_shirts shop_db =
    (HTTP_400_BAD_REQUEST cannot_add, shop_db) ∧
  remove_order_item env0 customer3 1 1 shop_db =
    (HTTP_400_BAD_REQUEST cannot_remove, shop_db).
Proof.
  assert (Hget : get_order_or_404 customer3 1 shop_db = Some pending_order)
    by (vm_compute; reflexivity).
  assert (Hst : str_in (status pending_order) STATUS_CHOICES = true)
    by (vm_compute; reflexivity).
  split; [exact Hget|]. split; [exact Hst|].
  exact (item_views_reject_every_choice env0 customer3 1%nat 1%nat two_shirts
           shop_db pending_order Hget Hst).
Defined.

(** *** Status updates *)

Lemma with_validated_keys vd instance :
  pk (with_validated vd instance) = pk instance ∧
  order_number (with_validated vd instance) = order_number instance ∧
  status (with_validated vd instance) =
    default (status instance) (vd_status vd).
Proof.
  unfold with_validated.
  destruct (vd_status vd), (vd_estimated_completion vd); simpl; auto.
Qed.

(** From [pending] straight to [completed]: accepted, and stamped. *)
Example complete_from_pending :
  ∃ o' db', update env0 9 pending_order to_completed shop_db = (Ok o', db') ∧
    status o' = "completed" ∧ completed_at o' = Some (now env0).
Proof. eexists _, _. split_and!; vm_compute; reflexivity. Qed.

(** Against C4 as stated. The table of the specification does not allow
    [pending → completed], and the update is not rejected. *)
Lemma transition_table_not_enforced :
  spec_reachable "pending" "completed" = false ∧
  ¬ (∀ env user instance vd db new,
       vd_status vd = Some new →
       spec_reachable (status instance) new = false →
       is_ok (update env user instance vd db).1 = false).
Proof.
  split; [reflexivity|]. intros H.
  specialize (H env0 9%nat pending_order to_completed shop_db "completed"
                eq_refl eq_refl).
  vm_compute in H. discriminate.
Qed.

(** C4, as amended. The status update checks no transition table: for a
    stored order and any requested status it succeeds and stores that
    status; when the status changes it appends one history row and stamps
    [confirmed_at] or [completed_at] on entering [confirmed] or
    [completed], from whatever status the order was in. *)
Theorem update_accepts_every_status env user db k instance vd :
  orders_wf (orders db) → orders db !! k = Some instance →
  ∃ o' db', update env user instance vd db = (Ok o', db') ∧
    status o' = default (status instance) (vd_status vd) ∧
    orders db' !! k = Some o' ∧
    (status o' ≠ status instance →
       status_history db' =
         (status_history db ++
            [{| h_order := Some k; h_status := status o'; changed_by := user;
                changed_at := now env;
                h_notes := default "" (vd_notes vd) |}])%list ∧
       (status o' = "confirmed" → confirmed_at o' = Some (now env)) ∧
       (status o' = "completed" → completed_at o' = Some (now env))) ∧
    (status o' = status instance → status_history db' = status_history db).
Proof.
  intros Hwf Hk.
  destruct (with_validated_keys vd instance) as (Hpk1 & Hnum1 & Hst1).
  pose proof (proj1 (proj1 Hwf _ _ Hk)) as Hpk.
  unfold update, ModelSerializer_update. unfold_monad.
  set (inst1 := with_validated vd instance) in *.
  rewrite (Order_save_stored env db k instance inst1 Hwf Hk
             (eq_trans Hpk1 Hpk) Hnum1).
  set (new := default (status instance) (vd_status vd)) in *.
  destruct (String.eqb_spec (status instance) new) as [Heq|Hne]; simpl.
  - eexists _, _. split; [reflexivity|]. simpl.
    split_and!; [exact Hst1|apply lookup_insert_eq| |reflexivity].
    intros Hd. exfalso. apply Hd. rewrite Hst1. symmetry. exact Heq.
  - set (db1 := set_status_history _ _).
    assert (Hwf1 : orders_wf (orders db1))
      by (simpl; eapply orders_wf_insert; eauto; congruence).
    assert (Hk1 : orders db1 !! k = Some inst1) by apply lookup_insert_eq.
    destruct (String.eqb_spec new "confirmed") as [Hc|Hnc].
    + rewrite (Order_save_stored env db1 k inst1
                 (set_confirmed_at (Some (now env)) inst1) Hwf1 Hk1
                 (eq_trans Hpk1 Hpk) eq_refl).
      eexists _, _. split; [reflexivity|]. simpl.
      split_and!; [exact Hst1|apply lookup_insert_eq| |].
      * intros _. split_and!.
        -- rewrite (eq_trans Hpk1 Hpk), Hst1. reflexivity.
        -- reflexivity.
        -- rewrite Hst1. fold new. rewrite Hc. discriminate.
      * rewrite Hst1. intros He. exfalso. apply Hne. symmetry. exact He.
    + destruct (String.eqb_spec new "completed") as [Hc|Hncp].
      * rewrite (Order_save_stored env db1 k inst1
                   (set_completed_at (Some (now env)) inst1) Hwf1 Hk1
                   (eq_trans Hpk1 Hpk) eq_refl).
        eexists _, _. split; [reflexivity|]. simpl.
        split_and!; [exact Hst1|apply lookup_insert_eq| |].
        -- intros _. split_and!.
           ++ rewrite (eq_trans Hpk1 Hpk), Hst1. reflexivity.
           ++ rewrite Hst1. fold new. intros He. contradiction.
           ++ reflexivity.
        -- rewrite Hst1. intros He. exfalso. apply Hne. symmetry. exact He.
      * rewrite (Order_save_stored env db1 k inst1 inst1 Hwf1 Hk1
                   (eq_trans Hpk1 Hpk) eq_refl).
        eexists _, _. split; [reflexivity|]. simpl.
        split_and!; [exact Hst1|apply lookup_insert_eq| |].
        -- intros _. split_and!.
           ++ rewrite (eq_trans Hpk1 Hpk), Hst1. reflexivity.
           ++ rewrite Hst1. fold new. intros He. contradiction.
           ++ rewrite Hst1. fold new. intros He. contradiction.
        -- rewrite Hst1. intros He. exfalso. apply Hne. symmetry. exact He.
Qed.

(** C4, as amended, on the pending order 1. *)
Lemma update_accepts_every_status_witness :
  orders_wf (orders shop_db) ∧ orders shop_db !! 1%nat = Some pending_order ∧
  ∃ o' db', update env0 9 pending_order to_completed shop_db = (Ok o', db') ∧
    status o' = default (status pending_order) (vd_status to_completed) ∧
    orders db' !! 1%nat = Some o' ∧
    (status o' ≠ status pending_order →
       status_history db' =
         (status_history shop_db ++
            [{| h_order := Some 1%nat; h_status := status o'; changed_by := 9;
                changed_at := now env0;
                h_notes := default "" (vd_notes to_completed) |}])%list ∧
       (status o' = "confirmed" → confirmed_at o' = Some (now env0)) ∧
       (status o' = "completed" → completed_at o' = Some (now env0))) ∧
    (status o' = status pending_order →
     status_history db' = status_history shop_db).
Proof.
  assert (Hwf : orders_wf (orders shop_db))
    by (apply orders_wf_b_sound; vm_compute; reflexivity).
  assert (Hk : orders shop_db !! 1%nat = Some pending_order)
    by (vm_compute; reflexivity).
  split; [exact Hwf|]. split; [exact Hk|].
  exact (update_accepts_every_status env0 9%nat shop_db 1%nat pending_order
           to_completed Hwf Hk).
Defined.

(** *** The captured unit price *)

Lemma OrderItem_save_steps env self order db u :
  (if truthy (unit_price self)
   then mret (default 0 (unit_price self))
   else service_price_price self) db = (Ok u, db) →
  OrderItem_save env self order db =
    match Item_model_save (set_prices (Some u) (u * quantity self) self) db with
    | (Ok s, db1) =>
        match Order_calculate_total env order db1 with
        | (Ok o, db2) => (Ok (s, o), db2)
        | (Raise e, db2) => (Raise e, db2)
        end
    | (Raise e, db1) => (Raise e, db1)
    end.
Proof.
  intros H. unfold OrderItem_save. unfold_monad. rewrite H.
  destruct (Item_model_save _ db) as [[s|e] db1]; [|reflexivity].
  destruct (Order_calculate_total env order db1) as [[o|e] db2]; reflexivity.
Qed.

Lemma validate_price_truthy p : validate_price p = true → truthy (Some p) = true.
Proof.
  unfold validate_price, truthy. intros H%negb_true_iff%Z.leb_gt.
  apply negb_true_iff, Z.eqb_neq. lia.
Qed.



(** Outside the validator's range the capture is not kept: a unit price of
    0.00 is false in Python, so the next save takes the current service
    price. *)
Example zero_price_taken_again :
  ∃ item order1 db1 item2 order2 db2,
    OrderItem_objects_create env0 pending_order 1 2 None "" zero_priced_db
      = (Ok (item, order1), db1) ∧
    unit_price item = Some 0 ∧
    OrderItem_save env1 item order1 (change_price 1 500 db1)
      = (Ok (item2, order2), db2) ∧
    unit_price item2 = Some 500 ∧ total_price item2 = 1000.
Proof. eexists _, _, _, _, _, _. split_and!; vm_compute; reflexivity. Qed.

End Claims.

(** ** Further properties of the order code *)

Section Frames.

Lemma headers_kept_refl db : headers_kept db db.
Proof. repeat split. Qed.

Lemma headers_kept_trans db1 db2 db3 :
  headers_kept db1 db2 → headers_kept db2 db3 → headers_kept db1 db3.
Proof.
  intros (H1 & H2 & H3 & H4) (G1 & G2 & G3 & G4).
  split_and!; congruence.
Qed.

(** [Order.save] and [calculate_total] write to the order table only. *)
Lemma Order_save_rows env o db :
  order_items (Order_save env o db).2 = order_items db ∧
  next_item_id (Order_save env o db).2 = next_item_id db.
Proof.
  unfold Order_save, Model_save.
  destruct (number_taken _ _ _); [split; reflexivity|].
  destruct (pk _); split; reflexivity.
Qed.

Lemma Order_calculate_total_rows env o db :
  order_items (Order_calculate_total env o db).2 = order_items db ∧
  next_item_id (Order_calculate_total env o db).2 = next_item_id db.
Proof. unfold Order_calculate_total. unfold_monad. apply Order_save_rows. Qed.

(** Recomputing the totals of a stored order keeps its header and every
    other row. *)
Lemma calculate_total_frame env db k o o' :
  db_wf db → orders db !! k = Some o →
  pk o' = Some k → order_number o' = order_number o → header o' = header o →
  ∃ o'' db', Order_calculate_total env o' db = (Ok o'', db') ∧
    db_wf db' ∧ headers_kept db db' ∧ orders db' !! k = Some o'' ∧
    header o'' = header o ∧ pk o'' = Some k ∧
    order_number o'' = order_number o ∧
    order_items db' = order_items db ∧ next_item_id db' = next_item_id db.
Proof.
  intros [Hwo Hwi] Hk Hpk Hnum Hhead.
  rewrite (Order_calculate_total_stored env db k o o' Hwo Hk Hpk Hnum).
  eexists _, _. split; [reflexivity|]. simpl.
  split_and!; try reflexivity; try assumption.
  - split; simpl; [eapply orders_wf_insert; eauto | exact Hwi].
  - split_and!; try reflexivity. simpl. rewrite fmap_insert.
    apply insert_id. rewrite lookup_fmap, Hk. simpl. f_equal.
    symmetry. exact Hhead.
  - apply lookup_insert_eq.
Qed.

Lemma Item_insert_wf db it :
  db_wf db → item_pk it = None →
  ∃ it' db', Item_model_save it db = (Ok it', db') ∧
    db_wf db' ∧ headers_kept db db' ∧ orders db' = orders db ∧
    it' = set_item_pk (Some (next_item_id db)) it ∧
    order_items db' = (order_items db ++ [it'])%list ∧
    next_item_id db' = S (next_item_id db).
Proof.
  intros [Hwo [Hnd Hlt]] Hpk. unfold Item_model_save. rewrite Hpk.
  eexists _, _. split; [reflexivity|].
  split_and!; try reflexivity; [|repeat split].
  split; [exact Hwo|]. split; simpl.
  - rewrite fmap_app. apply NoDup_app. split_and!.
    + exact Hnd.
    + intros x Hx Hx'. apply list_elem_of_fmap in Hx as [r [-> Hr]].
      apply list_elem_of_singleton in Hx'. simpl in Hx'.
      destruct (Hlt r Hr) as [j [Hj Hjn]]. rewrite Hj in Hx'.
      injection Hx' as ->. lia.
    + simpl. apply NoDup_singleton.
  - intros r Hr. apply elem_of_app in Hr as [Hr|Hr].
    + destruct (Hlt r Hr) as [j [Hj Hjn]]. exists j. split; [exact Hj|lia].
    + apply list_elem_of_singleton in Hr as ->. simpl.
      eexists. split; [reflexivity|lia].
Qed.

Lemma OrderItem_delete_wf db item :
  db_wf db →
  db_wf (OrderItem_delete item db).2 ∧
  headers_kept db (OrderItem_delete item db).2 ∧
  orders (OrderItem_delete item db).2 = orders db.
Proof.
  intros [Hwo [Hnd Hlt]]. split_and!; [|repeat split|reflexivity].
  split; [exact Hwo|]. split; simpl.
  - refine (sublist_NoDup _ _ Hnd _). apply fmap_sublist, sublist_filter.
  - intros r Hr. apply list_elem_of_filter in Hr as [_ Hr]. auto.
Qed.

Lemma add_item_frame env db k order sp qty u note :
  db_wf db → orders db !! k = Some order →
  db_wf (add_item env order sp qty u note db).2 ∧
  headers_kept db (add_item env order sp qty u note db).2.
Proof.
  intros Hwf Hk.
  pose proof (proj1 (proj1 (proj1 Hwf) _ _ Hk)) as Hpk.
  unfold add_item, OrderItem_objects_create. rewrite Hpk.
  match goal with
  | |- context [OrderItem_save env ?i order] => set (it0 := i)
  end.
  destruct (price_lookup_pure it0 db) as [[p|e] Hp].
  - unfold_monad. rewrite (OrderItem_save_steps env it0 order db p Hp).
    destruct (Item_insert_wf db (set_prices (Some p) (p * quantity it0) it0)
                Hwf eq_refl)
      as (it1 & db1 & -> & Hwf1 & Hf1 & Ho1 & _).
    rewrite <- Ho1 in Hk.
    destruct (calculate_total_frame env db1 k order order Hwf1 Hk Hpk
                eq_refl eq_refl)
      as (o2 & db2 & -> & Hwf2 & Hf2 & Hk2 & Hh2 & Hpk2 & Hn2 & _).
    destruct (calculate_total_frame env db2 k o2 o2 Hwf2 Hk2 Hpk2
                eq_refl eq_refl)
      as (o3 & db3 & -> & Hwf3 & Hf3 & _).
    simpl. split; [exact Hwf3|].
    eauto using headers_kept_trans.
  - unfold OrderItem_save. unfold_monad. rewrite Hp. simpl.
    split; [exact Hwf|apply headers_kept_refl].
Qed.

Lemma remove_item_frame env db k order item :
  db_wf db → orders db !! k = Some order →
  db_wf (remove_item env order item db).2 ∧
  headers_kept db (remove_item env order item db).2.
Proof.
  intros Hwf Hk.
  pose proof (proj1 (proj1 (proj1 Hwf) _ _ Hk)) as Hpk.
  unfold remove_item. unfold_monad.
  destruct (OrderItem_delete_wf db item Hwf) as (Hwf1 & Hf1 & Ho1).
  destruct (OrderItem_delete item db) as [[[]|e] db1] eqn:Hdel;
    [|discriminate Hdel].
  simpl in *. rewrite <- Ho1 in Hk.
  destruct (calculate_total_frame env db1 k order order Hwf1 Hk Hpk
              eq_refl eq_refl)
    as (o2 & db2 & -> & Hwf2 & Hf2 & _).
  simpl. split; [exact Hwf2|]. eauto using headers_kept_trans.
Qed.

Lemma step_frame c db :
  db_wf db → db_wf (step c db) ∧ headers_kept db (step c db).
Proof.
  intros Hwf. destruct c as [env op]. unfold step. simpl.
  pose proof (headers_kept_refl db) as Hrefl.
  destruct op as [user oid data|user oid iid|oid sp qty u note|oid iid].
  - unfold add_order_item.
    destruct (get_order_or_404 user oid db) as [order|] eqn:Hget; [|auto].
    apply get_order_or_404_Some in Hget.
    destruct (negb _); [auto|].
    destruct (OrderItemSerializer_is_valid user data db); [|auto].
    rewrite respond_snd. eapply add_item_frame; eauto.
  - unfold remove_order_item.
    destruct (get_order_or_404 user oid db) as [order|] eqn:Hget; [|auto].
    apply get_order_or_404_Some in Hget.
    destruct (negb _); [auto|].
    destruct (get_item_or_404 order iid db) as [item|] eqn:Hitem; [|auto].
    rewrite respond_snd. eapply remove_item_frame; eauto.
  - destruct (orders db !! oid) as [order|] eqn:Hget; [|auto].
    eapply add_item_frame; eauto.
  - destruct (orders db !! oid) as [order|] eqn:Hget; [|auto].
    destruct (get_item_or_404 order iid db) as [item|] eqn:Hitem; [|auto].
    eapply remove_item_frame; eauto.
Qed.

Lemma run_frame ops db :
  db_wf db → db_wf (run ops db) ∧ headers_kept db (run ops db).
Proof.
  revert db. induction ops as [|c ops IH]; intros db Hwf.
  - split; [exact Hwf|apply headers_kept_refl].
  - simpl. destruct (step_frame c db Hwf) as [Hwf1 Hf1].
    destruct (IH _ Hwf1) as [Hwf2 Hf2].
    split; [exact Hwf2|]. eauto using headers_kept_trans.
Qed.

Lemma header_fields o o' :
  header o' = header o →
  pk o' = pk o ∧ order_number o' = order_number o ∧ status o' = status o ∧
  customer o' = customer o ∧ shop o' = shop o ∧
  estimated_completion o' = estimated_completion o ∧
  confirmed_at o' = confirmed_at o ∧ completed_at o' = completed_at o.
Proof.
  intros H. split_and!.
  - exact (f_equal pk H).
  - exact (f_equal order_number H).
  - exact (f_equal status H).
  - exact (f_equal customer H).
  - exact (f_equal shop H).
  - exact (f_equal estimated_completion H).
  - exact (f_equal confirmed_at H).
  - exact (f_equal completed_at H).
Qed.

Import Examples.



(** *** Item rows *)

Lemma items_priced_b_sound db : items_priced_b db = true → items_priced db.
Proof.
  unfold items_priced_b. rewrite forallb_forall. intros Hall r Hr.
  apply list_elem_of_In in Hr. specialize (Hall r Hr).
  destruct (unit_price r) as [u|]; [|discriminate].
  exists u. split; [reflexivity|]. apply Z.eqb_eq. exact Hall.
Qed.

Lemma items_priced_rows db db' :
  order_items db' = order_items db → items_priced db → items_priced db'.
Proof. unfold items_priced. intros ->. auto. Qed.

Lemma OrderItem_save_priced env self order db :
  items_priced db → items_priced (OrderItem_save env self order db).2.
Proof.
  intros Hp. destruct (price_lookup_pure self db) as [[u|e] Hu].
  - rewrite (OrderItem_save_steps env self order db u Hu).
    set (self' := set_prices (Some u) (u * quantity self) self).
    assert (Hself : ∀ k, ∃ v, unit_price (set_item_pk k self') = Some v ∧
              total_price (set_item_pk k self')
              = v * quantity (set_item_pk k self'))
      by (intros k; exists u; split; reflexivity).
    assert (H1 : items_priced (Item_model_save self' db).2).
    { unfold Item_model_save. destruct (item_pk self') as [k|] eqn:Hk.
      - destruct (existsb (has_pk k) (order_items db)); simpl.
        + intros r Hr. simpl in Hr.
          apply list_elem_of_fmap in Hr as [r0 [-> Hr0]].
          destruct (has_pk k r0); [|auto].
          exists u. split; reflexivity.
        + intros r Hr. simpl in Hr. apply elem_of_app in Hr as [Hr|Hr];
            [auto|]. apply list_elem_of_singleton in Hr as ->.
          exists u. split; reflexivity.
      - simpl. intros r Hr. simpl in Hr.
        apply elem_of_app in Hr as [Hr|Hr]; [auto|].
        apply list_elem_of_singleton in Hr as ->. apply Hself. }
    destruct (Item_model_save self' db) as [[s1|e] db1]; [|exact H1].
    simpl in H1.
    pose proof (proj1 (Order_calculate_total_rows env order db1)) as Hrows.
    destruct (Order_calculate_total env order db1) as [[o2|e] db2];
      simpl in *; eapply items_priced_rows; eauto.
  - unfold OrderItem_save. unfold_monad. rewrite Hu. exact Hp.
Qed.

Lemma add_item_priced env order sp qty u note db :
  items_priced db → items_priced (add_item env order sp qty u note db).2.
Proof.
  intros Hp. unfold add_item, OrderItem_objects_create.
  destruct (pk order) as [k|]; [|exact Hp].
  unfold_monad.
  match goal with
  | |- context [OrderItem_save env ?i order db] =>
      pose proof (OrderItem_save_priced env i order db Hp) as H1;
      destruct (OrderItem_save env i order db) as [[[it1 o1]|e] db1]
  end; [|exact H1].
  simpl in H1.
  pose proof (proj1 (Order_calculate_total_rows env o1 db1)) as Hrows.
  destruct (Order_calculate_total env o1 db1) as [[o2|e] db2];
    simpl in *; eapply items_priced_rows; eauto.
Qed.

Lemma remove_item_priced env order item db :
  items_priced db → items_priced (remove_item env order item db).2.
Proof.
  intros Hp. unfold remove_item, OrderItem_delete. unfold_monad.
  set (db1 := set_order_items _ _ db).
  assert (H1 : items_priced db1).
  { intros r Hr. simpl in Hr. apply list_elem_of_filter in Hr as [_ Hr].
    auto. }
  pose proof (proj1 (Order_calculate_total_rows env order db1)) as Hrows.
  destruct (Order_calculate_total env order db1) as [[o2|e] db2];
    exact (items_priced_rows db1 _ Hrows H1).
Qed.

Lemma step_priced c db : items_priced db → items_priced (step c db).
Proof.
  intros Hp. destruct c as [env op]. unfold step. simpl.
  destruct op as [user oid data|user oid iid|oid sp qty u note|oid iid].
  - unfold add_order_item.
    destruct (get_order_or_404 user oid db) as [order|]; [|auto].
    destruct (negb _); [auto|].
    destruct (OrderItemSerializer_is_valid user data db); [|auto].
    rewrite respond_snd. apply add_item_priced. exact Hp.
  - unfold remove_order_item.
    destruct (get_order_or_404 user oid db) as [order|]; [|auto].
    destruct (negb _); [auto|].
    destruct (get_item_or_404 order iid db) as [item|]; [|auto].
    rewrite respond_snd. apply remove_item_priced. exact Hp.
  - destruct (orders db !! oid) as [order|]; [|auto].
    apply add_item_priced. exact Hp.
  - destruct (orders db !! oid) as [order|]; [|auto].
    destruct (get_item_or_404 order iid db) as [item|]; [|auto].
    apply remove_item_priced. exact Hp.
Qed.

(** Whatever item operations run, and whether or not they fail half way,
    every stored item keeps a unit price and a total equal to that price
    times its quantity. *)
Theorem item_rows_priced (ops : list (Env * ItemOp)) (db : DB) :
  items_priced db →
  ∀ r, r ∈ order_items (run ops db) →
    ∃ u, unit_price r = Some u ∧ total_price r = u * quantity r.
Proof.
  revert db. induction ops as [|c ops IH]; intros db Hp; [exact Hp|].
  simpl. apply IH. apply step_priced. exact Hp.
Qed.

Lemma item_rows_priced_witness :
  items_priced shop_db ∧
  ∀ r, r ∈ order_items (run item_ops shop_db) →
    ∃ u, unit_price r = Some u ∧ total_price r = u * quantity r.
Proof.
  assert (Hp : items_priced shop_db)
    by (apply items_priced_b_sound; vm_compute; reflexivity).
  split; [exact Hp|]. exact (item_rows_priced item_ops shop_db Hp).
Defined.

(** *** Recomputation and removal *)



Lemma set_totals_own o : set_totals (subtotal o) (total_amount o) o = o.
Proof. destruct o. reflexivity. Qed.



(** *** Creating an order with its items *)

Lemma order_key_fresh_b_sound db : order_key_fresh_b db = true → order_key_fresh db.
Proof.
  unfold order_key_fresh_b. intros [H1 H2]%andb_true_iff.
  rewrite forallb_forall in H1, H2. split.
  - intros k o Hk.
    assert (Hin : In (k, o) (map_to_list (orders db)))
      by (apply list_elem_of_In, elem_of_map_to_list; exact Hk).
    apply H1 in Hin. apply negb_true_iff, Nat.eqb_neq in Hin. exact Hin.
  - intros r Hr. apply list_elem_of_In in Hr. apply H2 in Hr.
    apply negb_true_iff, Nat.eqb_neq in Hr. exact Hr.
Qed.

(** One [OrderItem.objects.create] on a stored order, the price being
    taken from the service price. *)
Lemma OrderItem_create_spec env db k order sp spr qty note :
  db_wf db → totals_consistent db → orders db !! k = Some order →
  service_prices db !! sp = Some spr →
  ∃ it o1 db1,
    OrderItem_objects_create env order sp qty None note db
      = (Ok (it, o1), db1) ∧
    db_wf db1 ∧ totals_consistent db1 ∧ headers_kept db db1 ∧
    orders db1 !! k = Some o1 ∧ header o1 = header order ∧
    subtotal o1 = subtotal order + price spr * qty ∧
    order_items db1 = (order_items db ++ [it])%list ∧
    item_order it = k ∧ unit_price it = Some (price spr) ∧
    quantity it = qty.
Proof.
  intros Hwf Hcons Hk Hsp.
  pose proof (proj1 (proj1 (proj1 Hwf) _ _ Hk)) as Hpk.
  destruct (Hcons _ _ Hk) as [Hsub _].
  unfold OrderItem_objects_create. rewrite Hpk.
  set (it0 := {| item_pk := None; item_order := k; service_price := sp;
                 quantity := qty; unit_price := None; total_price := 0;
                 notes := note |}).
  rewrite (OrderItem_save_steps env it0 order db (price spr)).
  2:{ simpl. unfold service_price_price. simpl. rewrite Hsp. reflexivity. }
  set (it0' := set_prices _ _ it0).
  destruct (Item_insert_wf db it0' Hwf eq_refl)
    as (it1 & dbA & Hsave & HwfA & HfA & HoA & Hit1 & HrowsA & _).
  destruct (Item_insert_keeps_others db k it0' Hwf
              (totals_consistent_except k db Hcons) eq_refl eq_refl)
    as (it1' & dbA' & Hsave' & _ & HcA & _).
  rewrite Hsave in Hsave'. injection Hsave' as <- <-.
  rewrite Hsave. rewrite <- HoA in Hk.
  destruct (recompute_restores env dbA k order order HwfA Hk Hpk eq_refl HcA)
    as (o2 & dbB & Hcalc & HwfB & HcB & HkB & HrowsB & _).
  destruct (calculate_total_frame env dbA k order order HwfA Hk Hpk eq_refl
              eq_refl)
    as (o2' & dbB' & Hcalc' & _ & HfB & _ & HhB & _).
  rewrite Hcalc in Hcalc'. injection Hcalc' as <- <-.
  pose proof (Order_calculate_total_stored env dbA k order order
                (proj1 HwfA) Hk Hpk eq_refl) as Hexp.
  simpl in Hexp. rewrite Hcalc in Hexp. injection Hexp as Ho2 _.
  rewrite Hcalc. exists it1, o2, dbB. split; [reflexivity|].
  split_and!; try assumption.
  - eauto using headers_kept_trans.
  - rewrite Ho2. simpl. unfold Order_items. rewrite HrowsA, filter_app.
    rewrite (filter_cons_True _ it1 []) by (rewrite Hit1; exact Hpk).
    rewrite fmap_app, sum_Z_app, Hsub. unfold Order_items.
    rewrite Hit1. simpl. lia.
  - rewrite HrowsB. exact HrowsA.
  - rewrite Hit1. reflexivity.
  - rewrite Hit1. reflexivity.
  - rewrite Hit1. reflexivity.
Qed.

Lemma create_items_spec env items_data : ∀ db k order,
  db_wf db → totals_consistent db → orders db !! k = Some order →
  prices_exist db items_data = true →
  ∃ order' db',
    create_items env order items_data db = (Ok order', db') ∧
    db_wf db' ∧ totals_consistent db' ∧ headers_kept db db' ∧
    orders db' !! k = Some order' ∧ header order' = header order ∧
    subtotal order' = subtotal order + items_value db items_data ∧
    length (order_items db') = (length (order_items db) + length items_data)%nat.
Proof.
  induction items_data as [|d rest IH]; intros db k order Hwf Hcons Hk Hex.
  - exists order, db. split; [reflexivity|].
    split_and!; try assumption; try reflexivity.
    + apply headers_kept_refl.
    + unfold items_value. simpl. lia.
    + simpl. lia.
  - simpl in Hex. apply andb_true_iff in Hex as [Hd Hrest].
    apply bool_decide_eq_true in Hd. destruct Hd as [spr Hspr].
    simpl. unfold_monad. unfold ServicePrice_objects_get. rewrite Hspr.
    destruct (OrderItem_create_spec env db k order (d_service_price_id d)
                spr (d_quantity d) (d_notes d) Hwf Hcons Hk Hspr)
      as (it & o1 & db1 & -> & Hwf1 & Hc1 & Hf1 & Hk1 & Hh1 & Hs1 & Hr1 & _).
    assert (Hp1 : service_prices db1 = service_prices db)
      by (destruct Hf1 as (_ & _ & _ & ?); assumption).
    assert (Hex1 : prices_exist db1 rest = true)
      by (unfold prices_exist; rewrite Hp1; exact Hrest).
    destruct (IH db1 k o1 Hwf1 Hc1 Hk1 Hex1)
      as (o2 & db2 & -> & Hwf2 & Hc2 & Hf2 & Hk2 & Hh2 & Hs2 & Hl2).
    exists o2, db2. split; [reflexivity|].
    split_and!; try assumption.
    + eauto using headers_kept_trans.
    + congruence.
    + rewrite Hs2, Hs1. unfold items_value. rewrite Hp1, fmap_cons.
      rewrite sum_Z_cons, Hspr. lia.
    + rewrite Hl2, Hr1, length_app. simpl. lia.
Qed.

Lemma Order_objects_create_free env c s db :
  number_taken (generate_order_number env s) None (orders db) = false →
  let o := set_pk (Some (next_order_id db))
             (new_order c s (generate_order_number env s)) in
  Order_objects_create env c s db =
    (Ok o, set_orders (<[next_order_id db := o]> (orders db))
             (S (next_order_id db)) db).
Proof.
  intros Hfree o. unfold Order_objects_create, Order_save, Model_save. simpl.
  rewrite Hfree. reflexivity.
Qed.

(** What [OrderCreateSerializer.create] stores for a shop owner. *)
Lemma OrderCreateSerializer_create_spec env user s items_data db :
  db_wf db → totals_consistent db → order_key_fresh db →
  user_shop user = Some s →
  number_taken (generate_order_number env s) None (orders db) = false →
  prices_exist db items_data = true →
  ∃ order db',
    OrderCreateSerializer_create env user items_data db = (Ok order, db') ∧
    orders db' !! next_order_id db = Some order ∧
    pk order = Some (next_order_id db) ∧
    customer order = user_id user ∧ shop order = s ∧
    status order = "pending" ∧
    order_number order = generate_order_number env s ∧
    subtotal order = items_value db items_data ∧
    total_amount order = subtotal order ∧
    length (order_items db') = (length (order_items db) + length items_data)%nat ∧
    db_wf db' ∧ totals_consistent db'.
Proof.
  intros Hwf Hcons [Hfresh Hfk] Hshop Hfree Hex.
  unfold OrderCreateSerializer_create. rewrite Hshop. unfold_monad.
  pose proof (created_order_consistent env (user_id user) s db Hwf Hcons
                Hfresh Hfk) as Hnew.
  rewrite (Order_objects_create_free env (user_id user) s db Hfree) in Hnew |- *.
  set (o0 := set_pk _ _) in *. set (db0 := set_orders _ _ db) in *.
  destruct Hnew as (Hwf0 & Hc0 & Hk0 & _).
  assert (Hex0 : prices_exist db0 items_data = true) by exact Hex.
  destruct (create_items_spec env items_data db0 (next_order_id db) o0
              Hwf0 Hc0 Hk0 Hex0)
    as (o1 & db1 & -> & Hwf1 & Hc1 & Hf1 & Hk1 & Hh1 & Hs1 & Hl1).
  destruct (header_fields _ _ Hh1) as (Hpk & Hnum & Hst & Hcu & Hsh & _).
  exists o1, db1. split; [reflexivity|].
  split_and!.
  - exact Hk1.
  - rewrite Hpk. reflexivity.
  - rewrite Hcu. reflexivity.
  - rewrite Hsh. reflexivity.
  - rewrite Hst. reflexivity.
  - rewrite Hnum. reflexivity.
  - rewrite Hs1. simpl. unfold items_value. reflexivity.
  - exact (proj2 (Hc1 _ _ Hk1)).
  - exact Hl1.
  - exact Hwf1.
  - exact Hc1.
Qed.



End Frames.

(** ** The shape of a generated order number *)

Section Numbers.

Lemma string_length_app (a b : string) :
  String.length (a ++ b) = (String.length a + String.length b)%nat.
Proof. induction a as [|c a IH]; simpl; [reflexivity|]. rewrite IH. reflexivity. Qed.

Lemma substring_length (s : string) : ∀ n m,
  (n + m ≤ String.length s)%nat → String.length (substring n m s) = m.
Proof.
  induction s as [|c s IH]; intros n m H; simpl in H.
  - destruct n, m; simpl; try reflexivity; lia.
  - destruct n as [|n].
    + destruct m as [|m]; simpl; [reflexivity|]. rewrite IH; [reflexivity|lia].
    + simpl. apply IH. lia.
Qed.

Lemma substring_prefix (a b : string) :
  substring 0 (String.length a) (a ++ b) = a.
Proof.
  induction a as [|c a IH]; simpl.
  - destruct b; reflexivity.
  - rewrite IH. reflexivity.
Qed.

Lemma pretty_N_go_digits (k : nat) : ∀ x s,
  (10 ^ N.of_nat k ≤ x)%N →
  (k + 1 + String.length s ≤ String.length (pretty_N_go x s))%nat.
Proof.
  induction k as [|k IH]; intros x s Hx.
  - simpl in Hx. rewrite pretty_N_go_step by lia.
    etrans; [|apply pretty_N_go_length]. simpl. lia.
  - rewrite Nat2N.inj_succ, N.pow_succ_r' in Hx.
    assert (0 < 10 ^ N.of_nat k)%N by (apply N.neq_0_lt_0, N.pow_nonzero; lia).
    rewrite pretty_N_go_step by lia.
    etrans; [|apply IH].
    + simpl. lia.
    + apply N.div_le_lower_bound; lia.
Qed.

Lemma pretty_Z_long (z : Z) :
  1000000000 ≤ z → (10 ≤ String.length (pretty z))%nat.
Proof.
  intros Hz. destruct z as [|p|p]; try lia.
  unfold pretty, pretty_Z, pretty, pretty_positive, pretty, pretty_N.
  destruct (decide (N.pos p = 0%N)) as [He|_]; [discriminate|].
  pose proof (pretty_N_go_digits 9 (N.pos p) "") as H.
  simpl in H. apply H. lia.
Qed.

Lemma pretty_Z_two_digits (r : Z) :
  10 ≤ r ≤ 99 → String.length (pretty r) = 2%nat.
Proof.
  intros Hr. destruct r as [|p|p]; try lia.
  unfold pretty, pretty_Z, pretty, pretty_positive, pretty, pretty_N.
  destruct (decide (N.pos p = 0%N)) as [He|_]; [discriminate|].
  assert (Hx : (10 ≤ N.pos p ≤ 99)%N) by lia.
  assert (H1 : (1 ≤ N.pos p `div` 10 ≤ 9)%N).
  { split.
    - apply N.div_le_lower_bound; lia.
    - apply N.lt_succ_r. apply N.Div0.div_lt_upper_bound. lia. }
  rewrite pretty_N_go_step by lia.
  rewrite pretty_N_go_step by lia.
  rewrite (N.div_small (N.pos p `div` 10) 10) by lia.
  rewrite pretty_N_go_0. reflexivity.
Qed.

(** For a clock past its first 1000 seconds and a suffix drawn from
    [10..99], the generated number is the shop id followed by twelve
    characters: ten of the timestamp and the two of the suffix. *)
Theorem order_number_shape env (shop_id : nat) :
  1000000000 ≤ time_us env → 10 ≤ randint env ≤ 99 →
  String.length (generate_order_number env shop_id)
    = (String.length (pretty shop_id) + 12)%nat ∧
  substring 0 (String.length (pretty shop_id))
    (generate_order_number env shop_id) = pretty shop_id.
Proof.
  intros Ht Hr. unfold generate_order_number. split.
  - rewrite !string_length_app. unfold last_chars.
    pose proof (pretty_Z_long _ Ht) as Hlen.
    rewrite substring_length by lia.
    rewrite (pretty_Z_two_digits _ Hr). lia.
  - apply substring_prefix.
Qed.

Lemma order_number_shape_witness :
  1000000000 ≤ time_us Examples.env0 ∧ 10 ≤ randint Examples.env0 ≤ 99 ∧
  String.length (generate_order_number Examples.env0 7)
    = (String.length (pretty 7%nat) + 12)%nat.
Proof.
  assert (Ht : 1000000000 ≤ time_us Examples.env0) by (vm_compute; discriminate).
  assert (Hr : 10 ≤ randint Examples.env0 ≤ 99)
    by (split; vm_compute; discriminate).
  split; [exact Ht|]. split; [exact Hr|].
  exact (proj1 (order_number_shape Examples.env0 7 Ht Hr)).
Defined.

End Numbers.

(** ** Status updates *)

Section Updates.

(** The two writes of [update] on a stored order. *)
Lemma update_stored env user db k instance vd :
  orders_wf (orders db) → orders db !! k = Some instance →
  let inst1 := with_validated vd instance in
  let row := {| h_order := Some k; h_status := status inst1;
                changed_by := user; changed_at := now env;
                h_notes := default "" (vd_notes vd) |} in
  let inst2 :=
    if String.eqb (status inst1) "confirmed"
    then set_confirmed_at (Some (now env)) inst1
    else if String.eqb (status inst1) "completed"
    then set_completed_at (Some (now env)) inst1
    else inst1 in
  update env user instance vd db =
    if String.eqb (status instance) (status inst1)
    then (Ok inst1, set_orders (<[k := inst1]> (orders db)) (next_order_id db) db)
    else (Ok inst2,
          set_orders (<[k := inst2]> (orders db)) (next_order_id db)
            (set_status_history (status_history db ++ [row]) db)).
Proof.
  intros Hwf Hk. cbv zeta.
  destruct (with_validated_keys vd instance) as (Hpk1 & Hnum1 & Hst1).
  pose proof (proj1 (proj1 Hwf _ _ Hk)) as Hpk.
  unfold update, ModelSerializer_update. unfold_monad.
  set (inst1 := with_validated vd instance) in *.
  rewrite <- Hst1.
  set (inst2 := if String.eqb (status inst1) "confirmed" then _ else _).
  rewrite (Order_save_stored env db k instance inst1 Hwf Hk
             (eq_trans Hpk1 Hpk) Hnum1).
  destruct (String.eqb (status instance) (status inst1)); simpl; [reflexivity|].
  set (db1 := set_status_history _ _).
  assert (Hwf1 : orders_wf (orders db1))
    by (simpl; eapply orders_wf_insert; eauto; congruence).
  assert (Hk1 : orders db1 !! k = Some inst1) by apply lookup_insert_eq.
  assert (Hpk2 : pk inst2 = Some k).
  { unfold inst2. destruct (String.eqb _ "confirmed"); [exact (eq_trans Hpk1 Hpk)|].
    destruct (String.eqb _ "completed"); exact (eq_trans Hpk1 Hpk). }
  assert (Hnum2 : order_number inst2 = order_number inst1).
  { unfold inst2. destruct (String.eqb _ "confirmed"); [reflexivity|].
    destruct (String.eqb _ "completed"); reflexivity. }
  match goal with |- Order_save env ?i db1 = _ => change i with inst2 end.
  rewrite (Order_save_stored env db1 k inst1 inst2 Hwf1 Hk1 Hpk2 Hnum2).
  unfold db1. simpl. rewrite insert_insert_eq.
  rewrite (eq_trans Hpk1 Hpk). reflexivity.
Qed.

Lemma with_validated_ledger vd o :
  ledger_part (with_validated vd o) = ledger_part o.
Proof.
  unfold with_validated.
  destruct (vd_status vd), (vd_estimated_completion vd); reflexivity.
Qed.

Lemma apply_update_frame r db :
  orders_wf (orders db) →
  orders_wf (orders (apply_update r db)) ∧
  ledger_part <$> orders (apply_update r db) = ledger_part <$> orders db ∧
  order_items (apply_update r db) = order_items db ∧
  service_prices (apply_update r db) = service_prices db ∧
  status_history db `prefix_of` status_history (apply_update r db) ∧
  (length (status_history (apply_update r db))
   ≤ S (length (status_history db)))%nat.
Proof.
  intros Hwf. unfold apply_update.
  destruct (orders db !! sr_order r) as [instance|] eqn:Hk.
  2:{ split_and!; try reflexivity; [exact Hwf|lia]. }
  rewrite (update_stored (sr_env r) (sr_user r) db (sr_order r) instance
             (sr_data r) Hwf Hk).
  destruct (with_validated_keys (sr_data r) instance) as (Hpk1 & Hnum1 & _).
  pose proof (with_validated_ledger (sr_data r) instance) as Hl1.
  set (inst1 := with_validated (sr_data r) instance) in *.
  destruct (String.eqb (status instance) (status inst1)); simpl.
  - split_and!; try reflexivity.
    + eapply orders_wf_insert; eauto.
      rewrite Hpk1. exact (proj1 (proj1 Hwf _ _ Hk)).
    + rewrite fmap_insert. apply insert_id.
      rewrite lookup_fmap, Hk. simpl. f_equal. symmetry. exact Hl1.
    + lia.
  - match goal with
    | |- context [<[sr_order r := ?i]> (orders db)] => set (inst2 := i)
    end.
    assert (Hl2 : ledger_part inst2 = ledger_part instance).
    { unfold inst2. destruct (String.eqb _ "confirmed"); [exact Hl1|].
      destruct (String.eqb _ "completed"); exact Hl1. }
    split_and!; try reflexivity.
    + eapply orders_wf_insert; eauto.
      * pose proof (f_equal (λ t, t.1.1.1.1.1) Hl2) as H. simpl in H.
        rewrite H. exact (proj1 (proj1 Hwf _ _ Hk)).
      * exact (f_equal (λ t, t.1.1.2) Hl2).
    + rewrite fmap_insert. apply insert_id.
      rewrite lookup_fmap, Hk. simpl. f_equal. symmetry. exact Hl2.
    + apply prefix_app_r. reflexivity.
    + rewrite length_app. simpl. lia.
Qed.

(** Status updates only append to the history and only write the status
    columns: after any sequence of them every order has the number,
    customer, shop and totals it had, no order is added or lost, item
    rows and prices are untouched, the old history is a prefix of the new
    one, and each request adds at most one row. *)
Theorem status_updates_frame (rs : list StatusRequest) (db : DB) :
  orders_wf (orders db) →
  orders_wf (orders (run_updates rs db)) ∧
  ledger_part <$> orders (run_updates rs db) = ledger_part <$> orders db ∧
  order_items (run_updates rs db) = order_items db ∧
  service_prices (run_updates rs db) = service_prices db ∧
  status_history db `prefix_of` status_history (run_updates rs db) ∧
  (length (status_history (run_updates rs db))
   ≤ length (status_history db) + length rs)%nat.
Proof.
  revert db. induction rs as [|r rs IH]; intros db Hwf.
  - simpl. split_and!; try reflexivity; [exact Hwf|lia].
  - simpl.
    destruct (apply_update_frame r db Hwf) as (Hw1 & Hl1 & Hi1 & Hp1 & Hh1 & Hn1).
    destruct (IH _ Hw1) as (Hw2 & Hl2 & Hi2 & Hp2 & Hh2 & Hn2).
    split_and!; try congruence.
    + etrans; eassumption.
    + lia.
Qed.

Lemma status_updates_frame_witness :
  orders_wf (orders Examples.shop_db) ∧
  status_history Examples.shop_db `prefix_of`
    status_history
      (run_updates
         [{| sr_env := Examples.env0; sr_user := 9; sr_order := 1;
             sr_data := Examples.to_completed |}] Examples.shop_db).
Proof.
  assert (Hwf : orders_wf (orders Examples.shop_db))
    by (apply orders_wf_b_sound; vm_compute; reflexivity).
  split; [exact Hwf|].
  exact (proj1 (proj2 (proj2 (proj2 (proj2
           (status_updates_frame
              [{| sr_env := Examples.env0; sr_user := 9; sr_order := 1;
                  sr_data := Examples.to_completed |}]
              Examples.shop_db Hwf)))))).
Defined.



End Updates.

End OrderFacts.

Module CustomerFacts.
Import Customers.

Lemma profiles_wf_b_sound db : profiles_wf_b db = true → profiles_wf db.
Proof.
  unfold profiles_wf_b. rewrite forallb_forall. intros Hall uid p Hp.
  assert (Hin : In (uid, p) (map_to_list (profiles db)))
    by (apply list_elem_of_In, elem_of_map_to_list; exact Hp).
  apply Hall in Hin. apply bool_decide_eq_true in Hin. exact Hin.
Qed.

Lemma ledger_consistent_b_sound db :
  ledger_consistent_b db = true → ledger_consistent db.
Proof.
  unfold ledger_consistent_b. rewrite forallb_forall. intros Hall uid p Hp.
  assert (Hin : In (uid, p) (map_to_list (profiles db)))
    by (apply list_elem_of_In, elem_of_map_to_list; exact Hp).
  apply Hall in Hin. apply Z.eqb_eq in Hin. exact Hin.
Qed.

Lemma balances_nonneg_b_sound db :
  balances_nonneg_b db = true → balances_nonneg db.
Proof.
  unfold balances_nonneg_b. rewrite forallb_forall. intros Hall uid p Hp.
  assert (Hin : In (uid, p) (map_to_list (profiles db)))
    by (apply list_elem_of_In, elem_of_map_to_list; exact Hp).
  apply Hall in Hin. apply Z.leb_le in Hin. exact Hin.
Qed.

(** One more ledger row changes the sum of its customer only. *)
Lemma ledger_sum_append uid tbl rows t :
  ledger_sum uid {| profiles := tbl; loyalty_transactions := rows ++ [t] |} =
  ledger_sum uid {| profiles := tbl; loyalty_transactions := rows |}
  + (if decide (lt_customer t = uid) then points t else 0).
Proof.
  unfold ledger_sum. simpl. rewrite filter_app, fmap_app, sum_Z_app.
  f_equal. destruct (decide (lt_customer t = uid)) as [He|Hne].
  - rewrite (filter_cons_True (λ r, lt_customer r = uid) t [] He). simpl. lia.
  - rewrite (filter_cons_False (λ r, lt_customer r = uid) t [] Hne).
    reflexivity.
Qed.

Lemma ledger_sum_profiles uid tbl1 tbl2 rows :
  ledger_sum uid {| profiles := tbl1; loyalty_transactions := rows |} =
  ledger_sum uid {| profiles := tbl2; loyalty_transactions := rows |}.
Proof. reflexivity. Qed.

(** What an earn does to a profile whose row is stored. *)
Lemma add_loyalty_points_stored self row pts d db :
  profiles db !! user self = Some row →
  add_loyalty_points self pts d db =
    (Ok (set_loyalty_points (loyalty_points self + pts) self),
     {| profiles :=
          <[user self := set_loyalty_points (loyalty_points self + pts) row]>
            (profiles db);
        loyalty_transactions :=
          loyalty_transactions db ++ [earned (user self) pts d] |}).
Proof.
  intros Hrow. unfold add_loyalty_points, save_update_fields,
    LoyaltyTransaction_objects_create. unfold_monad. simpl. rewrite Hrow.
  reflexivity.
Qed.

(** What a redeem does: nothing when the balance is short, otherwise the
    mirror image of an earn. *)
Lemma redeem_loyalty_points_short self pts d db :
  loyalty_points self < pts →
  redeem_loyalty_points self pts d db = (Ok (false, self), db).
Proof.
  intros Hlt. unfold redeem_loyalty_points.
  destruct (Z.leb_spec pts (loyalty_points self)) as [Hle|_]; [lia|].
  reflexivity.
Qed.

Lemma redeem_loyalty_points_stored self row pts d db :
  pts ≤ loyalty_points self → profiles db !! user self = Some row →
  redeem_loyalty_points self pts d db =
    (Ok (true, set_loyalty_points (loyalty_points self - pts) self),
     {| profiles :=
          <[user self := set_loyalty_points (loyalty_points self - pts) row]>
            (profiles db);
        loyalty_transactions :=
          loyalty_transactions db ++ [redeemed (user self) pts d] |}).
Proof.
  intros Hle Hrow. unfold redeem_loyalty_points.
  destruct (Z.leb_spec pts (loyalty_points self)) as [_|Hlt]; [|lia].
  unfold save_update_fields, LoyaltyTransaction_objects_create.
  unfold_monad. simpl. rewrite Hrow. reflexivity.
Qed.

(** A write of [delta] points to the row of [uid] together with a ledger
    row of [delta] points keeps cache and ledger in step. *)
Lemma write_keeps_consistent db uid p delta t :
  profiles_wf db → ledger_consistent db →
  profiles db !! uid = Some p →
  lt_customer t = uid → points t = delta →
  let db' := {| profiles :=
                  <[uid := set_loyalty_points (loyalty_points p + delta) p]>
                    (profiles db);
                loyalty_transactions := loyalty_transactions db ++ [t] |} in
  profiles_wf db' ∧ ledger_consistent db'.
Proof.
  intros Hwf Hcons Hp Hcust Hpts db'. split.
  - intros uid' p' Hp'. simpl in Hp'.
    destruct (decide (uid = uid')) as [->|Hne].
    + rewrite lookup_insert_eq in Hp'. injection Hp' as <-. simpl. eauto.
    + rewrite lookup_insert_ne in Hp' by exact Hne. eauto.
  - intros uid' p' Hp'. unfold db'. rewrite ledger_sum_append.
    rewrite (ledger_sum_profiles uid' _ (profiles db)).
    simpl in Hp'. destruct (decide (uid = uid')) as [->|Hne].
    + rewrite lookup_insert_eq in Hp'. injection Hp' as <-. simpl.
      rewrite decide_True by exact Hcust.
      specialize (Hcons _ _ Hp). destruct db. simpl in *. lia.
    + rewrite lookup_insert_ne in Hp' by exact Hne.
      rewrite decide_False by congruence.
      specialize (Hcons _ _ Hp'). destruct db. simpl in *. lia.
Qed.

Lemma step_keeps_consistent op db :
  profiles_wf db → ledger_consistent db →
  profiles_wf (step op db) ∧ ledger_consistent (step op db).
Proof.
  intros Hwf Hcons. destruct op as [uid pts d|uid pts d]; simpl.
  - destruct (profiles db !! uid) as [p|] eqn:Hp; [|auto].
    pose proof (Hwf _ _ Hp) as Hu. rewrite <- Hu in Hp.
    rewrite (add_loyalty_points_stored p p pts d db Hp). simpl.
    rewrite Hu in *.
    apply (write_keeps_consistent db uid p pts (earned uid pts d));
      auto.
  - destruct (profiles db !! uid) as [p|] eqn:Hp; [|auto].
    pose proof (Hwf _ _ Hp) as Hu. rewrite <- Hu in Hp.
    destruct (Z.le_gt_cases pts (loyalty_points p)) as [Hle|Hgt].
    + rewrite (redeem_loyalty_points_stored p p pts d db Hle Hp). simpl.
      rewrite Hu in *.
      apply (write_keeps_consistent db uid p (- pts) (redeemed uid pts d));
        auto.
    + rewrite (redeem_loyalty_points_short p pts d db Hgt). auto.
Qed.

Lemma run_keeps_consistent ops db :
  profiles_wf db → ledger_consistent db →
  profiles_wf (run ops db) ∧ ledger_consistent (run ops db).
Proof.
  revert db. induction ops as [|op ops IH]; intros db Hwf Hcons.
  - split; assumption.
  - simpl. destruct (step_keeps_consistent op db Hwf Hcons). apply IH; auto.
Qed.

Lemma step_keeps_nonneg op db :
  profiles_wf db → balances_nonneg db → is_redeem op = true →
  profiles_wf (step op db) ∧ balances_nonneg (step op db).
Proof.
  intros Hwf Hnn Hop. destruct op as [uid pts d|uid pts d]; [discriminate|].
  simpl. destruct (profiles db !! uid) as [p|] eqn:Hp; [|auto].
  pose proof (Hwf _ _ Hp) as Hu. rewrite <- Hu in Hp.
  destruct (Z.le_gt_cases pts (loyalty_points p)) as [Hle|Hgt].
  - rewrite (redeem_loyalty_points_stored p p pts d db Hle Hp). simpl.
    split.
    + intros uid' p' Hp'. simpl in Hp'.
      destruct (decide (user p = uid')) as [<-|Hne].
      * rewrite lookup_insert_eq in Hp'. injection Hp' as <-. reflexivity.
      * rewrite lookup_insert_ne in Hp' by exact Hne. eauto.
    + intros uid' p' Hp'. simpl in Hp'.
      destruct (decide (user p = uid')) as [<-|Hne].
      * rewrite lookup_insert_eq in Hp'. injection Hp' as <-. simpl. lia.
      * rewrite lookup_insert_ne in Hp' by exact Hne. eauto.
  - rewrite (redeem_loyalty_points_short p pts d db Hgt). auto.
Qed.

Lemma run_keeps_nonneg ops db :
  profiles_wf db → balances_nonneg db → forallb is_redeem ops = true →
  balances_nonneg (run ops db).
Proof.
  revert db. induction ops as [|op ops IH]; intros db Hwf Hnn Hops.
  - exact Hnn.
  - simpl in Hops. apply andb_true_iff in Hops as [Hop Hops]. simpl.
    destruct (step_keeps_nonneg op db Hwf Hnn Hop). apply IH; auto.
Qed.

Section Claims.
Import Examples.

(** The scenario of the specification, one call after the other: of two
    redemptions of 30 from a balance of 50 the first succeeds, the balance
    ends at 20 and the ledger has one negative row. *)
Example redeem_twice :
  let db := run [Redeem 3 30 "x"; Redeem 3 30 "y"] ledger50 in
  (loyalty_points <$> profiles db !! 3%nat) = Some 20 ∧
  (points <$> loyalty_transactions db) = [50; -30].
Proof. split; vm_compute; reflexivity. Qed.



(** C5. A redeem of a positive amount above the balance fails and changes
    neither the profile nor the ledger (the endpoint answers 400); a
    redeem within the balance takes exactly the requested points; and no
    sequence of redeems of positive amounts makes a balance negative. *)
Theorem redeem_never_overdraws (db : DB) (self : CustomerProfile) (pts : Z)
    (d : string) (ops : list LedgerOp) :
  0 < pts → profiles_wf db → balances_nonneg db →
  profiles db !! user self = Some self →
  (loyalty_points self < pts →
     redeem_loyalty_points self pts d db = (Ok (false, self), db) ∧
     ∃ msg, redeem_view (user self) pts d db = (HTTP_400_BAD_REQUEST msg, db)) ∧
  (pts ≤ loyalty_points self →
     ∃ self' db',
       redeem_loyalty_points self pts d db = (Ok (true, self'), db') ∧
       loyalty_points self' = loyalty_points self - pts ∧
       0 ≤ loyalty_points self' ∧
       profiles db' !! user self = Some self' ∧
       loyalty_transactions db' =
         (loyalty_transactions db ++ [redeemed (user self) pts d])%list) ∧
  (forallb is_redeem ops = true → balances_nonneg (run ops db)).
Proof.
  intros Hpos Hwf Hnn Hself. split_and!.
  - intros Hlt. split; [apply redeem_loyalty_points_short; exact Hlt|].
    unfold redeem_view, LoyaltyRedemptionSerializer_is_valid. rewrite Hself.
    destruct (Z.ltb_spec (loyalty_points self) pts) as [_|Hge]; [|lia].
    rewrite andb_false_r. eexists. reflexivity.
  - intros Hle.
    rewrite (redeem_loyalty_points_stored self self pts d db Hle Hself).
    eexists _, _. split; [reflexivity|]. simpl.
    split_and!; [reflexivity|lia|apply lookup_insert_eq|reflexivity].
  - intros Hops. apply run_keeps_nonneg; assumption.
Qed.

(** C5 on a redeem of 60 from a balance of 50. *)
Lemma redeem_never_overdraws_witness :
  0 < 60 ∧ profiles_wf ledger50 ∧ balances_nonneg ledger50 ∧
  redeem_loyalty_points
    {| user := 3; loyalty_points := 50; membership_tier := "bronze";
       total_spent := 0; total_orders := 0 |} 60 "gift" ledger50
  = (Ok (false,
         {| user := 3; loyalty_points := 50; membership_tier := "bronze";
            total_spent := 0; total_orders := 0 |}), ledger50) ∧
  balances_nonneg (run [Redeem 3 30 "x"; Redeem 3 30 "y"] ledger50).
Proof.
  assert (Hwf : profiles_wf ledger50)
    by (apply profiles_wf_b_sound; vm_compute; reflexivity).
  assert (Hnn : balances_nonneg ledger50)
    by (apply balances_nonneg_b_sound; vm_compute; reflexivity).
  pose proof (redeem_never_overdraws ledger50
                {| user := 3; loyalty_points := 50;
                   membership_tier := "bronze"; total_spent := 0;
                   total_orders := 0 |} 60 "gift"
                [Redeem 3 30 "x"; Redeem 3 30 "y"]
                eq_refl Hwf Hnn eq_refl) as (Hshort & _ & Hseq).
  split; [reflexivity|]. split; [exact Hwf|]. split; [exact Hnn|].
  split; [apply Hshort; reflexivity|apply Hseq; reflexivity].
Defined.

End Claims.


Section Ledger.

Lemma save_points_rest v self db :
  profile_rest <$> profiles (save_update_fields (set_loyalty_points v) self db).2
    = profile_rest <$> profiles db ∧
  loyalty_transactions (save_update_fields (set_loyalty_points v) self db).2
    = loyalty_transactions db.
Proof.
  unfold save_update_fields.
  destruct (profiles db !! user self) as [row|] eqn:Hrow; simpl;
    [|split; reflexivity].
  split; [|reflexivity]. rewrite fmap_insert.
  apply insert_id. rewrite lookup_fmap, Hrow. reflexivity.
Qed.

Lemma step_rest op db :
  profile_rest <$> profiles (step op db) = profile_rest <$> profiles db ∧
  loyalty_transactions db `prefix_of` loyalty_transactions (step op db).
Proof.
  destruct op as [uid pts d|uid pts d]; simpl;
    (destruct (profiles db !! uid) as [p|]; [|split; reflexivity]).
  - unfold add_loyalty_points, LoyaltyTransaction_objects_create.
    unfold_monad.
    pose proof (save_points_rest (loyalty_points p + pts)
                  (set_loyalty_points (loyalty_points p + pts) p) db) as [H1 H2].
    simpl in *.
    destruct (save_update_fields _ _ db) as [[[]|e] db1]; simpl in *.
    + split; [exact H1|]. rewrite H2. apply prefix_app_r. reflexivity.
    + split; [exact H1|]. rewrite H2. reflexivity.
  - unfold redeem_loyalty_points, LoyaltyTransaction_objects_create.
    destruct (pts <=? loyalty_points p); [|split; reflexivity].
    unfold_monad.
    pose proof (save_points_rest (loyalty_points p - pts)
                  (set_loyalty_points (loyalty_points p - pts) p) db) as [H1 H2].
    simpl in *.
    destruct (save_update_fields _ _ db) as [[[]|e] db1]; simpl in *.
    + split; [exact H1|]. rewrite H2. apply prefix_app_r. reflexivity.
    + split; [exact H1|]. rewrite H2. reflexivity.
Qed.

(** Earn and redeem calls write one column and append: after any sequence
    of them the profile table has the rows it had, equal in every column
    but the balance, and the ledger it had is a prefix of the ledger. *)
Theorem ledger_calls_frame ops db :
  profile_rest <$> profiles (run ops db) = profile_rest <$> profiles db ∧
  loyalty_transactions db `prefix_of` loyalty_transactions (run ops db).
Proof.
  revert db. induction ops as [|op ops IH]; intros db; simpl.
  { split; reflexivity. }
  destruct (IH (step op db)) as [H1 H2].
  destruct (step_rest op db) as [H3 H4].
  split; [congruence|]. etrans; eassumption.
Qed.



End Ledger.

Section Tiers.

Lemma update_membership_tier_stored self row db :
  profiles db !! user self = Some row →
  let tier :=
    if (100000 <=? total_spent self)%Z then "platinum"
    else if (50000 <=? total_spent self)%Z then "gold"
    else if (20000 <=? total_spent self)%Z then "silver"
    else "bronze" in
  update_membership_tier self db =
    (Ok (set_membership_tier tier self),
     {| profiles := <[user self := set_membership_tier tier row]> (profiles db);
        loyalty_transactions := loyalty_transactions db |}).
Proof.
  intros Hrow tier. unfold update_membership_tier, save_update_fields.
  unfold_monad. simpl. rewrite Hrow. reflexivity.
Qed.

(** [update_membership_tier] on a profile whose row is stored: the tier
    is one of the four choices, it is written to that row and to no other
    column or row, the ledger is untouched, a second call changes nothing,
    and a profile that has spent at least as much never gets a lower
    tier. *)
Theorem tier_follows_spend self row db :
  profiles db !! user self = Some row →
  ∃ self' db',
    update_membership_tier self db = (Ok self', db') ∧
    In (membership_tier self') ["bronze"; "silver"; "gold"; "platinum"] ∧
    profiles db' !! user self
      = Some (set_membership_tier (membership_tier self') row) ∧
    (∀ uid, uid ≠ user self → profiles db' !! uid = profiles db !! uid) ∧
    loyalty_transactions db' = loyalty_transactions db ∧
    update_membership_tier self' db' = (Ok self', db') ∧
    (∀ other row2, profiles db !! user other = Some row2 →
       total_spent self ≤ total_spent other →
       ∃ other' db2,
         update_membership_tier other db = (Ok other', db2) ∧
         (tier_rank (membership_tier self')
          ≤ tier_rank (membership_tier other'))%nat).
Proof.
  intros Hrow. eexists _, _.
  split; [apply (update_membership_tier_stored self row db Hrow)|].
  split_and!.
  - simpl. destruct (100000 <=? total_spent self); [tauto|].
    destruct (50000 <=? total_spent self); [tauto|].
    destruct (20000 <=? total_spent self); tauto.
  - simpl. apply lookup_insert_eq.
  - intros uid Hne. simpl. apply lookup_insert_ne. congruence.
  - reflexivity.
  - erewrite update_membership_tier_stored
      by (simpl; apply lookup_insert_eq).
    simpl. rewrite insert_insert_eq. destruct self, row; reflexivity.
  - intros other row2 Hrow2 Hle. eexists _, _.
    split; [apply (update_membership_tier_stored other row2 db Hrow2)|].
    simpl. unfold tier_rank.
    destruct (Z.leb_spec 100000 (total_spent self)),
      (Z.leb_spec 50000 (total_spent self)),
      (Z.leb_spec 20000 (total_spent self)),
      (Z.leb_spec 100000 (total_spent other)),
      (Z.leb_spec 50000 (total_spent other)),
      (Z.leb_spec 20000 (total_spent other)); simpl; lia.
Qed.

Lemma tier_follows_spend_witness :
  ∃ self' db',
    update_membership_tier
      (set_loyalty_points 50 Examples.profile3) Examples.ledger50
      = (Ok self', db') ∧
    membership_tier self' = "bronze".
Proof.
  destruct (tier_follows_spend (set_loyalty_points 50 Examples.profile3)
              (set_loyalty_points 50 Examples.profile3) Examples.ledger50)
    as (self' & db' & Hrun & _).
  - vm_compute. reflexivity.
  - exists self', db'. split; [exact Hrun|].
    vm_compute in Hrun. injection Hrun as <- _. reflexivity.
Defined.

End Tiers.

Section Redemption.



End Redemption.

Section Addresses.

Lemma one_default_b_sound db : one_default_b db = true → one_default db.
Proof.
  unfold one_default_b. rewrite forallb_forall.
  intros Hall k1 k2 a1 a2 H1 H2 Hc Hd1 Hd2.
  assert (Hin1 : In (k1, a1) (map_to_list (addresses db)))
    by (apply list_elem_of_In, elem_of_map_to_list; exact H1).
  assert (Hin2 : In (k2, a2) (map_to_list (addresses db)))
    by (apply list_elem_of_In, elem_of_map_to_list; exact H2).
  specialize (Hall _ Hin1). rewrite forallb_forall in Hall.
  specialize (Hall _ Hin2). simpl in Hall.
  rewrite Hd1, Hd2, (bool_decide_eq_true_2 _ Hc) in Hall. simpl in Hall.
  apply bool_decide_eq_true in Hall. exact Hall.
Qed.

Lemma clear_other_defaults_lookup self tbl k :
  clear_other_defaults self tbl !! k =
    (λ row, if bool_decide (a_customer row = a_customer self)
               && is_default row
               && negb (bool_decide (a_pk self = Some k))
            then set_is_default false row else row) <$> tbl !! k.
Proof.
  unfold clear_other_defaults. rewrite map_lookup_imap.
  destruct (tbl !! k); reflexivity.
Qed.

(** After the update, a default row of the customer sits under the
    instance's own key, and it is a row that was there. *)
Lemma clear_other_defaults_spec self tbl k a :
  clear_other_defaults self tbl !! k = Some a →
  (is_default a = true → tbl !! k = Some a) ∧
  (is_default a = true → a_customer a = a_customer self → a_pk self = Some k) ∧
  ∃ a0, tbl !! k = Some a0 ∧ a_customer a0 = a_customer a.
Proof.
  rewrite clear_other_defaults_lookup.
  destruct (tbl !! k) as [row|]; simpl; [|discriminate].
  destruct (bool_decide (a_customer row = a_customer self)) eqn:Hc,
    (is_default row) eqn:Hd,
    (bool_decide (a_pk self = Some k)) eqn:Hk; simpl; intros [= <-];
    simpl; split_and!; eauto; try discriminate;
    try congruence.
  - intros _ _. apply bool_decide_eq_true in Hk. exact Hk.
  - intros _ He. apply bool_decide_eq_false in Hc. contradiction.
  - intros _ He. apply bool_decide_eq_false in Hc. contradiction.
Qed.

Lemma clear_other_defaults_one_default self db :
  one_default db →
  one_default {| addresses := clear_other_defaults self (addresses db);
                 next_address_id := next_address_id db |}.
Proof.
  intros Hone k1 k2 a1 a2 H1 H2 Hc Hd1 Hd2. simpl in *.
  apply clear_other_defaults_spec in H1 as [H1 _].
  apply clear_other_defaults_spec in H2 as [H2 _].
  exact (Hone k1 k2 a1 a2 (H1 Hd1) (H2 Hd2) Hc Hd1 Hd2).
Qed.

Lemma insert_one_default tbl k a n n' :
  one_default {| addresses := tbl; next_address_id := n |} →
  (is_default a = true →
   ∀ k2 a2, k2 ≠ k → tbl !! k2 = Some a2 →
     a_customer a2 = a_customer a → is_default a2 = false) →
  one_default {| addresses := <[k := a]> tbl; next_address_id := n' |}.
Proof.
  intros Hone Hnew k1 k2 a1 a2 H1 H2 Hc Hd1 Hd2. simpl in *.
  destruct (decide (k1 = k)) as [->|Hne1], (decide (k2 = k)) as [->|Hne2];
    try reflexivity.
  - rewrite lookup_insert_eq in H1. injection H1 as <-.
    rewrite lookup_insert_ne in H2 by congruence.
    rewrite (Hnew Hd1 k2 a2 Hne2 H2 (eq_sym Hc)) in Hd2. discriminate.
  - rewrite lookup_insert_eq in H2. injection H2 as <-.
    rewrite lookup_insert_ne in H1 by congruence.
    rewrite (Hnew Hd2 k1 a1 Hne1 H1 Hc) in Hd1. discriminate.
  - rewrite lookup_insert_ne in H1 by congruence.
    rewrite lookup_insert_ne in H2 by congruence.
    exact (Hone k1 k2 a1 a2 H1 H2 Hc Hd1 Hd2).
Qed.

(** [CustomerAddress.save] keeps the rule of one default address per
    customer, whether the row is written or the label is refused; and
    once a default address has been saved, every default row of its
    customer is the saved one. When the label is refused the other
    defaults of the customer have been cleared all the same. *)
Theorem address_save_one_default self db :
  one_default db →
  one_default (CustomerAddress_save self db).2 ∧
  (is_default self = true →
   ∀ k a, addresses (CustomerAddress_save self db).2 !! k = Some a →
     a_customer a = a_customer self → is_default a = true →
     match (CustomerAddress_save self db).1 with
     | Ok self' => a_pk self' = Some k ∧ a = self'
     | Raise _ => a_pk self = Some k
     end).
Proof.
  intros Hone. unfold CustomerAddress_save. unfold_monad.
  destruct (is_default self) eqn:Hd.
  - set (db1 := {| addresses := clear_other_defaults self (addresses db);
                   next_address_id := next_address_id db |}).
    assert (Hone1 : one_default db1)
      by exact (clear_other_defaults_one_default self db Hone).
    assert (Hkey : ∀ k a, addresses db1 !! k = Some a →
              a_customer a = a_customer self → is_default a = true →
              a_pk self = Some k).
    { intros k a Hk Hc Hda.
      apply clear_other_defaults_spec in Hk as (_ & Hk & _). auto. }
    unfold Address_model_save.
    destruct (label_taken self (addresses db1)); simpl.
    { split; [exact Hone1|]. intros _ k a Hk Hc Hda. eauto. }
    destruct (a_pk self) as [k0|] eqn:Hpk; simpl.
    + split.
      * apply (insert_one_default _ _ _ (next_address_id db)); [exact Hone1|].
        intros _ k2 a2 Hne Hk2 Hc. destruct (is_default a2) eqn:Hd2; [|easy].
        specialize (Hkey _ _ Hk2 Hc Hd2). congruence.
      * intros _ k a Hk Hc Hda. destruct (decide (k = k0)) as [->|Hne].
        -- rewrite lookup_insert_eq in Hk. injection Hk as <-. auto.
        -- rewrite lookup_insert_ne in Hk by congruence.
           specialize (Hkey _ _ Hk Hc Hda). congruence.
    + split.
      * apply (insert_one_default _ _ _ (next_address_id db)); [exact Hone1|].
        intros _ k2 a2 Hne Hk2 Hc. destruct (is_default a2) eqn:Hd2; [|easy].
        specialize (Hkey _ _ Hk2 Hc Hd2). congruence.
      * intros _ k a Hk Hc Hda.
        destruct (decide (k = next_address_id db)) as [->|Hne].
        -- rewrite lookup_insert_eq in Hk. injection Hk as <-. auto.
        -- rewrite lookup_insert_ne in Hk by congruence.
           specialize (Hkey _ _ Hk Hc Hda). congruence.
  - split; [|discriminate]. unfold Address_model_save.
    destruct (label_taken self (addresses db)); [exact Hone|].
    destruct db as [tbl n]. simpl in *.
    destruct (a_pk self) as [k0|]; simpl;
      (apply (insert_one_default _ _ _ n); [exact Hone|]);
      simpl; congruence.
Qed.

Lemma address_save_one_default_witness :
  one_default Examples.address_db ∧
  is_ok (CustomerAddress_save Examples.new_default_address
           Examples.address_db).1 = true ∧
  one_default (CustomerAddress_save Examples.new_default_address
                 Examples.address_db).2.
Proof.
  assert (H : one_default Examples.address_db)
    by (apply one_default_b_sound; vm_compute; reflexivity).
  split; [exact H|]. split; [vm_compute; reflexivity|].
  exact (proj1 (address_save_one_default Examples.new_default_address
                  Examples.address_db H)).
Defined.

End Addresses.

End CustomerFacts.

Module ApiFacts.
Import Api Examples.



End ApiFacts.

(** ** Who reaches which order *)

Module AccessFacts.
Import Orders Access Examples.

Lemma owns_shop_Some p :
  owns_shop p = true →
  String.eqb (role (account p)) "shop_owner" = true ∧
  ∃ s, user_shop (account p) = Some s.
Proof.
  unfold owns_shop. intros [Hr Hs]%andb_true_iff.
  apply bool_decide_eq_true in Hs. destruct Hs as [s Hs]. eauto.
Qed.

Lemma has_staff_profile_Some p :
  has_staff_profile p = true →
  String.eqb (role (account p)) "staff" = true ∧
  ∃ s, staff_shop (account p) = Some s.
Proof.
  unfold has_staff_profile. intros [Hr Hs]%andb_true_iff.
  apply bool_decide_eq_true in Hs. destruct Hs as [s Hs]. eauto.
Qed.

(** A row of the list queryset is a stored row. *)
Lemma visible_orders_stored u db k o :
  visible_orders u db !! k = Some o → orders db !! k = Some o.
Proof.
  unfold visible_orders.
  destruct (String.eqb (role u) "shop_owner"), (user_shop u),
    (String.eqb (role u) "staff"), (staff_shop u);
    rewrite map_lookup_filter_Some; intros [H _]; exact H.
Qed.

(** The list queryset, the lookup of the item views and the object
    permission are three separate pieces of code with one rule: the row a
    user sees under a key in [get_queryset] is the one [get_object_or_404]
    hands the item views, and it is there exactly when the order is stored
    and [IsShopOwnerOrCustomer.has_object_permission] grants it. *)
Theorem order_scope_agrees u db k :
  visible_orders u db !! k = get_order_or_404 u k db ∧
  ∀ o, get_order_or_404 u k db = Some o ↔
       orders db !! k = Some o ∧ IsShopOwnerOrCustomer_object u o = true.
Proof.
  unfold visible_orders, get_order_or_404, IsShopOwnerOrCustomer_object.
  split.
  - destruct (String.eqb (role u) "shop_owner"), (user_shop u),
      (String.eqb (role u) "staff"), (staff_shop u);
      rewrite map_lookup_filter; destruct (orders db !! k) as [o|];
      simpl; try reflexivity; case_bool_decide; case_guard;
      simpl in *; try reflexivity; contradiction.
  - intros o. destruct (orders db !! k) as [o0|]; simpl.
    2:{ split; [discriminate|]. intros [? _]. discriminate. }
    destruct (String.eqb (role u) "shop_owner"), (user_shop u),
      (String.eqb (role u) "staff"), (staff_shop u);
      (split;
       [ case_bool_decide; [|discriminate]; intros [= <-]; split;
         [reflexivity|]; apply bool_decide_eq_true; assumption
       | intros [[= <-] H]; rewrite H; reflexivity ]).
Qed.

(** The status endpoint looks up in a narrower queryset: what it finds is
    visible to the same user in the list queryset, it belongs to the shop
    the user owns or works in, and a user with neither finds nothing. *)
Theorem status_scope_within_visible u db k o :
  Api.get_object u k db = Some o →
  visible_orders u db !! k = Some o ∧
  (user_shop u = Some (shop o) ∨ staff_shop u = Some (shop o)).
Proof.
  intros H. split.
  - revert H. unfold Api.get_object, visible_orders.
    destruct (orders db !! k) as [o0|] eqn:Hk; simpl; [|discriminate].
    destruct (String.eqb (role u) "shop_owner"), (user_shop u),
      (String.eqb (role u) "staff"), (staff_shop u);
      try discriminate; case_bool_decide; try discriminate;
      intros [= <-]; apply map_lookup_filter_Some; split; assumption.
  - revert H. unfold Api.get_object.
    destruct (orders db !! k) as [o0|]; simpl; [|discriminate].
    destruct (String.eqb (role u) "shop_owner"), (user_shop u),
      (String.eqb (role u) "staff"), (staff_shop u);
      try discriminate; case_bool_decide; try discriminate;
      intros [= <-]; subst; auto.
Qed.

Lemma status_scope_within_visible_witness :
  visible_orders owner7 shop_db !! 1%nat
    = Some (default pending_order (orders shop_db !! 1%nat)) ∧
  (user_shop owner7 = Some (shop (default pending_order (orders shop_db !! 1%nat)))
   ∨ staff_shop owner7
     = Some (shop (default pending_order (orders shop_db !! 1%nat)))).
Proof.
  apply (status_scope_within_visible owner7 shop_db 1). vm_compute. reflexivity.
Defined.

(** The three switchable permissions are [IsShopOwnerOrStaff] narrowed by
    the staff member's own switch, which an owner does not need; and
    whoever passes [IsShopOwnerOrStaff] passes [IsStaffOrOwner]. *)
Theorem permissions_narrow p :
  CanTakeOrders p = IsShopOwnerOrStaff p && (owns_shop p || can_take_orders p) ∧
  CanUpdateOrders p
    = IsShopOwnerOrStaff p && (owns_shop p || can_update_orders p) ∧
  CanRegisterCustomers p
    = IsShopOwnerOrStaff p && (owns_shop p || can_register_customers p) ∧
  IsShopOwner p = IsShopOwnerOrStaff p && owns_shop p ∧
  IsShopOwnerOrStaff p = IsShopOwnerOrStaff p && IsStaffOrOwner p.
Proof.
  unfold CanTakeOrders, CanUpdateOrders, CanRegisterCustomers, IsShopOwner,
    IsShopOwnerOrStaff, IsStaffOrOwner, owns_shop, has_staff_profile, str_in.
  simpl.
  destruct (is_authenticated p), (is_staff p), (staff_active p),
    (can_take_orders p), (can_update_orders p), (can_register_customers p),
    (bool_decide (is_Some (user_shop (account p)))),
    (bool_decide (is_Some (staff_shop (account p)))),
    (String.eqb (role (account p)) "shop_owner"),
    (String.eqb (role (account p)) "staff"),
    (String.eqb (role (account p)) "admin");
    simpl; split_and!; reflexivity.
Qed.


(** What is listed is stored, in the status that was asked for. *)
Lemma listed_rows_stored p st db rows k o :
  shop_orders_by_status p st db = Allowed (Listed rows) →
  rows !! k = Some o →
  str_in st valid_statuses = true ∧ orders db !! k = Some o ∧ status o = st.
Proof.
  unfold shop_orders_by_status, shop_orders_by_status_body.
  destruct (IsShopOwnerOrStaff p); [|discriminate].
  destruct (match String.eqb (role (account p)) "shop_owner",
                  user_shop (account p),
                  String.eqb (role (account p)) "staff",
                  staff_shop (account p) with
            | true, Some s, _, _ => Some s
            | _, _, true, Some s => Some s
            | _, _, _, _ => None
            end) as [s|]; [|discriminate].
  destruct (str_in st valid_statuses); simpl; [|discriminate].
  intros [= <-]. rewrite map_lookup_filter_Some. simpl. tauto.
Qed.

(** No request to [shop_orders_by_status] lists an order that is
    [pending], [confirmed] or [ready]: the view's list of statuses holds
    none of the three. *)
Theorem waiting_orders_unlisted p st db rows k o :
  shop_orders_by_status p st db = Allowed (Listed rows) →
  orders db !! k = Some o →
  str_in (status o) ["pending"; "confirmed"; "ready"] = true →
  rows !! k = None.
Proof.
  intros Hresp Hk Hst.
  destruct (rows !! k) as [o'|] eqn:Hrow; [|reflexivity]. exfalso.
  destruct (listed_rows_stored p st db rows k o' Hresp Hrow)
    as (Hvalid & Hk' & <-).
  assert (o' = o) by congruence. subst o'.
  unfold str_in, valid_statuses in *. simpl in *.
  repeat match goal with
  | H : context [String.eqb ?a ?b] |- _ =>
      destruct (String.eqb_spec a b) as [He|?];
      [rewrite He in *; simpl in *; try discriminate|]
  end; simpl in *; discriminate.
Qed.

Lemma waiting_orders_unlisted_witness :
  ∃ rows, shop_orders_by_status owner7_principal "in_progress" shop_db
            = Allowed (Listed rows) ∧
          orders shop_db !! 1%nat = Some pending_order ∧
          rows !! 1%nat = None.
Proof.
  eexists. split; [reflexivity|]. split; [vm_compute; reflexivity|].
  apply (waiting_orders_unlisted owner7_principal "in_progress" shop_db _ 1
           pending_order).
  - reflexivity.
  - vm_compute. reflexivity.
  - vm_compute. reflexivity.
Defined.

(** *** The parties of an order through a save *)

Lemma Order_save_party env o db o' db' :
  Order_save env o db = (Ok o', db') →
  shop o' = shop o ∧ customer o' = customer o ∧ status o' = status o.
Proof.
  unfold Order_save, Model_save.
  destruct (String.eqb (order_number o) "");
    destruct (number_taken _ _ _); try discriminate;
    destruct o as [[k|] ? ? ? ? ? ? ? ? ?]; simpl;
    intros [= <- _]; split_and!; reflexivity.
Qed.

Lemma Order_calculate_total_party env o db o' db' :
  Order_calculate_total env o db = (Ok o', db') →
  shop o' = shop o ∧ customer o' = customer o ∧ status o' = status o.
Proof.
  unfold Order_calculate_total. unfold_monad. intros H.
  apply Order_save_party in H. exact H.
Qed.

Lemma OrderItem_save_party env it o db it' o' db' :
  OrderItem_save env it o db = (Ok (it', o'), db') →
  shop o' = shop o ∧ customer o' = customer o ∧ status o' = status o.
Proof.
  unfold OrderItem_save. unfold_monad.
  destruct (truthy (unit_price it)).
  - destruct (Item_model_save _ db) as [[it1|e] db2]; [|discriminate].
    destruct (Order_calculate_total env o db2) as [[o2|e] db3] eqn:Hc;
      [|discriminate].
    intros [= _ <- _]. exact (Order_calculate_total_party _ _ _ _ _ Hc).
  - destruct (service_price_price it db) as [[z|e] db1]; [|discriminate].
    destruct (Item_model_save _ db1) as [[it1|e] db2]; [|discriminate].
    destruct (Order_calculate_total env o db2) as [[o2|e] db3] eqn:Hc;
      [|discriminate].
    intros [= _ <- _]. exact (Order_calculate_total_party _ _ _ _ _ Hc).
Qed.

Lemma OrderItem_objects_create_party env o sp q u n db it o' db' :
  OrderItem_objects_create env o sp q u n db = (Ok (it, o'), db') →
  shop o' = shop o ∧ customer o' = customer o ∧ status o' = status o.
Proof.
  unfold OrderItem_objects_create. destruct (pk o); [|discriminate].
  apply OrderItem_save_party.
Qed.

Lemma create_items_party env items_data : ∀ o db o' db',
  create_items env o items_data db = (Ok o', db') →
  shop o' = shop o ∧ customer o' = customer o ∧ status o' = status o.
Proof.
  induction items_data as [|d rest IH]; intros o db o' db'; simpl.
  { unfold_monad. intros [= <- _]. split_and!; reflexivity. }
  unfold_monad.
  destruct (ServicePrice_objects_get _ db) as [[sp|e] db1]; [|discriminate].
  destruct (OrderItem_objects_create env o _ _ None _ db1)
    as [[[it o1]|e] db2] eqn:Hc; [|discriminate].
  intros H. apply IH in H as (-> & -> & ->).
  exact (OrderItem_objects_create_party _ _ _ _ _ _ _ _ _ _ Hc).
Qed.

(** POST /orders/: a refused or invalid request writes nothing, and an
    order that is created belongs to the shop the caller owns, has the
    caller as its customer and is [pending]. *)
Theorem post_order_scope env p items_data db :
  match OrderListCreateView_post env p items_data db with
  | (Denied, db') => CanTakeOrders p = false ∧ db' = db
  | (Allowed Create_400_BAD_REQUEST, db') => db' = db
  | (Allowed (Create_201_CREATED order), _) =>
      CanTakeOrders p = true ∧
      user_shop (account p) = Some (shop order) ∧
      customer order = user_id (account p) ∧ status order = "pending"
  | (Allowed (Create_500 e), _) => CanTakeOrders p = true
  end.
Proof.
  unfold OrderListCreateView_post.
  destruct (CanTakeOrders p); [|split; reflexivity].
  destruct (OrderCreateSerializer_is_valid _ _ _); [|reflexivity].
  destruct (OrderCreateSerializer_create _ _ _ _) as [[order|e] db'] eqn:Hc;
    [|reflexivity].
  split; [reflexivity|]. revert Hc. unfold OrderCreateSerializer_create.
  destruct (user_shop (account p)) as [s|]; [|discriminate].
  unfold_monad.
  destruct (Order_objects_create env _ s db) as [[o0|e] db0] eqn:H0;
    [|discriminate].
  intros (-> & -> & ->)%create_items_party.
  apply Order_save_party in H0 as (-> & -> & ->). split_and!; reflexivity.
Qed.

(** A user who owns no shop creates no order: whatever the permission
    says, POST /orders/ is never answered 201 and writes nothing. This is
    the case of every staff member [CanTakeOrders] lets through on the
    staff profile alone. *)
Theorem shopless_user_creates_nothing env p items_data db :
  user_shop (account p) = None →
  (OrderListCreateView_post env p items_data db).2 = db ∧
  ∀ order, (OrderListCreateView_post env p items_data db).1
           ≠ Allowed (Create_201_CREATED order).
Proof.
  intros Hshop. unfold OrderListCreateView_post.
  destruct (CanTakeOrders p); [|split; [reflexivity|discriminate]].
  destruct (OrderCreateSerializer_is_valid _ _ _);
    [|split; [reflexivity|discriminate]].
  unfold OrderCreateSerializer_create. rewrite Hshop.
  split; [reflexivity|discriminate].
Qed.

Lemma shopless_user_creates_nothing_witness :
  CanTakeOrders clerk7 = true ∧
  OrderCreateSerializer_is_valid (account clerk7) [two_shirts] priced_db = true ∧
  (OrderListCreateView_post env0 clerk7 [two_shirts] priced_db).2 = priced_db ∧
  ∀ order, (OrderListCreateView_post env0 clerk7 [two_shirts] priced_db).1
           ≠ Allowed (Create_201_CREATED order).
Proof.
  split; [reflexivity|]. split; [vm_compute; reflexivity|].
  apply (shopless_user_creates_nothing env0 clerk7 [two_shirts] priced_db).
  reflexivity.
Defined.

Lemma update_party env u instance vd db o db' :
  update env u instance vd db = (Ok o, db') →
  shop o = shop instance ∧ customer o = customer instance.
Proof.
  unfold update, ModelSerializer_update, OrderStatusHistory_objects_create.
  unfold_monad.
  destruct (Order_save env (with_validated vd instance) db)
    as [[o1|e] db1] eqn:H1; [|discriminate].
  apply Order_save_party in H1 as (Hs & Hc & _).
  assert (Hv : shop (with_validated vd instance) = shop instance ∧
               customer (with_validated vd instance) = customer instance).
  { unfold with_validated.
    destruct (vd_status vd), (vd_estimated_completion vd); split; reflexivity. }
  destruct Hv as [Hvs Hvc]. rewrite Hvs in Hs. rewrite Hvc in Hc.
  destruct (negb _).
  - intros H. apply Order_save_party in H as (Hs2 & Hc2 & _).
    rewrite Hs2, Hc2.
    destruct (String.eqb _ "confirmed"); [split; assumption|].
    destruct (String.eqb _ "completed"); split; assumption.
  - intros [= <- _]. split; assumption.
Qed.

(** PATCH /orders/{id}/status/: a refused, unknown or invalid request
    writes nothing, and an order that is updated belongs to the shop the
    caller owns, or to the shop of the caller's active staff profile with
    [can_update_orders] set. *)
Theorem status_patch_scope env p k vd w :
  match OrderStatusUpdateView_patch env p k vd w with
  | (Denied, w') => CanUpdateOrders p = false ∧ w' = w
  | (Allowed Api.HTTP_404_NOT_FOUND, w') => w' = w
  | (Allowed Api.HTTP_400_BAD_REQUEST, w') => w' = w
  | (Allowed (Api.HTTP_200_OK o), _) =>
      (owns_shop p = true ∧ user_shop (account p) = Some (shop o)) ∨
      (has_staff_profile p && staff_active p && can_update_orders p = true ∧
       staff_shop (account p) = Some (shop o))
  | (Allowed (Api.HTTP_500 e), _) => CanUpdateOrders p = true
  end.
Proof.
  unfold OrderStatusUpdateView_patch.
  destruct (CanUpdateOrders p) eqn:Hperm; [|split; reflexivity].
  unfold Api.OrderStatusUpdateView.
  destruct (Api.get_object _ _ _) as [instance|] eqn:Hget; [|reflexivity].
  destruct (Api.OrderStatusUpdateSerializer_is_valid vd); [|reflexivity].
  destruct (update _ _ _ _ _) as [[o|e] db'] eqn:Hup; [|reflexivity].
  apply update_party in Hup as [-> _].
  revert Hget Hperm. unfold Api.get_object, CanUpdateOrders, owns_shop,
    has_staff_profile.
  destruct (orders (Api.orders_db w) !! k) as [o0|]; simpl; [|discriminate].
  destruct (is_authenticated p); simpl; [|discriminate].
  destruct (String.eqb (role (account p)) "shop_owner") eqn:Hro,
    (user_shop (account p)) as [s|], 
    (String.eqb (role (account p)) "staff") eqn:Hrs,
    (staff_shop (account p)) as [s'|];
    simpl; try discriminate;
    try (apply String.eqb_eq in Hro, Hrs; rewrite Hro in Hrs; discriminate);
    case_bool_decide; try discriminate; intros [= <-]; subst;
    try (intros _; left; split; reflexivity).
  all: destruct (staff_active p), (can_update_orders p); simpl;
    try discriminate; intros _; right; split; reflexivity.
Qed.

Lemma valid_items_priced u items_data db :
  OrderCreateSerializer_is_valid u items_data db = true →
  prices_exist db items_data = true.
Proof.
  unfold OrderCreateSerializer_is_valid, prices_exist.
  rewrite !forallb_forall. intros Hall d Hd. specialize (Hall d Hd).
  unfold OrderItemSerializer_is_valid in Hall.
  destruct (service_prices db !! d_service_price_id d); [|discriminate].
  apply bool_decide_eq_true. eauto.
Qed.



End AccessFacts.

Module NotificationFacts.
Import Notifications.

Section Service.

Variable strip_tags : string → string.
Variable render : string → Context → string.
Variable lookup_raises : nat → option exn.
Variable insert_raises : Notification → option exn.

Abbreviation create_notification :=
  (create_notification strip_tags lookup_raises insert_raises).
Abbreviation create_notification_body :=
  (create_notification_body strip_tags lookup_raises insert_raises).

(** The handler turns every exception of the body into [None]. *)
Lemma create_notification_cases r ti me pr o sh te da ex db :
  match create_notification_body r ti me pr o sh te da ex db with
  | (Ok res, db') => create_notification r ti me pr o sh te da ex db = (Ok res, db')
  | (Raise e, db') => create_notification r ti me pr o sh te da ex db = (Ok None, db')
  end.
Proof.
  unfold Notifications.create_notification, try_except.
  destruct (create_notification_body r ti me pr o sh te da ex db)
    as [[res|e] db']; reflexivity.
Qed.

Lemma create_notification_returns r ti me pr o sh te da ex db :
  ∃ res db', create_notification r ti me pr o sh te da ex db = (Ok res, db').
Proof.
  pose proof (create_notification_cases r ti me pr o sh te da ex db) as H.
  destruct (create_notification_body r ti me pr o sh te da ex db)
    as [[res|e] db']; eauto.
Qed.

(** A type the recipient has switched off: nothing is created, whether or
    not the preference lookup itself fails. *)
Lemma create_notification_gated r ti me pr o sh t da ex db prefs :
  preferences db !! r = Some prefs →
  _should_send_notification prefs (type t) = false →
  create_notification r ti me pr o sh (Some t) da ex db = (Ok None, db).
Proof.
  intros Hp Hs.
  unfold Notifications.create_notification, try_except,
    Notifications.create_notification_body, get_user_preferences.
  unfold_monad. destruct (lookup_raises r); [reflexivity|].
  rewrite Hp, Hs. reflexivity.
Qed.

(** A type that is let through, on a storage layer that does not fail:
    the row is appended and returned. *)
Lemma create_notification_sent r ti me pr o sh t da ex db :
  lookup_raises r = None → (∀ row, insert_raises row = None) →
  (∀ prefs, _should_send_notification prefs (type t) = true) →
  ∃ n db', create_notification r ti me pr o sh (Some t) da ex db
             = (Ok (Some n), db') ∧
    notifications db' = (notifications db ++ [n])%list ∧
    recipient n = r ∧ template n = Some (name t) ∧ status n = "unread" ∧
    title n = substring 0 200 (strip_tags ti) ∧ message n = strip_tags me.
Proof.
  intros Hl Hi Hs.
  unfold Notifications.create_notification, try_except,
    Notifications.create_notification_body, get_user_preferences,
    Notification_objects_create.
  unfold_monad. rewrite Hl.
  destruct (preferences db !! r) as [prefs|]; rewrite Hs; simpl;
    rewrite Hi; eexists _, _; (split; [reflexivity|]); simpl;
    split_and!; reflexivity.
Qed.

Lemma welcome_always_sent prefs : _should_send_notification prefs "welcome" = true.
Proof. reflexivity. Qed.

(** [create_from_template] with a stored, active template is
    [create_notification] on the rendered texts. *)
Lemma create_from_template_stored nm r ctx o sh ex t db :
  get_active_template nm db = Some t →
  create_from_template strip_tags render lookup_raises insert_raises
    nm r ctx o sh ex db
  = create_notification r (render (title_template t) ctx)
      (render (message_template t) ctx) (priority t) o sh (Some t)
      (Some ctx) ex db.
Proof.
  intros Ht. unfold create_from_template. unfold_monad. rewrite Ht.
  reflexivity.
Qed.

(** C8. From a [promotion] template nothing is created, and [None] is
    returned, for a recipient whose [promotion_notifications] preference
    is false; from a [welcome] template the notification is created
    whatever the stored preferences are. Both hold for a direct
    [create_notification] with the template and for
    [create_from_template] by the template's name. *)
Theorem preference_gate r ti me pr o sh da ex (t_promo t_welcome : NotificationTemplate)
    (prefs : NotificationPreference) (db : DB) :
  type t_promo = "promotion" → type t_welcome = "welcome" →
  preferences db !! r = Some prefs → promotion_notifications prefs = false →
  lookup_raises r = None → (∀ row, insert_raises row = None) →
  create_notification r ti me pr o sh (Some t_promo) da ex db = (Ok None, db) ∧
  (∀ any_prefs,
     ∃ n db',
       create_notification r ti me pr o sh (Some t_welcome) da ex
         (set_preferences any_prefs db) = (Ok (Some n), db') ∧
       notifications db' = (notifications db ++ [n])%list ∧
       recipient n = r ∧ template n = Some (name t_welcome)) ∧
  (∀ nm ctx, get_active_template nm db = Some t_promo →
     create_from_template strip_tags render lookup_raises insert_raises
       nm r ctx o sh ex db = (Ok None, db)) ∧
  (∀ nm ctx any_prefs, get_active_template nm db = Some t_welcome →
     ∃ n db',
       create_from_template strip_tags render lookup_raises insert_raises
         nm r ctx o sh ex (set_preferences any_prefs db)
       = (Ok (Some n), db') ∧
       notifications db' = (notifications db ++ [n])%list ∧
       recipient n = r ∧ template n = Some (name t_welcome)).
Proof.
  intros Hpromo Hwelcome Hp Hoff Hl Hi.
  assert (Hgate : ∀ ti me pr da,
            create_notification r ti me pr o sh (Some t_promo) da ex db
            = (Ok None, db)).
  { intros. apply create_notification_gated with (prefs := prefs); [exact Hp|].
    rewrite Hpromo. simpl. exact Hoff. }
  assert (Hsend : ∀ ti me pr da any_prefs,
            ∃ n db',
              create_notification r ti me pr o sh (Some t_welcome) da ex
                (set_preferences any_prefs db) = (Ok (Some n), db') ∧
              notifications db' = (notifications db ++ [n])%list ∧
              recipient n = r ∧ template n = Some (name t_welcome)).
  { intros ti' me' pr' da' any_prefs.
    destruct (create_notification_sent r ti' me' pr' o sh t_welcome da' ex
                (set_preferences any_prefs db) Hl Hi)
      as (n & db' & Hc & Hn & Hr & Ht & _).
    { intros p. rewrite Hwelcome. reflexivity. }
    exists n, db'. split_and!; assumption. }
  split_and!.
  - apply Hgate.
  - apply Hsend.
  - intros nm ctx Ht. rewrite (create_from_template_stored _ _ _ _ _ _ _ _ Ht).
    apply Hgate.
  - intros nm ctx any_prefs Ht.
    rewrite (create_from_template_stored nm r ctx o sh ex t_welcome
               (set_preferences any_prefs db) Ht).
    apply Hsend.
Qed.

(** The loop hands out one verdict per recipient and counts it. *)
Lemma send_to_counts t ti me sh ctx recipients sent failed db :
  let rets := returns_of strip_tags lookup_raises insert_raises t ti me sh ctx
                recipients db in
  ∃ db', send_to strip_tags lookup_raises insert_raises t ti me sh ctx
           recipients sent failed db
         = (Ok (sent + count_some rets, failed + count_none rets), db') ∧
    length rets = length recipients.
Proof.
  revert sent failed db.
  induction recipients as [|r rest IH]; intros sent failed db; simpl.
  - eexists. split; [|reflexivity]. unfold_monad.
    unfold count_some, count_none. simpl. rewrite !Z.add_0_r. reflexivity.
  - unfold_monad.
    destruct (create_notification_returns r ti me (priority t) None sh
                (Some t) (Some ctx) None db) as (res & db1 & Hc).
    rewrite Hc. destruct res as [n|].
    + destruct (IH (sent + 1) failed db1) as (db' & Hs & Hlen).
      rewrite Hs. exists db'. split; [|simpl; f_equal; exact Hlen].
      unfold count_some, count_none.
      rewrite (filter_cons_True (λ x : option Notification, x ≠ None))
        by discriminate.
      rewrite (filter_cons_False (λ x : option Notification, x = None))
        by discriminate.
      simpl length. do 3 f_equal; lia.
    + destruct (IH sent (failed + 1) db1) as (db' & Hs & Hlen).
      rewrite Hs. exists db'. split; [|simpl; f_equal; exact Hlen].
      unfold count_some, count_none.
      rewrite (filter_cons_False (λ x : option Notification, x ≠ None))
        by (intros H; apply H; reflexivity).
      rewrite (filter_cons_True (λ x : option Notification, x = None))
        by reflexivity.
      simpl length. do 3 f_equal; lia.
Qed.

Lemma count_some_none (l : list (option Notification)) :
  count_some l + count_none l = Z.of_nat (length l).
Proof.
  unfold count_some, count_none. induction l as [|x l IH]; [reflexivity|].
  destruct x as [n|].
  - rewrite (filter_cons_True (λ x : option Notification, x ≠ None))
      by discriminate.
    rewrite (filter_cons_False (λ x : option Notification, x = None))
      by discriminate.
    simpl length. lia.
  - rewrite (filter_cons_False (λ x : option Notification, x ≠ None))
      by (intros H; apply H; reflexivity).
    rewrite (filter_cons_True (λ x : option Notification, x = None))
      by reflexivity.
    simpl length. lia.
Qed.

(** [create_batch_notifications] with a stored, active template: the loop
    starts from a database with the notification and preference tables
    of the call, and the batch is stored as sent with its two counts. *)
Lemma batch_marked_sent now template_name recipients ctx creator sh t db :
  get_active_template template_name db = Some t →
  ∃ db0 batch db',
    preferences db0 = preferences db ∧
    notifications db0 = notifications db ∧
    next_notification_id db0 = next_notification_id db ∧
    let rets := returns_of strip_tags lookup_raises insert_raises t
                  (render (title_template t) ctx)
                  (render (message_template t) ctx) sh ctx recipients db0 in
    create_batch_notifications strip_tags render lookup_raises insert_raises
      now template_name recipients ctx creator sh db
    = (Ok (Some batch), db') ∧
    batches db' !! b_id batch = Some batch ∧
    is_sent batch = true ∧ sent_at batch = Some now ∧
    sent_count batch = count_some rets ∧
    failed_count batch = count_none rets ∧
    target_users batch = recipients ∧
    length rets = length recipients.
Proof.
  intros Ht.
  unfold create_batch_notifications, NotificationBatch_objects_create,
    NotificationBatch_save. unfold_monad. rewrite Ht. simpl.
  match goal with
  | |- context [send_to _ _ _ ?t ?a ?b ?s ?c ?rs 0 0 ?d] =>
      destruct (send_to_counts t a b s c rs 0 0 d) as (db1 & Hs & Hlen);
      exists d
  end.
  rewrite Hs. simpl. eexists _, _.
  split_and!; try reflexivity.
  - simpl. apply lookup_insert_eq.
  - exact Hlen.
Qed.


Lemma substring_length_le (s : string) : ∀ n m,
  (String.length (substring n m s) ≤ m)%nat.
Proof.
  induction s as [|c s IH]; intros n m.
  - destruct n, m; simpl; lia.
  - destruct n as [|n]; simpl.
    + destruct m as [|m]; simpl; [lia|]. specialize (IH 0%nat m). lia.
    + apply IH.
Qed.

(** What one [create_notification] call can change, whatever its
    arguments and whatever the storage layer does. Templates and batches
    are untouched; stored preferences are never overwritten, and only the
    recipient can get a row of them; the notification table gets the
    returned row at its end, under the next key, for the recipient,
    unread and with a title of at most 200 characters, or it stays as it
    is when [None] is returned. *)
Theorem create_notification_frame r ti me pr o sh te da ex db :
  ∃ res db',
    create_notification r ti me pr o sh te da ex db = (Ok res, db') ∧
    templates db' = templates db ∧ batches db' = batches db ∧
    next_batch_id db' = next_batch_id db ∧
    (∀ u prefs, preferences db !! u = Some prefs →
       preferences db' !! u = Some prefs) ∧
    (∀ u, u ≠ r → preferences db' !! u = preferences db !! u) ∧
    match res with
    | Some n =>
        notifications db' = (notifications db ++ [n])%list ∧
        next_notification_id db' = S (next_notification_id db) ∧
        n_id n = next_notification_id db ∧ recipient n = r ∧
        status n = "unread" ∧ n_priority n = pr ∧
        (String.length (title n) ≤ 200)%nat
    | None =>
        notifications db' = notifications db ∧
        next_notification_id db' = next_notification_id db
    end.
Proof.
  unfold Notifications.create_notification, try_except,
    Notifications.create_notification_body, get_user_preferences,
    Notification_objects_create.
  unfold_monad.
  destruct (lookup_raises r) as [e|].
  { eexists _, _. split; [reflexivity|]. split_and!; auto. }
  assert (Hkeep : ∀ u prefs, preferences db !! u = Some prefs →
            preferences db !! r = None →
            <[r := default_preferences]> (preferences db) !! u = Some prefs).
  { intros u prefs Hu Hr. rewrite lookup_insert_ne; [exact Hu|]. congruence. }
  destruct (preferences db !! r) as [prefs|] eqn:Hp;
    (destruct (match te with
               | Some t => negb (_should_send_notification _ (type t))
               | None => false
               end);
     [ eexists _, _; split; [reflexivity|]; simpl; split_and!; auto;
       intros u Hne; apply lookup_insert_ne; congruence
     | simpl;
       match goal with
       | |- context [insert_raises ?row] => destruct (insert_raises row)
       end;
       eexists _, _; (split; [reflexivity|]); simpl; split_and!; auto;
       try (intros u Hne; apply lookup_insert_ne; congruence);
       apply substring_length_le ]).
Qed.

End Service.

Section Delivery.

Variable strip_tags : string → string.
Variable render : string → Context → string.

Lemma create_notification_clean r ti me sh t ctx db :
  ∃ res db',
    Notifications.create_notification strip_tags never_raises never_raises r ti me
      (priority t) None sh (Some t) (Some ctx) None db = (Ok res, db') ∧
    (∀ u, lets_through t db' u = lets_through t db u) ∧
    batches db' = batches db ∧ next_batch_id db' = next_batch_id db ∧
    match res with
    | Some n =>
        lets_through t db r = true ∧
        notifications db' = (notifications db ++ [n])%list ∧
        recipient n = r ∧ batch_row strip_tags t ti me sh ctx n
    | None =>
        lets_through t db r = false ∧ notifications db' = notifications db
    end.
Proof.
  unfold Notifications.create_notification, try_except,
    Notifications.create_notification_body, get_user_preferences,
    Notification_objects_create, lets_through, never_raises, batch_row.
  unfold_monad.
  destruct (preferences db !! r) as [prefs|] eqn:Hp; simpl.
  - destruct (_should_send_notification prefs (type t)) eqn:Hs; simpl;
      eexists _, _; (split; [reflexivity|]); simpl;
      (split; [reflexivity|]); split_and!; auto.
  - assert (Hsame : ∀ u,
      default default_preferences
        (<[r := default_preferences]> (preferences db) !! u)
      = default default_preferences (preferences db !! u)).
    { intros u. destruct (decide (u = r)) as [->|Hne].
      - rewrite lookup_insert_eq, Hp. reflexivity.
      - rewrite lookup_insert_ne by congruence. reflexivity. }
    destruct (_should_send_notification default_preferences (type t)) eqn:Hs;
      simpl; eexists _, _; (split; [reflexivity|]); simpl;
      (split; [intros u; rewrite Hsame; reflexivity|]); split_and!; auto.
Qed.

Lemma send_to_clean t ti me sh ctx recipients : ∀ sent failed db,
  ∃ rows db',
    send_to strip_tags never_raises never_raises t ti me sh ctx recipients sent
      failed db
    = (Ok (sent + Z.of_nat (length rows),
           failed + (Z.of_nat (length recipients) - Z.of_nat (length rows))),
       db') ∧
    notifications db' = (notifications db ++ rows)%list ∧
    recipient <$> rows = filter (λ r, lets_through t db r = true) recipients ∧
    Forall (batch_row strip_tags t ti me sh ctx) rows ∧
    batches db' = batches db ∧ next_batch_id db' = next_batch_id db.
Proof.
  induction recipients as [|r rest IH]; intros sent failed db.
  { exists [], db. simpl. unfold_monad. rewrite app_nil_r.
    split_and!; auto. simpl length. do 3 f_equal; lia. }
  simpl. unfold_monad.
  destruct (create_notification_clean r ti me sh t ctx db)
    as (res & db1 & Hc & Hsame & Hb & Hnb & Hres).
  rewrite Hc.
  assert (Hfilter : filter (λ u, lets_through t db1 u = true) rest
                    = filter (λ u, lets_through t db u = true) rest).
  { apply list_filter_iff. intros u. rewrite Hsame. reflexivity. }
  destruct res as [n|].
  - destruct Hres as (Hlet & Hn & Hr & Hrow).
    destruct (IH (sent + 1) failed db1) as (rows & db' & Hs & Hn' & Hrs & Hall
                                             & Hb' & Hnb').
    exists (n :: rows), db'. rewrite Hs. split_and!.
    + simpl length. do 3 f_equal; lia.
    + rewrite Hn', Hn, <- app_assoc. reflexivity.
    + rewrite filter_cons_True by exact Hlet. rewrite fmap_cons, Hr, Hrs, Hfilter.
      reflexivity.
    + constructor; assumption.
    + congruence.
    + congruence.
  - destruct Hres as (Hlet & Hn).
    destruct (IH sent (failed + 1) db1) as (rows & db' & Hs & Hn' & Hrs & Hall
                                             & Hb' & Hnb').
    exists rows, db'. rewrite Hs. split_and!.
    + simpl length. do 3 f_equal; lia.
    + rewrite Hn', Hn. reflexivity.
    + rewrite filter_cons_False by (rewrite Hlet; discriminate).
      rewrite Hrs, Hfilter. reflexivity.
    + assumption.
    + congruence.
    + congruence.
Qed.

(** [create_batch_notifications] with a stored, active template, on a
    storage layer that does not fail. The notification table grows by one
    row for each listed recipient whose preferences (stored, or the
    defaults) let the template's type through, in the order of the list;
    every row carries the rendered texts, the template and the shop;
    [sent_count] is the number of these rows and [failed_count] the rest
    of the list; the batch is stored under the next key as sent. *)
Theorem batch_reaches_recipients now nm recipients ctx creator sh t db :
  get_active_template nm db = Some t →
  ∃ batch db' rows,
    create_batch_notifications strip_tags render never_raises never_raises
      now nm recipients ctx creator sh db = (Ok (Some batch), db') ∧
    notifications db' = (notifications db ++ rows)%list ∧
    recipient <$> rows = filter (λ r, lets_through t db r = true) recipients ∧
    Forall (batch_row strip_tags t (render (title_template t) ctx)
              (render (message_template t) ctx) sh ctx) rows ∧
    sent_count batch = Z.of_nat (length rows) ∧
    sent_count batch + failed_count batch = Z.of_nat (length recipients) ∧
    b_id batch = next_batch_id db ∧
    batches db' !! next_batch_id db = Some batch ∧
    target_users batch = recipients ∧ is_sent batch = true ∧
    sent_at batch = Some now.
Proof.
  intros Ht. unfold create_batch_notifications,
    NotificationBatch_objects_create, NotificationBatch_save.
  unfold_monad. rewrite Ht. simpl.
  match goal with
  | |- context [send_to _ _ _ ?t ?a ?b ?s ?c ?rs 0 0 ?d] =>
      destruct (send_to_clean t a b s c rs 0 0 d)
        as (rows & db1 & Hs & Hn & Hrs & Hall & Hb & Hnb)
  end.
  rewrite Hs. simpl. eexists _, _, rows. split; [reflexivity|]. simpl.
  split_and!; try reflexivity; try assumption.
  - lia.
  - apply lookup_insert_eq.
Qed.

End Delivery.

(** The sale announced to users 3, 4 and 5 on a storage layer that does
    not fail: user 3 has promotions off, so two rows are sent. *)
Lemma batch_reaches_recipients_witness :
  get_active_template "spring_sale" Examples.notif_db = Some Examples.promo ∧
  ∃ batch db' rows,
    create_batch_notifications Examples.plain_text Examples.no_substitution
      never_raises never_raises 1700000000 "spring_sale" [3; 4; 5]%nat [] 9
      None Examples.notif_db = (Ok (Some batch), db') ∧
    notifications db' = (notifications Examples.notif_db ++ rows)%list ∧
    recipient <$> rows = [4; 5]%nat ∧
    sent_count batch = Z.of_nat (length rows).
Proof.
  split; [reflexivity|].
  destruct (batch_reaches_recipients Examples.plain_text
              Examples.no_substitution 1700000000 "spring_sale" [3; 4; 5]%nat
              [] 9%nat None Examples.promo Examples.notif_db eq_refl)
    as (batch & db' & rows & Hrun & Hn & Hrs & _ & Hsent & _).
  exists batch, db', rows. split_and!; assumption.
Defined.

Section Claims.
Import Examples.

(** A sale announced to users 3, 4 and 5: user 3 has promotions off, the
    row of user 5 is refused by the storage layer. One sent, two failed,
    and the batch is stored as sent. *)
Example sale_batch :
  ∃ batch db',
    create_batch_notifications plain_text no_substitution no_fault
      refuses_user5 1700000000 "spring_sale" [3; 4; 5]%nat [] 9 None notif_db
    = (Ok (Some batch), db') ∧
    sent_count batch = 1 ∧ failed_count batch = 2 ∧ is_sent batch = true ∧
    sent_at batch = Some 1700000000 ∧
    recipient <$> notifications db' = [4%nat].
Proof. eexists _, _. split_and!; vm_compute; reflexivity. Qed.

(** The caller sees the same [None] for the skip and for the failure. *)
Example skip_and_failure_alike :
  (create_notification plain_text no_fault refuses_user5 3 "Sale" "20% off"
     "low" None None (Some promo) None None notif_db).1 = Ok None ∧
  (create_notification plain_text no_fault refuses_user5 5 "Sale" "20% off"
     "low" None None (Some promo) None None notif_db).1 = Ok None.
Proof. split; vm_compute; reflexivity. Qed.

(** C8 on user 3, who has switched every type off. *)
Lemma preference_gate_witness :
  preferences notif_db !! 3%nat = Some all_off ∧
  promotion_notifications all_off = false ∧
  create_notification plain_text no_fault no_fault 3 "Sale" "20% off" "low"
    None None (Some promo) None None notif_db = (Ok None, notif_db) ∧
  ∃ n db',
    create_notification plain_text no_fault no_fault 3 "Sale" "20% off" "low"
      None None (Some welcome) None None
      (set_preferences (preferences notif_db) notif_db) = (Ok (Some n), db') ∧
    notifications db' = (notifications notif_db ++ [n])%list ∧
    recipient n = 3%nat ∧ template n = Some (name welcome).
Proof.
  pose proof (preference_gate plain_text no_substitution no_fault no_fault
                3%nat "Sale" "20% off" "low" None None None None promo
                welcome all_off notif_db eq_refl eq_refl eq_refl eq_refl
                eq_refl (λ _, eq_refl)) as (Hgate & Hwelcome & _).
  split; [reflexivity|]. split; [reflexivity|]. split; [exact Hgate|].
  exact (Hwelcome (preferences notif_db)).
Defined.


End Claims.

End NotificationFacts.

(** ** The inbox *)

Module InboxFacts.
Import Notifications Inbox.

Lemma evolves_refl r : evolves r r.
Proof.
  unfold evolves. split_and!; auto.
  destruct r as [[] ? ?]; reflexivity.
Qed.

Lemma evolves_trans r1 r2 r3 : evolves r1 r2 → evolves r2 r3 → evolves r1 r3.
Proof.
  intros (Hb1 & Hc1 & Hs1) (Hb2 & Hc2 & Hs2). split_and!.
  - rewrite Hb2, Hb1. reflexivity.
  - congruence.
  - intros Hne. destruct (Hs1 Hne) as [Hne2 Hr]. destruct (Hs2 Hne2).
    split; congruence.
Qed.

Lemma evolves_id r r' : evolves r r' → row_id r' = row_id r.
Proof. intros (Hb & _). unfold row_id. rewrite Hb. reflexivity. Qed.

Lemma fmap_evolves (f : Row → Row) (tbl : list Row) :
  (∀ r, r ∈ tbl → evolves r (f r)) →
  row_id <$> (f <$> tbl) = row_id <$> tbl ∧
  ∀ r', r' ∈ f <$> tbl → ∃ r, r ∈ tbl ∧ evolves r r'.
Proof.
  intros Hf. split.
  - rewrite <- list_fmap_compose. apply Forall_fmap_ext_1, Forall_forall.
    intros r Hr. simpl. apply evolves_id, Hf, Hr.
  - intros r' (r & -> & Hr)%list_elem_of_fmap. eauto.
Qed.

Lemma mark_all_evolves now user r :
  evolves r (if unread_of user r then with_read "read" now r else r).
Proof.
  destruct (unread_of user r) eqn:Hu; [|apply evolves_refl].
  unfold unread_of in Hu. apply andb_true_iff in Hu as [_ Hs].
  apply String.eqb_eq in Hs. split_and!; try reflexivity.
  intros Hne. contradiction.
Qed.

Lemma save_update_fields_evolves column self (tbl : list Row) :
  (∀ r, r ∈ tbl → row_id r = row_id self → evolves r (column self r)) →
  row_id <$> (save_update_fields column self tbl).2 = row_id <$> tbl ∧
  ∀ r', r' ∈ (save_update_fields column self tbl).2 →
        ∃ r, r ∈ tbl ∧ evolves r r'.
Proof.
  intros Hcol. unfold save_update_fields.
  destruct (existsb _ tbl); simpl.
  - apply fmap_evolves. intros r Hr.
    destruct (Nat.eqb_spec (row_id r) (row_id self)) as [He|_];
      [apply Hcol; assumption|apply evolves_refl].
  - split; [reflexivity|]. intros r' Hr'. exists r'.
    split; [exact Hr'|apply evolves_refl].
Qed.

Lemma step_evolves op (tbl : list Row) :
  NoDup (row_id <$> tbl) →
  NoDup (row_id <$> step op tbl) ∧
  (length (step op tbl) ≤ length tbl)%nat ∧
  ∀ r', r' ∈ step op tbl → ∃ r, r ∈ tbl ∧ evolves r r'.
Proof.
  intros Hnd.
  assert (Hsame : ∀ tbl', row_id <$> tbl' = row_id <$> tbl →
            NoDup (row_id <$> tbl') ∧ (length tbl' ≤ length tbl)%nat).
  { intros tbl' He. split; [rewrite He; exact Hnd|].
    apply (f_equal length) in He. rewrite !length_fmap in He. lia. }
  assert (Hstay : NoDup (row_id <$> tbl) ∧ (length tbl ≤ length tbl)%nat ∧
            ∀ r', r' ∈ tbl → ∃ r, r ∈ tbl ∧ evolves r r').
  { split_and!; [exact Hnd|lia|].
    intros r' Hr'. exists r'. split; [exact Hr'|apply evolves_refl]. }
  destruct op as [now user pk new_status|now user|now0 now days_old]; simpl.
  - unfold NotificationUpdateView_patch.
    destruct (find _ tbl) as [notification|] eqn:Hfind; [|exact Hstay].
    apply find_some in Hfind as [Hin Hpk]. apply list_elem_of_In in Hin.
    destruct new_status as [s|]; [|exact Hstay].
    destruct (negb (str_in s ["read"; "archived"])); [exact Hstay|].
    assert (Hresult : ∀ (m : M (list Row) Row),
      (row_id <$> (m tbl).2 = row_id <$> tbl ∧
       ∀ r', r' ∈ (m tbl).2 → ∃ r, r ∈ tbl ∧ evolves r r') →
      let res := match m tbl with
                 | (Ok _, tbl') => (HTTP_200_OK, tbl')
                 | (Raise e, tbl') => (HTTP_500 e, tbl')
                 end in
      NoDup (row_id <$> res.2) ∧ (length res.2 ≤ length tbl)%nat ∧
      ∀ r', r' ∈ res.2 → ∃ r, r ∈ tbl ∧ evolves r r').
    { intros m [Hids Hrows].
      destruct (m tbl) as [[a|e] tbl']; simpl in *;
        destruct (Hsame _ Hids); split_and!; assumption. }
    apply Hresult.
    destruct (String.eqb s "read").
    + unfold mark_as_read.
      destruct (String.eqb_spec (status (base notification)) "unread")
        as [Hunread|_].
      2:{ unfold_monad. simpl. split; [reflexivity|]. apply Hstay. }
      unfold_monad.
      match goal with
      | |- context [save_update_fields ?c ?x tbl] =>
          pose proof (save_update_fields_evolves c x tbl) as Hs;
          destruct (save_update_fields c x tbl) as [[[]|e] tbl']
      end; simpl in *; apply Hs; intros r Hr Hid;
        (assert (r = notification)
           by (apply (NoDup_fmap_elem_eq row_id tbl); assumption); subst r;
         split_and!; try reflexivity; intros Hne; contradiction).
    + destruct (String.eqb s "archived").
      * unfold mark_as_archived. unfold_monad.
        match goal with
        | |- context [save_update_fields ?c ?x tbl] =>
            pose proof (save_update_fields_evolves c x tbl) as Hs;
            destruct (save_update_fields c x tbl) as [[[]|e] tbl']
        end; simpl in *; apply Hs; intros r Hr Hid;
          (split_and!; try reflexivity; intros Hne; split;
           [discriminate|reflexivity]).
      * unfold_monad. simpl. split; [reflexivity|]. apply Hstay.
  - destruct (fmap_evolves
                (λ r, if unread_of user r then with_read "read" now r else r)
                tbl (λ r _, mark_all_evolves now user r)) as [Hids Hrows].
    destruct (Hsame _ Hids). split_and!; assumption.
  - split_and!.
    + apply (sublist_NoDup _ (row_id <$> tbl)); [exact Hnd|].
      apply fmap_sublist, sublist_filter.
    + apply length_filter.
    + intros r' [_ Hr']%list_elem_of_filter. exists r'.
      split; [exact Hr'|apply evolves_refl].
Qed.

(** Whatever the inbox requests (status patches, mark-all-read,
    clean-ups), in whatever order: no row is added, primary keys stay
    distinct, and every row that is left is a row that was there, the
    same notification created at the same time; only its status and
    [read_at] may differ, and a row that was not unread is not unread
    afterwards and has the [read_at] it had. *)
Theorem inbox_rows_evolve ops (tbl : list Row) :
  NoDup (row_id <$> tbl) →
  NoDup (row_id <$> run ops tbl) ∧
  (length (run ops tbl) ≤ length tbl)%nat ∧
  ∀ r', r' ∈ run ops tbl → ∃ r, r ∈ tbl ∧ evolves r r'.
Proof.
  revert tbl. induction ops as [|op ops IH]; intros tbl Hnd; simpl.
  { split_and!; [exact Hnd|lia|].
    intros r' Hr'. exists r'. split; [exact Hr'|apply evolves_refl]. }
  destruct (step_evolves op tbl Hnd) as (Hnd1 & Hlen1 & Hrows1).
  destruct (IH (step op tbl) Hnd1) as (Hnd2 & Hlen2 & Hrows2).
  split_and!; [exact Hnd2|lia|].
  intros r' Hr'. destruct (Hrows2 r' Hr') as (r1 & Hr1 & He1).
  destruct (Hrows1 r1 Hr1) as (r & Hr & He). exists r.
  split; [exact Hr|]. exact (evolves_trans _ _ _ He He1).
Qed.

Lemma inbox_rows_evolve_witness :
  NoDup (row_id <$> Examples.inbox) ∧
  NoDup (row_id <$> run Examples.inbox_ops Examples.inbox) ∧
  (length (run Examples.inbox_ops Examples.inbox)
   ≤ length Examples.inbox)%nat ∧
  ∀ r', r' ∈ run Examples.inbox_ops Examples.inbox →
        ∃ r, r ∈ Examples.inbox ∧ evolves r r'.
Proof.
  assert (H : NoDup (row_id <$> Examples.inbox))
    by (apply (bool_decide_unpack (NoDup (row_id <$> Examples.inbox)));
        vm_compute; exact I).
  split; [exact H|].
  exact (inbox_rows_evolve Examples.inbox_ops Examples.inbox H).
Defined.

Lemma length_filter_and {A} (a b : A → bool) (l : list A) :
  (length (filter (λ x, a x && b x = true) l)
   ≤ length (filter (λ x, a x = true) l))%nat.
Proof.
  induction l as [|x l IH]; [reflexivity|].
  destruct (a x) eqn:Ha.
  - rewrite (filter_cons_True (λ x, a x = true)) by exact Ha.
    destruct (b x) eqn:Hb.
    + rewrite filter_cons_True by (rewrite Ha, Hb; reflexivity). simpl. lia.
    + rewrite filter_cons_False by (rewrite Ha, Hb; discriminate). simpl. lia.
  - rewrite (filter_cons_False (λ x, a x = true)) by (rewrite Ha; discriminate).
    rewrite filter_cons_False by (rewrite Ha; discriminate). exact IH.
Qed.

Lemma length_filter_split {A} (a : A → bool) (l : list A) :
  length l = (length (filter (λ x, a x = true) l)
              + length (filter (λ x, a x = false) l))%nat.
Proof.
  induction l as [|x l IH]; [reflexivity|].
  destruct (a x) eqn:Ha.
  - rewrite filter_cons_True by exact Ha.
    rewrite filter_cons_False by (rewrite Ha; discriminate). simpl. lia.
  - rewrite filter_cons_False by (rewrite Ha; discriminate).
    rewrite filter_cons_True by exact Ha. simpl. lia.
Qed.

Lemma marked_not_unread now user r :
  unread_of user (if unread_of user r then with_read "read" now r else r)
  = false.
Proof.
  destruct (unread_of user r) eqn:Hu; [|exact Hu].
  unfold unread_of. simpl. apply andb_false_r.
Qed.

Lemma marked_other now user other r :
  other ≠ user →
  let r' := if unread_of user r then with_read "read" now r else r in
  ∀ now', unread_of other r' && not_expired now' r'
          = unread_of other r && not_expired now' r.
Proof.
  intros Hne r' now'. subst r'.
  destruct (unread_of user r) eqn:Hu; [|reflexivity].
  unfold unread_of in *. apply andb_true_iff in Hu as [Hr _].
  apply bool_decide_eq_true in Hr. simpl.
  rewrite !bool_decide_eq_false_2 by congruence. reflexivity.
Qed.

(** [mark_all_as_read]: afterwards the user has no unread notification,
    at whatever time the count is taken; the number returned is at least
    the unread count before, which leaves expired rows out; the unread
    count of every other user is as before; and a second call finds
    nothing to mark. *)
Theorem mark_all_as_read_clears now user (tbl : list Row) :
  (∀ now', get_unread_count now' user (mark_all_as_read now user tbl).2
           = 0%nat) ∧
  (∀ now', (get_unread_count now' user tbl
            ≤ (mark_all_as_read now user tbl).1)%nat) ∧
  (∀ now' other, other ≠ user →
     get_unread_count now' other (mark_all_as_read now user tbl).2
     = get_unread_count now' other tbl) ∧
  (∀ now', mark_all_as_read now' user (mark_all_as_read now user tbl).2
           = (0%nat, (mark_all_as_read now user tbl).2)) ∧
  length (mark_all_as_read now user tbl).2 = length tbl.
Proof.
  unfold mark_all_as_read, get_unread_count. simpl.
  set (f := λ r, if unread_of user r then with_read "read" now r else r).
  assert (Hnone : ∀ r', r' ∈ f <$> tbl → unread_of user r' = false).
  { intros r' (r & -> & _)%list_elem_of_fmap. apply marked_not_unread. }
  split_and!.
  - intros now'. rewrite filter_none; [reflexivity|].
    intros r' Hr'. rewrite (Hnone r' Hr'). discriminate.
  - intros now'. apply length_filter_and.
  - intros now' other Hne. induction tbl as [|r tbl IH]; [reflexivity|].
    rewrite fmap_cons.
    assert (Hl : ∀ r', r' ∈ f <$> tbl → unread_of user r' = false).
    { intros r' Hr'. apply Hnone. rewrite fmap_cons. right. exact Hr'. }
    pose proof (marked_other now user other r Hne now') as Hr. simpl in Hr.
    fold (f r) in Hr.
    destruct (unread_of other r && not_expired now' r) eqn:Hb.
    + rewrite !filter_cons_True by assumption. simpl. f_equal. exact (IH Hl).
    + rewrite !filter_cons_False by (rewrite ?Hr, ?Hb; discriminate).
      exact (IH Hl).
  - intros now'. f_equal.
    + rewrite filter_none; [reflexivity|].
      intros r' Hr'. rewrite (Hnone r' Hr'). discriminate.
    + rewrite <- (list_fmap_id (f <$> tbl)) at 2.
      apply Forall_fmap_ext_1, Forall_forall. intros r' Hr'.
      rewrite (Hnone r' Hr'). reflexivity.
  - apply length_fmap.
Qed.

(** [cleanup_expired_notifications]: the number returned is the number
    of rows deleted, and the rest stays in order; an unread notification
    that has not expired is never deleted, so no user's unread count
    changes; and a second clean-up with the same readings of the clock
    deletes nothing. *)
Theorem cleanup_keeps_unread now0 now days_old (tbl : list Row) :
  length tbl
    = ((cleanup_expired_notifications now0 now days_old tbl).1
       + length (cleanup_expired_notifications now0 now days_old tbl).2)%nat ∧
  sublist (cleanup_expired_notifications now0 now days_old tbl).2 tbl ∧
  (∀ r, r ∈ tbl → status (base r) = "unread" → not_expired now r = true →
        r ∈ (cleanup_expired_notifications now0 now days_old tbl).2) ∧
  (∀ user,
     get_unread_count now user
       (cleanup_expired_notifications now0 now days_old tbl).2
     = get_unread_count now user tbl) ∧
  cleanup_expired_notifications now0 now days_old
    (cleanup_expired_notifications now0 now days_old tbl).2
  = (0%nat, (cleanup_expired_notifications now0 now days_old tbl).2).
Proof.
  unfold cleanup_expired_notifications, get_unread_count. simpl.
  assert (Hlive : ∀ r, status (base r) = "unread" → not_expired now r = true →
            to_clean now0 now days_old r = false).
  { intros r Hs He. unfold to_clean, not_expired in *. rewrite Hs.
    destruct (expires_at (base r)) as [t|]; simpl.
    - apply Z.ltb_lt in He. rewrite andb_false_r, orb_false_r.
      apply Z.ltb_ge. lia.
    - rewrite andb_false_r. reflexivity. }
  split_and!.
  - apply length_filter_split.
  - apply sublist_filter.
  - intros r Hr Hs He. apply list_elem_of_filter. split; [|exact Hr].
    apply Hlive; assumption.
  - intros user. f_equal. apply filter_filter_same.
    intros r _ [Hu He]%andb_true_iff. apply Hlive; [|exact He].
    unfold unread_of in Hu. apply andb_true_iff in Hu as [_ Hs].
    apply String.eqb_eq. exact Hs.
  - f_equal.
    + rewrite filter_none; [reflexivity|].
      intros r [Hr _]%list_elem_of_filter. rewrite Hr. discriminate.
    + apply filter_all. intros r [Hr _]%list_elem_of_filter. exact Hr.
Qed.

End InboxFacts.
